(** * The search view and the explorer file commands

    A shallow embedding of
      - [src/vs/workbench/contrib/search/browser/searchView.ts] (class
        [SearchView]), and
      - the explorer's file commands (copy path, revert file).

    JavaScript numbers are integers of [Z]; strings are [string], one
    character per UTF-16 code unit; arrays and iterators are lists; objects
    of collaborating classes that are not part of these two files (the search
    model, the widgets, the services) appear as the record of the answers
    their methods give when the view calls them, and what the view asks of
    them is logged call by call.

    A method of the view is a function in a monad that threads the fields of
    the view and the log of calls, each call with the state of the user
    interface it is made in. What JavaScript runs later (the callback of a
    promise, of a timer, of an event) is a turn of an event loop: a
    [validateQuery] promise that has not settled waits with the arguments of
    its callbacks, the promise chain [currentSearchQ] is a queue of
    [doSearch] calls, of which the next starts when the one before has
    settled, and the timers of the window are pending until they fire or are
    cleared. *)

From Stdlib Require Import ZArith List String Ascii Bool Lia DecimalString.
From Stdlib Require Import Sorted Permutation.
Import ListNotations.

Local Open Scope string_scope.
Local Open Scope list_scope.
Local Open Scope Z_scope.

Set Implicit Arguments.

(** ** JavaScript built-ins used by the two files *)

Module JS.

(** [s.length] *)
Definition length (s : string) : Z := Z.of_nat (String.length s).

(** [!!s] on a string: the empty string is the only falsy one. *)
Definition truthy (s : string) : bool :=
  match s with EmptyString => false | String _ _ => true end.

(** [a.length] *)
Definition alength {A : Type} (a : list A) : Z := Z.of_nat (List.length a).

(** [a[i]]: [undefined] (here [None]) outside of [0 .. a.length - 1]. *)
Definition index {A : Type} (a : list A) (i : Z) : option A :=
  if i <? 0 then None else nth_error a (Z.to_nat i).

(** [s.indexOf(sub)]: the first position of [sub] in [s], or [-1]. *)
Definition indexOf (s sub : string) : Z :=
  match String.index 0 sub s with
  | Some n => Z.of_nat n
  | None => -1
  end.

(** [a.join(sep)] on an array of strings. *)
Fixpoint join (sep : string) (a : list string) : string :=
  match a with
  | [] => ""
  | [s] => s
  | s :: rest => (s ++ sep ++ join sep rest)%string
  end.

(** [a.filter((x, i) => f(x, i))] *)
Fixpoint filter_from {A : Type} (f : A -> Z -> bool) (i : Z) (a : list A) : list A :=
  match a with
  | [] => []
  | x :: a' => if f x i then x :: filter_from f (i + 1) a' else filter_from f (i + 1) a'
  end.

Definition filteri {A : Type} (f : A -> Z -> bool) (a : list A) : list A :=
  filter_from f 0 a.

(** [s.trim()]: white space is tab, line feed, vertical tab, form feed,
    carriage return, space and no-break space. *)
Definition isWhiteSpace (c : ascii) : bool :=
  let n := nat_of_ascii c in
  ((9 <=? n) && (n <=? 13) || (n =? 32) || (n =? 160))%nat.

Fixpoint trimStart (s : string) : string :=
  match s with
  | String c s' => if isWhiteSpace c then trimStart s' else s
  | EmptyString => EmptyString
  end.

Fixpoint trimEnd (s : string) : string :=
  match s with
  | String c s' =>
    match trimEnd s' with
    | EmptyString => if isWhiteSpace c then EmptyString else String c EmptyString
    | rest => String c rest
    end
  | EmptyString => EmptyString
  end.

Definition trim (s : string) : string := trimEnd (trimStart s).

(** [a.sort(compareFn)]. The comparator answers a negative number, zero or a
    positive number; the sort is stable, so elements that compare as equal
    keep their order. [insert] puts [x], which came before all of [l] in the
    array, in front of the first element it does not compare greater than. *)
Section Sort.
Variable A : Type.
Variable compareFn : A -> A -> Z.

Fixpoint insert (x : A) (l : list A) : list A :=
  match l with
  | [] => [x]
  | y :: l' => if compareFn x y <=? 0 then x :: l else y :: insert x l'
  end.

Definition sort (a : list A) : list A := fold_right insert [] a.

End Sort.

End JS.

(** ** Editor and platform values *)

Record URI := { scheme : string; fsPath : string }.

(** [IRange] of the editor. *)
Record IRange := {
  startLineNumber : Z;
  startColumn : Z;
  endLineNumber : Z;
  endColumn : Z
}.

(** ** The search result model, as the view sees it

    [Match], [FileMatch], [FolderMatch] and [SearchResult] are classes of
    [searchModel.ts]. Each record holds what the methods the view calls
    return. The arrays [matches()] and [folderMatches()] return are fresh
    ones, so that sorting them in place leaves the model as it is. *)

Module Match.
Record t := {
  id : string;
  range : IRange;               (* range() *)
  replaceString : string;       (* get replaceString *)
  parent_resource : URI         (* parent().resource *)
}.
End Match.

Module FileMatch.
Record t := {
  id : string;
  resource : URI;
  count : Z;                    (* count() *)
  matches : list Match.t        (* matches() *)
}.
End FileMatch.

Module FolderMatch.
Record t := {
  id : string;
  isEmpty : bool;               (* isEmpty() *)
  matches : list FileMatch.t    (* matches() *)
}.
End FolderMatch.

(** [RenderableMatch = FolderMatch | FileMatch | Match]; [instanceof] is a
    match on the constructor. *)
Inductive RenderableMatch :=
| Folder (folderMatch : FolderMatch.t)
| File (fileMatch : FileMatch.t)
| Line (m : Match.t).

(** [FileMatchOrMatch = FileMatch | Match] *)
Inductive FileMatchOrMatch :=
| OfFile (fileMatch : FileMatch.t)
| OfMatch (m : Match.t).

(** [ISearchConfigurationProperties['collapseResults']] *)
Inductive CollapseResults := auto | alwaysCollapse | alwaysExpand.

Definition CollapseResults_eqb (a b : CollapseResults) : bool :=
  match a, b with
  | auto, auto | alwaysCollapse, alwaysCollapse | alwaysExpand, alwaysExpand => true
  | _, _ => false
  end.

(** [ITreeElement<RenderableMatch>]; an iterator of tree elements is the list
    of what it yields. A missing property is [None]. *)
#[local] Unset Elimination Schemes.
Inductive ITreeElement := {
  element : RenderableMatch;
  children : option (list ITreeElement);
  collapsed : option bool
}.
#[local] Set Elimination Schemes.

(** ** The result tree: createResultIterator and its helpers *)

Section ResultTree.

(** [searchMatchComparer] of [searchModel.ts]. *)
Variable searchMatchComparer : RenderableMatch -> RenderableMatch -> Z.

(** Whether [this.tree.getNode(fileMatch)] returns (it throws when the tree
    has no node for the element). *)
Variable tree_getNode : FileMatch.t -> bool.

Definition createFileIterator (fileMatch : FileMatch.t) : list ITreeElement :=
  let matchesIt :=
    JS.sort (fun a b => searchMatchComparer (Line a) (Line b))
            (FileMatch.matches fileMatch) in
  map (fun r => {| element := Line r; children := None; collapsed := None |})
      matchesIt.

Definition createFolderIterator (folderMatch : FolderMatch.t)
    (collapseResults : CollapseResults) : list ITreeElement :=
  let filesIt :=
    JS.sort (fun a b => searchMatchComparer (File a) (File b))
            (FolderMatch.matches folderMatch) in
  map (fun fileMatch =>
         let children := createFileIterator fileMatch in
         let nodeExists := tree_getNode fileMatch in
         let collapsed :=
           if nodeExists then None
           else Some (CollapseResults_eqb collapseResults alwaysCollapse
                      || ((10 <? JS.alength (FileMatch.matches fileMatch))
                          && negb (CollapseResults_eqb collapseResults alwaysExpand))) in
         {| element := File fileMatch; children := Some children;
            collapsed := collapsed |})
      filesIt.

(** [createResultIterator], on the array [this.searchResult.folderMatches()]. *)
Definition createResultIterator (searchResult_folderMatches : list FolderMatch.t)
    (collapseResults : CollapseResults) : list ITreeElement :=
  let folderMatches :=
    JS.sort (fun a b => searchMatchComparer (Folder a) (Folder b))
            (filter (fun fm => negb (FolderMatch.isEmpty fm))
                    searchResult_folderMatches) in
  match folderMatches with
  | [only] => createFolderIterator only collapseResults
  | _ =>
    map (fun folderMatch =>
           let children := createFolderIterator folderMatch collapseResults in
           {| element := Folder folderMatch; children := Some children;
              collapsed := None |})
        folderMatches
  end.

End ResultTree.

(** ** Values exchanged with the search service and the query builder *)

(** [IPatternInfo] *)
Record IPatternInfo := {
  pattern : string;
  isRegExp : bool;
  isCaseSensitive : bool;
  isWordMatch : bool
}.

(** [ITextSearchPreviewOptions] *)
Record ITextSearchPreviewOptions := { matchLines : Z; charsPerLine : Z }.

(** [ITextQueryBuilderOptions], with the properties the view sets. The two
    [disregard...] properties are [true] or [undefined]. *)
Record ITextQueryBuilderOptions := {
  _reason : string;
  extraFileResources : list URI;
  maxResults : Z;
  disregardIgnoreFiles : option bool;
  disregardExcludeSettings : option bool;
  excludePattern : string;
  includePattern : string;
  previewOptions : ITextSearchPreviewOptions;
  isSmartCase : bool;
  expandPatterns : bool
}.

(** [IFolderQuery] *)
Record IFolderQuery := { folder : URI }.

(** [ITextQuery]: the properties the view reads or writes ([folderQueries],
    [userDisabledExcludesAndIgnoreFiles]) and those the query builder fills
    from the pattern and the options. *)
Record ITextQuery := {
  contentPattern : IPatternInfo;
  folderQueries : list IFolderQuery;
  query_maxResults : option Z;
  query_previewOptions : option ITextSearchPreviewOptions;
  userDisabledExcludesAndIgnoreFiles : bool
}.

Definition set_folderQueries (query : ITextQuery) (fqs : list IFolderQuery) : ITextQuery :=
  {| contentPattern := contentPattern query;
     folderQueries := fqs;
     query_maxResults := query_maxResults query;
     query_previewOptions := query_previewOptions query;
     userDisabledExcludesAndIgnoreFiles := userDisabledExcludesAndIgnoreFiles query |}.

(** A JavaScript [Error]. *)
Record Error := { name : string; message : string }.

(** [ISearchComplete] *)
Record ISearchComplete := { limitHit : bool }.

Module SearchResult.
Record t := {
  isEmpty : bool;                       (* isEmpty() *)
  query : ITextQuery;                   (* query!, asserted to be set *)
  fileCount : Z;                        (* fileCount() *)
  count : Z;                            (* count() *)
  folderMatches : list FolderMatch.t;   (* folderMatches() *)
  matches : list FileMatch.t            (* matches() *)
}.
End SearchResult.

(** [IChangeEvent] of the search result. *)
Record IChangeEvent := {
  elements : list FileMatch.t;
  added : bool;
  removed : bool
}.

(** [IWorkspaceFolder] *)
Record IWorkspaceFolder := { uri : URI; folder_name : string }.

Inductive WorkbenchState := EMPTY | FOLDER | WORKSPACE.

Definition WorkbenchState_eqb (a b : WorkbenchState) : bool :=
  match a, b with
  | EMPTY, EMPTY | FOLDER, FOLDER | WORKSPACE, WORKSPACE => true
  | _, _ => false
  end.

Inductive MessageType := INFO | WARNING | ERROR.

(** An argument of [nls.localize]. *)
Inductive LocalizeArg := str (s : string) | num (n : Z).

(** ** The view's own types *)

Inductive SearchUIState := Idle | Searching | SlowSearch.

Definition SearchUIState_eqb (a b : SearchUIState) : bool :=
  match a, b with
  | Idle, Idle | Searching, Searching | SlowSearch, SlowSearch => true
  | _, _ => false
  end.

(** The four actions the constructor creates. *)
Inductive IAction :=
| ClearSearchResultsAction
| CollapseDeepestExpandedLevelAction
| RefreshAction
| CancelSearchAction.

(** The part of the DOM the view reads back: text nodes and elements, an
    element with the selector it was made from by [$]. *)
#[local] Unset Elimination Schemes.
Inductive HTMLElement :=
| textNode (s : string)
| el (selector : string) (childNodes : list HTMLElement).
#[local] Set Elimination Schemes.

Fixpoint textContent (n : HTMLElement) : string :=
  match n with
  | textNode s => s
  | el _ kids =>
    (fix all (l : list HTMLElement) : string :=
       match l with
       | [] => ""
       | k :: l' => (textContent k ++ all l')%string
       end) kids
  end.

(** [$(selector, undefined, content)] *)
Definition dollar (selector : string) (content : string) : HTMLElement :=
  el selector [textNode content].

(** [ACTIVE_GROUP] and [SIDE_GROUP] of the editor service. *)
Inductive EditorGroup := ACTIVE_GROUP | SIDE_GROUP.

(** ** Calls to collaborators

    What the view asks of the objects around it, in the order it asks.
    [reLayout] is the view's own layout pass, [super_updateActions] the
    method it overrides, and the timer calls those of the window; they are
    logged and not followed further. *)

Module Call.
Inductive t :=
(* the search model *)
| searchResult_clear
| searchResult_toggleHighlights (value : bool)
| viewModel_cancelSearch
| viewModel_search (query : ITextQuery)
| viewModel_set_replaceString (s : string)
| highlightRange (r : IRange)
| removeHighlightRange
(* the query builder, the file service, the editor service *)
| queryBuilder_text (content : IPatternInfo) (folderResources : list URI)
                    (options : ITextQueryBuilderOptions)
| fileService_exists (resource : URI)
| editorService_openEditor (resource : URI) (preserveFocus pinned : option bool)
                           (selection : option IRange) (revealIfVisible : bool)
                           (group : EditorGroup)
| onUnexpectedError (e : Error)
(* the widgets *)
| searchInput_showMessage (content : string) (type : MessageType)
| searchInput_clearMessage
| searchWidget_clear
| searchWidget_focus (select : bool)
| searchWidget_setReplaceAllActionState (enabled : bool)
| addToSearchHistoryDelayer_trigger
| inputPatternExcludes_onSearchSubmit
| inputPatternIncludes_onSearchSubmit
(* the tree *)
| tree_setChildren (parent : option RenderableMatch) (children : list ITreeElement)
| tree_rerender (element : RenderableMatch)
| tree_expand (element : RenderableMatch)
(* actions, context keys, progress, aria, layout, timers *)
| action_update (a : IAction)
| super_updateActions
| viewletVisible_set (value : bool)
| hasSearchResultsKey_set (value : bool)
| progressService_withProgress (delay : Z)
| progressComplete
| aria_status (msg : string)
| reLayout
| dom_show_resultsElement
| setTimeout (ms : Z)
| clearTimeout
| setInterval (ms : Z)
| clearInterval.
End Call.

(** ** What the collaborators answer during one turn of the event loop *)

Record World := {
  (* this.searchWidget.searchInput *)
  isInputValid : bool;
  getRegex : bool;
  getWholeWords : bool;
  getCaseSensitive : bool;
  getValue : string;
  (* this.searchWidget, this.inputPatternExcludes, this.inputPatternIncludes *)
  getReplaceValue : string;
  excludes_getValue : string;
  includes_getValue : string;
  useExcludesAndIgnoreFiles : bool;
  (* configuration and workspace *)
  smartCase : bool;
  searchOnType : bool;
  collapseResults : CollapseResults;
  getWorkbenchState : WorkbenchState;
  workspace_folders : list IWorkspaceFolder;
  getOutOfWorkspaceEditorResources : list URI;
  (* the query builder: it returns a query or throws *)
  text : IPatternInfo -> list URI -> ITextQueryBuilderOptions -> Error + ITextQuery;
  (* the time of the turn, in milliseconds *)
  now : Z;
  (* the panel, the tree and the search model *)
  isVisible : bool;
  getNode : FileMatch.t -> bool;
  searchResult : SearchResult.t;
  isReplaceActive : bool;
  replaceString : string
}.

(** ** The state of a [SearchView] *)

(** The listeners [messageDisposables] holds, by the link they serve. *)
Inductive MessageListener :=
| SearchAgain | SearchAgainInAllFiles | OpenSettings | LearnMore | OpenFolder.

(** [this.messagesElement]: [style.display === 'none'] and the child nodes. *)
Record MessagesElement := {
  display_none : bool;
  childNodes : list HTMLElement
}.

(** A [doSearch] call waiting on [currentSearchQ], with its arguments. *)
Record QueuedSearch := {
  queued_query : ITextQuery;
  queued_options : ITextQueryBuilderOptions;
  queued_excludePatternText : string;
  queued_includePatternText : string;
  queued_triggeredOnType : bool
}.

(** A [validateQuery] promise that has not settled, with what the two
    callbacks that [onQueryChanged] chains on it hold: the query, whose
    [folderQueries] the promise assigns, and the locals of that
    [onQueryChanged] call. *)
Record Validating := {
  validating_query : ITextQuery;
  validating_options : ITextQueryBuilderOptions;
  validating_excludePatternText : string;
  validating_includePatternText : string;
  validating_triggeredOnType : bool;
  validating_preserveFocus : bool
}.

(** A timer made by [setTimeout]: pending until the time it is due, then
    fired, unless [clearTimeout] came first. The window keeps its timers in
    the order in which they were made; the handle [setTimeout] returns is the
    position of the timer. *)
Inductive Timer := Pending (due : Z) | Fired (due : Z) | Cleared.

Fixpoint on_timer (f : Timer -> Timer) (handle : nat) (timers : list Timer) : list Timer :=
  match timers, handle with
  | [], _ => []
  | t :: rest, O => f t :: rest
  | t :: rest, S h => t :: on_timer f h rest
  end.

(** [clearTimeout(handle)]: a pending timer will not fire; on any other
    timer, and on a handle of no timer, it does nothing. *)
Definition clearTimeout (handle : nat) (timers : list Timer) : list Timer :=
  on_timer (fun t => match t with Pending _ => Cleared | _ => t end) handle timers.

(** The window running the callback of a timer that is due. *)
Definition fire (handle : nat) (timers : list Timer) : list Timer :=
  on_timer (fun t => match t with Pending due => Fired due | _ => t end) handle timers.

(** The [doSearch] call whose search has not settled: the arguments its
    callbacks use and the handle of its [slowTimer]. *)
Record RunningSearch := {
  excludePatternText : string;
  includePatternText : string;
  slowTimer : nat
}.

(** The locals of one [setInterval] callback of [doSearch]. The view keeps
    those whose interval has not been cleared, oldest first. *)
Record UiRefresh := {
  visibleMatches : Z;
  updatedActionsForFileCount : bool
}.

(** The fields of a [SearchView], and with them what the event loop holds
    for it: the [validateQuery] promises that have not settled, oldest first,
    the [doSearch] calls chained on [currentSearchQ], the search that has not
    settled, the timers [setTimeout] made and the intervals that have not
    been cleared. *)
Record SearchView := {
  state : SearchUIState;
  changedWhileHidden : bool;
  currentSelectedFileMatch : option FileMatch.t;
  searchWithoutFolderMessageElement : bool;   (* false: undefined *)
  messagesElement : MessagesElement;
  messageDisposables : list MessageListener;
  validating : list Validating;
  currentSearchQ : list QueuedSearch;
  running : option RunningSearch;
  timeouts : list Timer;
  uiRefreshHandles : list UiRefresh
}.

(** The fields as the constructor leaves them, with the element that
    [renderBody] creates for the messages still empty. *)
Definition new_SearchView : SearchView := {|
  state := Idle;
  changedWhileHidden := false;
  currentSelectedFileMatch := None;
  searchWithoutFolderMessageElement := false;
  messagesElement := {| display_none := false; childNodes := [] |};
  messageDisposables := [];
  validating := [];
  currentSearchQ := [];
  running := None;
  timeouts := [];
  uiRefreshHandles := []
|}.

(** ** Methods run in a state and log monad *)

Definition M (A : Type) : Type :=
  SearchView -> A * SearchView * list (SearchUIState * Call.t).

Definition ret {A : Type} (a : A) : M A := fun v => (a, v, []).

Definition bind {A B : Type} (m : M A) (k : A -> M B) : M B :=
  fun v =>
    let '(a, v1, l1) := m v in
    let '(b, v2, l2) := k a v1 in
    (b, v2, l1 ++ l2).

Definition get : M SearchView := fun v => (v, v, []).
Definition modify (f : SearchView -> SearchView) : M unit := fun v => (tt, f v, []).
Definition call (c : Call.t) : M unit := fun v => (tt, v, [(state v, c)]).

Notation "x <- m ;; k" := (bind m (fun x => k))
  (at level 61, m at next level, right associativity).
Notation "m ;; k" := (bind m (fun _ => k))
  (at level 61, right associativity).

Definition when (b : bool) (m : M unit) : M unit := if b then m else ret tt.

Fixpoint forEach {A : Type} (l : list A) (f : A -> M unit) : M unit :=
  match l with
  | [] => ret tt
  | x :: l' => f x ;; forEach l' f
  end.

(** The view after a method, what the method called, each call with the
    state it was made in, and the calls alone. *)
Definition view_after {A : Type} (m : M A) (v : SearchView) : SearchView := snd (fst (m v)).
Definition trace_of {A : Type} (m : M A) (v : SearchView) : list (SearchUIState * Call.t) :=
  snd (m v).
Definition calls_of {A : Type} (m : M A) (v : SearchView) : list Call.t :=
  map snd (trace_of m v).
Definition result_of {A : Type} (m : M A) (v : SearchView) : A := fst (fst (m v)).

(** Assignments to the fields. *)
Definition set_state (x : SearchUIState) (v : SearchView) : SearchView :=
  {| state := x; changedWhileHidden := changedWhileHidden v;
     currentSelectedFileMatch := currentSelectedFileMatch v;
     searchWithoutFolderMessageElement := searchWithoutFolderMessageElement v;
     messagesElement := messagesElement v; messageDisposables := messageDisposables v;
     validating := validating v; currentSearchQ := currentSearchQ v; running := running v;
     timeouts := timeouts v; uiRefreshHandles := uiRefreshHandles v |}.

Definition set_changedWhileHidden (x : bool) (v : SearchView) : SearchView :=
  {| state := state v; changedWhileHidden := x;
     currentSelectedFileMatch := currentSelectedFileMatch v;
     searchWithoutFolderMessageElement := searchWithoutFolderMessageElement v;
     messagesElement := messagesElement v; messageDisposables := messageDisposables v;
     validating := validating v; currentSearchQ := currentSearchQ v; running := running v;
     timeouts := timeouts v; uiRefreshHandles := uiRefreshHandles v |}.

Definition set_currentSelectedFileMatch (x : option FileMatch.t) (v : SearchView)
    : SearchView :=
  {| state := state v; changedWhileHidden := changedWhileHidden v;
     currentSelectedFileMatch := x;
     searchWithoutFolderMessageElement := searchWithoutFolderMessageElement v;
     messagesElement := messagesElement v; messageDisposables := messageDisposables v;
     validating := validating v; currentSearchQ := currentSearchQ v; running := running v;
     timeouts := timeouts v; uiRefreshHandles := uiRefreshHandles v |}.

Definition set_searchWithoutFolderMessageElement (x : bool) (v : SearchView) : SearchView :=
  {| state := state v; changedWhileHidden := changedWhileHidden v;
     currentSelectedFileMatch := currentSelectedFileMatch v;
     searchWithoutFolderMessageElement := x; messagesElement := messagesElement v;
     messageDisposables := messageDisposables v; validating := validating v;
     currentSearchQ := currentSearchQ v; running := running v; timeouts := timeouts v;
     uiRefreshHandles := uiRefreshHandles v |}.

Definition set_messagesElement (x : MessagesElement) (v : SearchView) : SearchView :=
  {| state := state v; changedWhileHidden := changedWhileHidden v;
     currentSelectedFileMatch := currentSelectedFileMatch v;
     searchWithoutFolderMessageElement := searchWithoutFolderMessageElement v;
     messagesElement := x; messageDisposables := messageDisposables v;
     validating := validating v; currentSearchQ := currentSearchQ v; running := running v;
     timeouts := timeouts v; uiRefreshHandles := uiRefreshHandles v |}.

Definition set_messageDisposables (x : list MessageListener) (v : SearchView) : SearchView :=
  {| state := state v; changedWhileHidden := changedWhileHidden v;
     currentSelectedFileMatch := currentSelectedFileMatch v;
     searchWithoutFolderMessageElement := searchWithoutFolderMessageElement v;
     messagesElement := messagesElement v; messageDisposables := x;
     validating := validating v; currentSearchQ := currentSearchQ v; running := running v;
     timeouts := timeouts v; uiRefreshHandles := uiRefreshHandles v |}.

Definition set_validating (x : list Validating) (v : SearchView) : SearchView :=
  {| state := state v; changedWhileHidden := changedWhileHidden v;
     currentSelectedFileMatch := currentSelectedFileMatch v;
     searchWithoutFolderMessageElement := searchWithoutFolderMessageElement v;
     messagesElement := messagesElement v; messageDisposables := messageDisposables v;
     validating := x; currentSearchQ := currentSearchQ v; running := running v;
     timeouts := timeouts v; uiRefreshHandles := uiRefreshHandles v |}.

Definition set_currentSearchQ (x : list QueuedSearch) (v : SearchView) : SearchView :=
  {| state := state v; changedWhileHidden := changedWhileHidden v;
     currentSelectedFileMatch := currentSelectedFileMatch v;
     searchWithoutFolderMessageElement := searchWithoutFolderMessageElement v;
     messagesElement := messagesElement v; messageDisposables := messageDisposables v;
     validating := validating v; currentSearchQ := x; running := running v;
     timeouts := timeouts v; uiRefreshHandles := uiRefreshHandles v |}.

Definition set_running (x : option RunningSearch) (v : SearchView) : SearchView :=
  {| state := state v; changedWhileHidden := changedWhileHidden v;
     currentSelectedFileMatch := currentSelectedFileMatch v;
     searchWithoutFolderMessageElement := searchWithoutFolderMessageElement v;
     messagesElement := messagesElement v; messageDisposables := messageDisposables v;
     validating := validating v; currentSearchQ := currentSearchQ v; running := x;
     timeouts := timeouts v; uiRefreshHandles := uiRefreshHandles v |}.

Definition set_timeouts (x : list Timer) (v : SearchView) : SearchView :=
  {| state := state v; changedWhileHidden := changedWhileHidden v;
     currentSelectedFileMatch := currentSelectedFileMatch v;
     searchWithoutFolderMessageElement := searchWithoutFolderMessageElement v;
     messagesElement := messagesElement v; messageDisposables := messageDisposables v;
     validating := validating v; currentSearchQ := currentSearchQ v; running := running v;
     timeouts := x; uiRefreshHandles := uiRefreshHandles v |}.

Definition set_uiRefreshHandles (x : list UiRefresh) (v : SearchView) : SearchView :=
  {| state := state v; changedWhileHidden := changedWhileHidden v;
     currentSelectedFileMatch := currentSelectedFileMatch v;
     searchWithoutFolderMessageElement := searchWithoutFolderMessageElement v;
     messagesElement := messagesElement v; messageDisposables := messageDisposables v;
     validating := validating v; currentSearchQ := currentSearchQ v; running := running v;
     timeouts := timeouts v; uiRefreshHandles := x |}.

(** [dom.hide], [dom.show], [dom.clearNode] and [dom.append] on
    [this.messagesElement]: the display style set to none or reset, the
    children removed, a child added at the end. [dom_append depth] appends
    under the element reached by taking the last child [depth] times: the
    view only appends to the element it created last. *)
Fixpoint append_under (depth : nat) (nodes : list HTMLElement) (child : HTMLElement)
    : list HTMLElement :=
  match depth with
  | O => nodes ++ [child]
  | S d =>
    match rev nodes with
    | el sel kids :: before => rev before ++ [el sel (append_under d kids child)]
    | _ => nodes
    end
  end.

Definition dom_hide (e : MessagesElement) : MessagesElement :=
  {| display_none := true; childNodes := childNodes e |}.
Definition dom_show (e : MessagesElement) : MessagesElement :=
  {| display_none := false; childNodes := childNodes e |}.
Definition dom_clearNode (e : MessagesElement) : MessagesElement :=
  {| display_none := display_none e; childNodes := [] |}.
Definition dom_append (depth : nat) (child : HTMLElement) (e : MessagesElement) : MessagesElement :=
  {| display_none := display_none e;
     childNodes := append_under depth (childNodes e) child |}.

Definition on_messagesElement (f : MessagesElement -> MessagesElement) : M unit :=
  modify (fun v => set_messagesElement (f (messagesElement v)) v).

(** ** The methods of [SearchView] *)

Section SearchView.

(** [nls.localize(key, message, ...args)] *)
Variable localize : string -> string -> list LocalizeArg -> string.

(** [searchMatchComparer] of the search model. *)
Variable searchMatchComparer : RenderableMatch -> RenderableMatch -> Z.

(** [errors.isPromiseCanceledError] *)
Variable isPromiseCanceledError : Error -> bool.

Definition SEARCH_CANCELLED_MESSAGE : string :=
  localize "searchCanceled" "Search was canceled before any results could be found - " [].

Definition MAX_TEXT_RESULTS : Z := 10000.

(** [this.actions], [this.refreshAction] and [this.cancelAction] are set by
    the constructor and never assigned again. *)
Definition actions : list IAction :=
  [ClearSearchResultsAction; CollapseDeepestExpandedLevelAction].
Definition refreshAction : IAction := RefreshAction.
Definition cancelAction : IAction := CancelSearchAction.

Definition updateActions : M unit :=
  forEach actions (fun action => call (Call.action_update action)) ;;
  call (Call.action_update refreshAction) ;;
  call (Call.action_update cancelAction) ;;
  call Call.super_updateActions.

Definition isSlowSearch (v : SearchView) : bool :=
  SearchUIState_eqb (state v) SlowSearch.

Definition getActions (v : SearchView) : list IAction :=
  (if SearchUIState_eqb (state v) SlowSearch then cancelAction else refreshAction)
    :: actions.

(** [clearMessage]: the element it returns is the last child of
    [messagesElement] afterwards. *)
Definition clearMessage : M unit :=
  modify (set_searchWithoutFolderMessageElement false) ;;
  on_messagesElement dom_clearNode ;;
  on_messagesElement dom_show ;;
  modify (set_messageDisposables []) ;;
  on_messagesElement (dom_append 0 (el ".message" [])).

Definition showSearchWithoutFolderMessage : M unit :=
  clearMessage ;;
  modify (set_searchWithoutFolderMessageElement true) ;;
  on_messagesElement (dom_append 1
    (dollar "p" (localize "searchWithoutFolder"
       "You have not opened or specified a folder. Only open files are currently searched - " []))) ;;
  on_messagesElement (dom_append 2
    (dollar "a.pointer.prominent" (localize "openFolder" "Open Folder" []))) ;;
  modify (fun v => set_messageDisposables (messageDisposables v ++ [OpenFolder]) v).

Definition showEmptyStage (w : World) (forceHideMessages : bool) : M unit :=
  updateActions ;;
  v <- get ;;
  let showingCancelled :=
    -1 <? match childNodes (messagesElement v) with
          | firstChild :: _ => JS.indexOf (textContent firstChild) SEARCH_CANCELLED_MESSAGE
          | [] => -1
          end in
  when (showingCancelled || forceHideMessages || negb (searchOnType w))
       (on_messagesElement dom_hide) ;;
  call Call.dom_show_resultsElement ;;
  modify (set_currentSelectedFileMatch None).

Definition clearSearchResults (w : World) : M unit :=
  call Call.searchResult_clear ;;
  showEmptyStage w true ;;
  when (WorkbenchState_eqb (getWorkbenchState w) EMPTY) showSearchWithoutFolderMessage ;;
  call Call.searchWidget_clear ;;
  call Call.viewModel_cancelSearch ;;
  updateActions ;;
  call (Call.aria_status
          (localize "ariaSearchResultsClearStatus" "The search results have been cleared" [])).

(** [renderBody], as far as these fields go: it creates the element for the
    messages and, in a workbench without a folder, shows the message of the
    missing folder in it. *)
Definition renderBody (w : World) : M unit :=
  modify (set_messagesElement {| display_none := false; childNodes := [] |}) ;;
  when (WorkbenchState_eqb (getWorkbenchState w) EMPTY) showSearchWithoutFolderMessage.

Definition buildResultCountMessage (resultCount fileCount : Z) : string :=
  if (resultCount =? 1) && (fileCount =? 1) then
    localize "search.file.result" "{0} result in {1} file" [num resultCount; num fileCount]
  else if resultCount =? 1 then
    localize "search.files.result" "{0} result in {1} files" [num resultCount; num fileCount]
  else if fileCount =? 1 then
    localize "search.file.results" "{0} results in {1} file" [num resultCount; num fileCount]
  else
    localize "search.files.results" "{0} results in {1} files" [num resultCount; num fileCount].

Definition updateSearchResultCount (w : World) (disregardExcludesAndIgnores : bool) : M unit :=
  let fileCount := SearchResult.fileCount (searchResult w) in
  call (Call.hasSearchResultsKey_set (0 <? fileCount)) ;;
  v <- get ;;
  let msgWasHidden := display_none (messagesElement v) in
  if 0 <? fileCount then
    clearMessage ;;
    let resultMsg := buildResultCountMessage (SearchResult.count (searchResult w)) fileCount in
    let resultMsg :=
      if disregardExcludesAndIgnores then
        (resultMsg ++ localize "useIgnoresAndExcludesDisabled"
                        " - exclude settings and ignore files are disabled" [])%string
      else resultMsg in
    on_messagesElement (dom_append 1 (dollar "p" resultMsg)) ;;
    call Call.reLayout
  else
    when (negb msgWasHidden) (on_messagesElement dom_hide).

(** The argument of [createIterator]. *)
Inductive IteratorSource :=
| FromSearchResult
| FromFolderMatch (folderMatch : FolderMatch.t)
| FromFileMatch (fileMatch : FileMatch.t).

Definition createIterator (w : World) (m : IteratorSource)
    (collapseResults : CollapseResults) : list ITreeElement :=
  match m with
  | FromSearchResult =>
    createResultIterator searchMatchComparer (getNode w)
      (SearchResult.folderMatches (searchResult w)) collapseResults
  | FromFolderMatch folderMatch =>
    createFolderIterator searchMatchComparer (getNode w) folderMatch collapseResults
  | FromFileMatch fileMatch => createFileIterator searchMatchComparer fileMatch
  end.

Definition refreshTree (w : World) (event : option IChangeEvent) : M unit :=
  let collapseResults := collapseResults w in
  match event with
  | Some e =>
    if added e || removed e then
      call (Call.tree_setChildren None
              (createResultIterator searchMatchComparer (getNode w)
                 (SearchResult.folderMatches (searchResult w)) collapseResults))
    else
      forEach (elements e) (fun element =>
        call (Call.tree_setChildren (Some (File element))
                (createIterator w (FromFileMatch element) collapseResults)) ;;
        call (Call.tree_rerender (File element)))
  | None =>
    call (Call.tree_setChildren None
            (createResultIterator searchMatchComparer (getNode w)
               (SearchResult.folderMatches (searchResult w)) collapseResults))
  end.

Definition refreshAndUpdateCount (w : World) (event : option IChangeEvent) : M unit :=
  call (Call.searchWidget_setReplaceAllActionState
          (negb (SearchResult.isEmpty (searchResult w)))) ;;
  updateSearchResultCount w
    (userDisabledExcludesAndIgnoreFiles (SearchResult.query (searchResult w))) ;;
  refreshTree w event.

Definition onSearchResultsChanged (w : World) (event : option IChangeEvent) : M unit :=
  if isVisible w then refreshAndUpdateCount w event
  else modify (set_changedWhileHidden true).

Definition onVisibilityChanged (w : World) (visible : bool) : M unit :=
  call (Call.viewletVisible_set visible) ;;
  when visible
    (v <- get ;;
     when (changedWhileHidden v)
       (refreshAndUpdateCount w None ;;
        modify (set_changedWhileHidden false))) ;;
  call (Call.searchResult_toggleHighlights visible).

(** *** Submitting a query *)

Definition onQueryValidationError (err : Error) : M unit :=
  call (Call.searchInput_showMessage (message err) ERROR) ;;
  call Call.searchResult_clear.

(** [validateQuery]. The call asks the file service whether the folder of
    each folder query exists and returns a promise: that much is
    [validateQuery] here. The promise settles once [Promise.all] of the
    answers has: with the answers, in the order of the calls,
    [validateQuery_then] is the callback chained on it, which assigns
    [query.folderQueries] of the object it was given (the query returned
    here) or rejects; with the error of the answer that rejected first, the
    promise rejects with that error, since nothing is chained on
    [Promise.all] to handle it. A promise rejects with an error ([inl]) or
    resolves ([inr]). *)
Definition validateQuery (query : ITextQuery) : M unit :=
  forEach (folderQueries query) (fun fq => call (Call.fileService_exists (folder fq))).

Definition validateQuery_then (query : ITextQuery) (existResults : list bool)
    : Error + ITextQuery :=
  let existingFolderQueries :=
    JS.filteri (fun folderQuery i =>
                  match JS.index existResults i with
                  | Some b => b
                  | None => false
                  end)
               (folderQueries query) in
  if (JS.alength (folderQueries query) =? 0)
     || negb (JS.alength existingFolderQueries =? 0) then
    inr (set_folderQueries query existingFolderQueries)
  else
    match JS.index (folderQueries query) 0 with
    | Some first =>
      let nonExistantPath := fsPath (folder first) in
      let searchPathNotFoundError :=
        localize "searchPathNotFoundError" "Search path not found: {0}"
                 [str nonExistantPath] in
      inl {| name := "Error"; message := searchPathNotFoundError |}
    | None =>
      inl {| name := "TypeError";
             message := "Cannot read property 'folder' of undefined" |}
    end.

Definition validateQuery_settled (query : ITextQuery) (folderQueriesExist : Error + list bool)
    : Error + ITextQuery :=
  match folderQueriesExist with
  | inr existResults => validateQuery_then query existResults
  | inl err => inl err
  end.

Definition onQueryTriggered (query : ITextQuery) (options : ITextQueryBuilderOptions)
    (excludePatternText includePatternText : string) (triggeredOnType : bool) : M unit :=
  call Call.addToSearchHistoryDelayer_trigger ;;
  call Call.inputPatternExcludes_onSearchSubmit ;;
  call Call.inputPatternIncludes_onSearchSubmit ;;
  call Call.viewModel_cancelSearch ;;
  modify (fun v =>
    set_currentSearchQ
      (currentSearchQ v ++
       [{| queued_query := query; queued_options := options;
           queued_excludePatternText := excludePatternText;
           queued_includePatternText := includePatternText;
           queued_triggeredOnType := triggeredOnType |}]) v).

(** The [content] and the [options] [onQueryChanged] builds. *)
Definition content_of (w : World) : IPatternInfo :=
  {| pattern := getValue w;
     isRegExp := getRegex w;
     isCaseSensitive := getCaseSensitive w;
     isWordMatch := getWholeWords w |}.

Definition options_of (w : World) : ITextQueryBuilderOptions :=
  let content := content_of w in
  let excludePattern := excludes_getValue w in
  let includePattern := includes_getValue w in
  let charsPerLine := if isRegExp content then 10000 else 250 in
  {| _reason := "searchView";
     extraFileResources := getOutOfWorkspaceEditorResources w;
     maxResults := MAX_TEXT_RESULTS;
     disregardIgnoreFiles :=
       if negb (useExcludesAndIgnoreFiles w) then Some true else None;
     disregardExcludeSettings :=
       if negb (useExcludesAndIgnoreFiles w) then Some true else None;
     excludePattern := excludePattern;
     includePattern := includePattern;
     previewOptions := {| matchLines := 1; charsPerLine := charsPerLine |};
     isSmartCase := smartCase w;
     expandPatterns := true |}.

(** [onQueryChanged], up to the call of [validateQuery]: the promise it
    returns has not settled when [onQueryChanged] returns, and waits with the
    locals the two callbacks chained on it use. *)
Definition onQueryChanged (w : World) (preserveFocus triggeredOnType : bool) : M unit :=
  if negb (isInputValid w) then ret tt
  else
    let contentPattern := getValue w in
    let excludePatternText := JS.trim (excludes_getValue w) in
    let includePatternText := JS.trim (includes_getValue w) in
    if JS.length contentPattern =? 0 then
      clearSearchResults w ;;
      clearMessage
    else
      let content := content_of w in
      let options := options_of w in
      let folderResources := workspace_folders w in
      call (Call.queryBuilder_text content (map uri folderResources) options) ;;
      match text w content (map uri folderResources) options with
      | inl err => onQueryValidationError err
      | inr query =>
        validateQuery query ;;
        modify (fun v =>
          set_validating
            (validating v ++
             [{| validating_query := query; validating_options := options;
                 validating_excludePatternText := excludePatternText;
                 validating_includePatternText := includePatternText;
                 validating_triggeredOnType := triggeredOnType;
                 validating_preserveFocus := preserveFocus |}]) v)
      end.

(** The two callbacks that [onQueryChanged] chains on the promise of
    [validateQuery], run when the promise has settled. *)
Definition onQueryChanged_then (p : Validating) (validated : Error + ITextQuery) : M unit :=
  match validated with
  | inr query =>
    onQueryTriggered query (validating_options p) (validating_excludePatternText p)
                     (validating_includePatternText p) (validating_triggeredOnType p) ;;
    when (negb (validating_preserveFocus p)) (call (Call.searchWidget_focus false))
  | inl err => onQueryValidationError err
  end.

(** *** Running a search *)

Definition on_timeouts (f : list Timer -> list Timer) : M unit :=
  modify (fun v => set_timeouts (f (timeouts v)) v).

(** [doSearch], up to the call of [this.viewModel.search(query)]; the
    callbacks it installs follow. *)
Definition doSearch (w : World) (q : QueuedSearch) : M unit :=
  call (Call.progressService_withProgress (if queued_triggeredOnType q then 300 else 0)) ;;
  call Call.searchInput_clearMessage ;;
  modify (set_state Searching) ;;
  showEmptyStage w false ;;
  call (Call.setTimeout 2000) ;;
  v <- get ;;
  let slowTimer := List.length (timeouts v) in
  on_timeouts (fun timers => timers ++ [Pending (now w + 2000)]) ;;
  modify (set_running
            (Some {| excludePatternText := queued_excludePatternText q;
                     includePatternText := queued_includePatternText q;
                     slowTimer := slowTimer |})) ;;
  call (Call.setInterval 100) ;;
  modify (fun v =>
    set_uiRefreshHandles
      (uiRefreshHandles v ++ [{| visibleMatches := 0; updatedActionsForFileCount := false |}])
      v) ;;
  call (Call.searchWidget_setReplaceAllActionState false) ;;
  call (Call.viewModel_search (queued_query q)).

(** The callback of [slowTimer]. *)
Definition slowTimer_callback : M unit :=
  modify (set_state SlowSearch) ;;
  updateActions.

Definition onComplete (w : World) (r : RunningSearch)
    (completed : option ISearchComplete) : M unit :=
  call Call.clearTimeout ;;
  on_timeouts (clearTimeout (slowTimer r)) ;;
  modify (set_state Idle) ;;
  call Call.progressComplete ;;
  onSearchResultsChanged w None ;;
  let collapseResults := collapseResults w in
  when (negb (CollapseResults_eqb collapseResults alwaysCollapse)
        && (JS.alength (SearchResult.matches (searchResult w)) =? 1))
    match JS.index (SearchResult.matches (searchResult w)) 0 with
    | Some onlyMatch =>
      when (FileMatch.count onlyMatch <? 50) (call (Call.tree_expand (File onlyMatch)))
    | None => ret tt
    end ;;
  call (Call.viewModel_set_replaceString (getReplaceValue w)) ;;
  updateActions ;;
  let hasResults := negb (SearchResult.isEmpty (searchResult w)) in
  when (match completed with Some c => limitHit c | None => false end)
    (call (Call.searchInput_showMessage
             (localize "searchMaxResultsWarning"
                "The result set only contains a subset of all matches. Please be more specific in your search to narrow down the results." [])
             WARNING)) ;;
  if negb hasResults then
    let hasExcludes := JS.truthy (excludePatternText r) in
    let hasIncludes := JS.truthy (includePatternText r) in
    let message :=
      match completed with
      | None => SEARCH_CANCELLED_MESSAGE
      | Some _ =>
        if hasIncludes && hasExcludes then
          localize "noResultsIncludesExcludes" "No results found in '{0}' excluding '{1}' - "
                   [str (includePatternText r); str (excludePatternText r)]
        else if hasIncludes then
          localize "noResultsIncludes" "No results found in '{0}' - "
                   [str (includePatternText r)]
        else if hasExcludes then
          localize "noResultsExcludes" "No results found excluding '{0}' - "
                   [str (excludePatternText r)]
        else
          localize "noResultsFound"
            "No results found. Review your settings for configured exclusions and check your gitignore files - " []
      end in
    call (Call.aria_status message) ;;
    clearMessage ;;
    on_messagesElement (dom_append 1 (dollar "p" message)) ;;
    match completed with
    | None =>
      on_messagesElement (dom_append 2
        (dollar "a.pointer.prominent" (localize "rerunSearch.message" "Search again" []))) ;;
      modify (fun v => set_messageDisposables (messageDisposables v ++ [SearchAgain]) v)
    | Some _ =>
      if hasIncludes || hasExcludes then
        on_messagesElement (dom_append 2
          (dollar "a.pointer.prominent"
             (localize "rerunSearchInAll.message" "Search again in all files" []))) ;;
        modify (fun v =>
          set_messageDisposables (messageDisposables v ++ [SearchAgainInAllFiles]) v)
      else
        on_messagesElement (dom_append 2
          (dollar "a.pointer.prominent" (localize "openSettings.message" "Open Settings" []))) ;;
        modify (fun v =>
          set_messageDisposables (messageDisposables v ++ [OpenSettings; OpenSettings]) v)
    end ;;
    when (match completed with Some _ => true | None => false end)
      (on_messagesElement (dom_append 2 (dollar "span" " - ")) ;;
       on_messagesElement (dom_append 2
         (dollar "a.pointer.prominent" (localize "openSettings.learnMore" "Learn More" []))) ;;
       modify (fun v =>
         set_messageDisposables (messageDisposables v ++ [LearnMore; LearnMore]) v)) ;;
    when (WorkbenchState_eqb (getWorkbenchState w) EMPTY) showSearchWithoutFolderMessage ;;
    call Call.reLayout
  else
    call (Call.searchResult_toggleHighlights (isVisible w)) ;;
    call (Call.aria_status
            (localize "ariaSearchResultsStatus" "Search returned {0} results in {1} files"
               [num (SearchResult.count (searchResult w));
                num (SearchResult.fileCount (searchResult w))])).

Definition onError (w : World) (r : RunningSearch) (e : Error) : M unit :=
  call Call.clearTimeout ;;
  on_timeouts (clearTimeout (slowTimer r)) ;;
  modify (set_state Idle) ;;
  if isPromiseCanceledError e then onComplete w r None
  else
    updateActions ;;
    call Call.progressComplete ;;
    call (Call.searchInput_showMessage (message e) ERROR) ;;
    call Call.searchResult_clear.

(** The callback of [setInterval], on the locals of its [doSearch] call; it
    answers [None] when it clears its own interval. *)
Definition uiRefresh_callback (w : World) (h : UiRefresh) : M (option UiRefresh) :=
  v <- get ;;
  if SearchUIState_eqb (state v) Idle then
    call Call.clearInterval ;;
    ret None
  else
    let fileCount := SearchResult.fileCount (searchResult w) in
    when (negb (visibleMatches h =? fileCount)) (refreshAndUpdateCount w None) ;;
    let visibleMatches' :=
      if negb (visibleMatches h =? fileCount) then fileCount else visibleMatches h in
    if (0 <? fileCount) && negb (updatedActionsForFileCount h) then
      updateActions ;;
      ret (Some {| visibleMatches := visibleMatches';
                   updatedActionsForFileCount := true |})
    else
      ret (Some {| visibleMatches := visibleMatches';
                   updatedActionsForFileCount := updatedActionsForFileCount h |}).

(** *** Opening a result *)

Definition getSelectionFrom (w : World) (element : FileMatchOrMatch) : option IRange :=
  let m : option Match.t :=
    match element with
    | OfMatch e => Some e
    | OfFile _ => None
    end in
  let m : option Match.t :=
    match element with
    | OfFile e =>
      if 0 <? FileMatch.count e then
        JS.index (FileMatch.matches e) (JS.alength (FileMatch.matches e) - 1)
      else m
    | OfMatch _ => m
    end in
  match m with
  | Some m =>
    let range := Match.range m in
    if isReplaceActive w && JS.truthy (replaceString w) then
      let replaceString := Match.replaceString m in
      Some {| startLineNumber := startLineNumber range;
              startColumn := startColumn range;
              endLineNumber := startLineNumber range;
              endColumn := startColumn range + JS.length replaceString |}
    else Some range
  | None => None
  end.

Definition is_true (b : option bool) : bool :=
  match b with Some true => true | _ => false end.

(** [open]; [opened] is how the promise of [openEditor] settles: rejected
    with an error, or resolved with an editor ([true]) or with nothing. *)
Definition open (w : World) (element : FileMatchOrMatch)
    (preserveFocus sideBySide pinned : option bool) (opened : Error + bool) : M unit :=
  let selection := getSelectionFrom w element in
  let resource :=
    match element with
    | OfMatch m => Match.parent_resource m
    | OfFile f => FileMatch.resource f
    end in
  call (Call.editorService_openEditor resource preserveFocus pinned selection true
          (if is_true sideBySide then SIDE_GROUP else ACTIVE_GROUP)) ;;
  match opened with
  | inr editor =>
    match element with
    | OfMatch m =>
      if editor && is_true preserveFocus then call (Call.highlightRange (Match.range m))
      else call Call.removeHighlightRange
    | OfFile _ => call Call.removeHighlightRange
    end
  | inl e => call (Call.onUnexpectedError e)
  end.

(** *** The event loop

    What can happen to a view, one turn at a time. A turn is enabled or not:
    a [validateQuery] promise settles when it has not yet, and as
    [Promise.all] can settle: resolved with as many answers as folders were
    asked for, or rejected when at least one was; the next [doSearch] chained
    on [currentSearchQ] starts when the one before has settled; a timer fires
    when it is pending and due; a search settles when one is running. *)

Inductive Event :=
| QueryChanged (preserveFocus triggeredOnType : bool)
| FolderQueriesExist_settle (validation : nat) (folderQueriesExist : Error + list bool)
| SearchQ_continues
| SlowTimer_fires (handle : nat)
| UiRefresh_fires (handle : nat)
| Search_resolves (completed : ISearchComplete)
| Search_rejects (e : Error)
| SearchResult_onChange (event : IChangeEvent)
| BodyVisibility_changes (visible : bool).

Definition run_turn (m : M unit) (v : SearchView) : option (SearchView * list Call.t) :=
  Some (view_after m v, calls_of m v).

Fixpoint replace_nth {A : Type} (n : nat) (x : option A) (l : list A) : list A :=
  match l, n with
  | [], _ => []
  | y :: l', O => match x with Some x' => x' :: l' | None => l' end
  | y :: l', S n' => y :: replace_nth n' x l'
  end.

(** Whether [Promise.all] over the answers about the folders of [query] can
    settle this way. *)
Definition can_settle (query : ITextQuery) (folderQueriesExist : Error + list bool) : bool :=
  match folderQueriesExist with
  | inr existResults => (List.length existResults =? List.length (folderQueries query))%nat
  | inl _ => negb (List.length (folderQueries query) =? 0)%nat
  end.

Definition dispatch (w : World) (ev : Event) (v : SearchView)
    : option (SearchView * list Call.t) :=
  match ev with
  | QueryChanged preserveFocus triggeredOnType =>
    run_turn (onQueryChanged w preserveFocus triggeredOnType) v
  | FolderQueriesExist_settle validation folderQueriesExist =>
    match nth_error (validating v) validation with
    | Some p =>
      if can_settle (validating_query p) folderQueriesExist then
        run_turn
          (modify (fun v => set_validating (replace_nth validation None (validating v)) v) ;;
           onQueryChanged_then p
             (validateQuery_settled (validating_query p) folderQueriesExist)) v
      else None
    | None => None
    end
  | SearchQ_continues =>
    match running v, currentSearchQ v with
    | None, q :: rest => run_turn (modify (set_currentSearchQ rest) ;; doSearch w q) v
    | _, _ => None
    end
  | SlowTimer_fires handle =>
    match nth_error (timeouts v) handle with
    | Some (Pending due) =>
      if due <=? now w then run_turn (on_timeouts (fire handle) ;; slowTimer_callback) v
      else None
    | _ => None
    end
  | UiRefresh_fires handle =>
    match nth_error (uiRefreshHandles v) handle with
    | Some h =>
      run_turn (h' <- uiRefresh_callback w h ;;
                modify (fun v => set_uiRefreshHandles
                                   (replace_nth handle h' (uiRefreshHandles v)) v)) v
    | None => None
    end
  | Search_resolves completed =>
    match running v with
    | Some r => run_turn (onComplete w r (Some completed) ;; modify (set_running None)) v
    | None => None
    end
  | Search_rejects e =>
    match running v with
    | Some r => run_turn (onError w r e ;; modify (set_running None)) v
    | None => None
    end
  | SearchResult_onChange event => run_turn (onSearchResultsChanged w (Some event)) v
  | BodyVisibility_changes visible => run_turn (onVisibilityChanged w visible) v
  end.

(** A run: turns in order, the clock never going back. [run] answers the
    view and the calls of all turns, or [None] at a turn that is not
    enabled. *)
Fixpoint run (clock : Z) (turns : list (World * Event)) (v : SearchView)
    : option (SearchView * Z * list Call.t) :=
  match turns with
  | [] => Some (v, clock, [])
  | (w, ev) :: rest =>
    if clock <=? now w then
      match dispatch w ev v with
      | Some (v', calls) =>
        match run (now w) rest v' with
        | Some (v'', clock', calls') => Some (v'', clock', calls ++ calls')
        | None => None
        end
      | None => None
      end
    else None
  end.

(** The view once [renderBody] has run in a new view, in the world of that
    time: the view every run starts from. *)
Definition rendered (w : World) : SearchView := view_after (renderBody w) new_SearchView.

End SearchView.

(** ** The explorer's file commands *)

Module FileCommands.

(** How an awaited promise settles. *)
Inductive Settled := Resolved | Rejected (error : Error).

(** [IEditorInput] and [IEditorIdentifier], with what the commands ask. *)
Record IEditorInput := { isUntitled : bool; getName : string }.
Record IEditorIdentifier := { groupId : Z; editor : IEditorInput }.

(** Calls to the services the commands take from the accessor. *)
Inductive ServiceCall :=
| clipboardService_writeText (text : string)
| notificationService_info (message : string)
| notificationService_error (message : string)
| editorService_revert (editors : list IEditorIdentifier) (force : bool).

Section Commands.

(** [nls.localize], [toErrorMessage] and [labelService.getUriLabel(resource,
    { relative, noPrefix })]. *)
Variable localize : string -> string -> list LocalizeArg -> string.
Variable toErrorMessage : Error -> bool -> string.
Variable getUriLabel : URI -> bool -> bool -> string.

(** [isWindows] of the platform. *)
Variable isWindows : bool.

(** [clipboardService.writeText(text)] and [editorService.revert(editors,
    options)] settle as the services decide. *)
Variable writeText : string -> Settled.
Variable revert : list IEditorIdentifier -> bool -> Settled.

Definition CRLF : string := String (ascii_of_nat 13) (String (ascii_of_nat 10) EmptyString).
Definition LF : string := String (ascii_of_nat 10) EmptyString.

(** An async function: the calls it makes and how its promise settles. *)
Definition resourcesToClipboard (resources : list URI) (relative : bool)
    : list ServiceCall * Settled :=
  if negb (JS.alength resources =? 0) then
    let lineDelimiter := if isWindows then CRLF else LF in
    let text :=
      JS.join lineDelimiter
        (map (fun resource => getUriLabel resource relative true) resources) in
    ([clipboardService_writeText text], writeText text)
  else
    ([notificationService_info
        (localize "openFileToCopy" "Open a file first to copy its path" [])],
     Resolved).

(** The handlers of [COPY_PATH_COMMAND_ID] and [COPY_RELATIVE_PATH_COMMAND_ID],
    on the array [getMultiSelectedResources] returns. *)
Definition copyFilePath (getMultiSelectedResources : list URI) : list ServiceCall * Settled :=
  let resources := getMultiSelectedResources in
  resourcesToClipboard resources false.

Definition copyRelativeFilePath (getMultiSelectedResources : list URI)
    : list ServiceCall * Settled :=
  let resources := getMultiSelectedResources in
  resourcesToClipboard resources true.

(** The handler of [REVERT_FILE_COMMAND_ID], on the array
    [getMultiSelectedEditors] returns. *)
Definition revertFile (getMultiSelectedEditors : list IEditorIdentifier)
    : list ServiceCall * Settled :=
  let editors :=
    filter (fun e => negb (isUntitled (editor e))) getMultiSelectedEditors in
  match revert editors true with
  | Resolved => ([editorService_revert editors true], Resolved)
  | Rejected error =>
    ([editorService_revert editors true;
      notificationService_error
        (localize "genericRevertError" "Failed to revert '{0}': {1}"
           [str (JS.join ", " (map (fun e => getName (editor e)) editors));
            str (toErrorMessage error false)])],
     Resolved)
  end.

End Commands.

End FileCommands.

(** ** What a tree shows *)

Module Rendered.

(** What a tree shows: its elements and how they nest. *)
#[local] Unset Elimination Schemes.
Inductive t := node (e : RenderableMatch) (kids : list t).
#[local] Set Elimination Schemes.

Fixpoint render (x : ITreeElement) : t :=
  match x with
  | Build_ITreeElement e c _ =>
    node e match c with
           | Some l => map render l
           | None => []
           end
  end.

(** The tree the search result model calls for: the non-empty folder matches
    in the order of the comparer, under each its file matches in that order,
    under each of those its line matches in that order; the file matches of
    the only non-empty folder match, when there is exactly one, at the top. *)
Section FromModel.
Variable searchMatchComparer : RenderableMatch -> RenderableMatch -> Z.

Definition byFolder (a b : FolderMatch.t) : Z := searchMatchComparer (Folder a) (Folder b).
Definition byFile (a b : FileMatch.t) : Z := searchMatchComparer (File a) (File b).
Definition byLine (a b : Match.t) : Z := searchMatchComparer (Line a) (Line b).

Definition lines (f : FileMatch.t) : list t :=
  map (fun m => node (Line m) []) (JS.sort byLine (FileMatch.matches f)).

Definition files (fo : FolderMatch.t) : list t :=
  map (fun f => node (File f) (lines f)) (JS.sort byFile (FolderMatch.matches fo)).

Definition folders (nonEmpty : list FolderMatch.t) : list t :=
  map (fun fo => node (Folder fo) (files fo)) (JS.sort byFolder nonEmpty).

Definition tree (folderMatches : list FolderMatch.t) : list t :=
  match filter (fun fm => negb (FolderMatch.isEmpty fm)) folderMatches with
  | [only] => files only
  | nonEmpty => folders nonEmpty
  end.

End FromModel.

End Rendered.

(** ** [String.prototype.substring] *)

Module JSString.

(** [s.substring(start, end)]: both indexes are clamped to [0 .. s.length],
    a missing [end] is [s.length], and the two are swapped when [start] is
    the greater. *)
Definition clamp (n len : Z) : Z := Z.min (Z.max n 0) len.

Definition substring (s : string) (start : Z) (end_ : option Z) : string :=
  let len := JS.length s in
  let a := clamp start len in
  let b := match end_ with Some e => clamp e len | None => len end in
  String.substring (Z.to_nat (Z.min a b)) (Z.to_nat (Z.max a b - Z.min a b)) s.

End JSString.

(** ** The editor the search text is seeded from *)

Record IPosition := { lineNumber : Z; column : Z }.

(** A [Selection]: its range, and what [isEmpty()] and [getStartPosition()]
    answer. *)
Record Selection := {
  selection_range : IRange;
  isEmpty : bool;
  getStartPosition : IPosition
}.

Record ITextModel := {
  getLineContent : Z -> string;
  getWordAtPosition : IPosition -> option string   (* the [word] of the answer *)
}.

Record ICodeEditor := {
  hasTextFocus : bool;
  getModel : option ITextModel;                    (* [hasModel()] is [getModel() !== null] *)
  getSelection : option Selection
}.

(** [editorService.activeTextEditorWidget], by what [isDiffEditor] and
    [isCodeEditor] answer on it. *)
Inductive TextEditorWidget :=
| NoWidget
| CodeEditor (editor : ICodeEditor)
| DiffEditor (getOriginalEditor getModifiedEditor : ICodeEditor).

Record EditorWorld := {
  activeEditor : bool;                             (* [!!editorService.activeEditor] *)
  activeElement_in_container : bool;
  activeTextEditorWidget : TextEditorWidget
}.

Section SearchText.

(** The [for] loop of [getSearchTextFromEditor], with [n] lines to go from
    line [i]. *)
Fixpoint selectedLines (model : ITextModel) (range : IRange) (n : nat) (i : Z)
    (searchText : string) : string :=
  match n with
  | O => searchText
  | S n' =>
    let lineText := getLineContent model i in
    let lineText :=
      if i =? endLineNumber range
      then JSString.substring lineText 0 (Some (endColumn range - 1)) else lineText in
    let lineText :=
      if i =? startLineNumber range
      then JSString.substring lineText (startColumn range - 1) None else lineText in
    let lineText :=
      if negb (i =? startLineNumber range)
      then (String (ascii_of_nat 10) lineText) else lineText in
    selectedLines model range n' (i + 1) (searchText ++ lineText)
  end.

Definition getSearchTextFromEditor (w : World) (e : EditorWorld) (allowUnselectedWord : bool)
    : option string :=
  if negb (activeEditor e) then None
  else if activeElement_in_container e then None
  else
    let activeTextEditorWidget :=
      match activeTextEditorWidget e with
      | DiffEditor original modified =>
        if hasTextFocus original then CodeEditor original else CodeEditor modified
      | other => other
      end in
    match activeTextEditorWidget with
    | CodeEditor editor =>
      match getModel editor with
      | None => None
      | Some model =>
        match getSelection editor with
        | None => None
        | Some selection =>
          let range := selection_range selection in
          let word :=
            if isEmpty selection && negb (JS.truthy (getValue w)) && allowUnselectedWord
            then getWordAtPosition model (getStartPosition selection) else None in
          match word with
          | Some wordAtPosition => Some wordAtPosition
          | None =>
            if negb (isEmpty selection) then
              Some (selectedLines model range
                      (Z.to_nat (endLineNumber range - startLineNumber range + 1))
                      (startLineNumber range) "")
            else None
          end
        end
      end
    | _ => None
    end.

End SearchText.

(** ** The memento of the view

    [this.viewletState] is an object used as a map from keys to values; the
    view stores booleans, strings and arrays of strings in it. *)

Inductive JSValue :=
| JUndefined
| JBoolean (b : bool)
| JString (s : string)
| JStrings (a : list string).

Module Value.

(** [!!x] *)
Definition truthy (x : JSValue) : bool :=
  match x with
  | JUndefined => false
  | JBoolean b => b
  | JString s => JS.truthy s
  | JStrings _ => true
  end.

(** [x || y] *)
Definition or (x y : JSValue) : JSValue := if truthy x then x else y.

(** [x === true] *)
Definition is_true (x : JSValue) : bool :=
  match x with JBoolean true => true | _ => false end.

(** [x !== ''] *)
Definition not_empty_string (x : JSValue) : bool :=
  match x with JString EmptyString => false | _ => true end.

(** [typeof x === 'boolean' ? x : d] *)
Definition boolean_or (x : JSValue) (d : bool) : bool :=
  match x with JBoolean b => b | _ => d end.

End Value.

Definition MementoObject : Type := list (string * JSValue).

Module Memento.

(** [o[key]] *)
Fixpoint get (key : string) (o : MementoObject) : JSValue :=
  match o with
  | [] => JUndefined
  | (k, x) :: o' => if String.eqb k key then x else get key o'
  end.

(** [o[key] = x]: a key the object has keeps its place. *)
Fixpoint set (key : string) (x : JSValue) (o : MementoObject) : MementoObject :=
  match o with
  | [] => [(key, x)]
  | (k, y) :: o' => if String.eqb k key then (k, x) :: o' else (k, y) :: set key x o'
  end.

End Memento.

(** ** The query details and the sizes of the view *)

Record Dimension := { width : Z; height : Z }.

Record DetailsView := {
  viewletState : MementoObject;
  queryDetails_more : bool;        (* [dom.hasClass(this.queryDetails, 'more')] *)
  aria_expanded : option string;   (* of [toggleQueryDetailsButton] *)
  size : option Dimension
}.

Module UICall.
Inductive t :=
| inputPatternIncludes_focus
| inputPatternIncludes_select
| inputPatternIncludes_setValue (value : string)
| inputPatternExcludes_focus
| inputPatternExcludes_select
| searchWidget_focus (args : list bool)
| layout (height : Z)
| searchHistoryService_save (search replace exclude include : option (list string))
| super_saveState.
End UICall.

Section Details.

(** [resources.relativePath] and [contextService.getWorkspaceFolder] *)
Variable relativePath : URI -> URI -> option string.
Variable getWorkspaceFolder : URI -> option IWorkspaceFolder.


Definition toggleQueryDetails (moveFocus : bool) (show skipLayout reverse : option bool)
    (s : DetailsView) : DetailsView * list UICall.t :=
  let show := match show with None => negb (queryDetails_more s) | Some b => b end in
  let viewletState := Memento.set "query.queryDetailsExpanded" (JBoolean show) (viewletState s) in
  let skipLayout := match skipLayout with Some b => b | None => false end in
  let reverse := match reverse with Some b => b | None => false end in
  let s' := {| viewletState := viewletState;
               queryDetails_more := show;
               aria_expanded := Some (if show then "true" else "false");
               size := size s |} in
  let focus :=
    if show then
      if moveFocus then
        if reverse
        then [UICall.inputPatternExcludes_focus; UICall.inputPatternExcludes_select]
        else [UICall.inputPatternIncludes_focus; UICall.inputPatternIncludes_select]
      else []
    else if moveFocus then [UICall.searchWidget_focus []] else [] in
  (s', focus ++ match size s with
                | Some size => if negb skipLayout then [UICall.layout (height size)] else []
                | None => []
                end).




End Details.

(** ** Saving the view and restoring it *)

(** What [saveState] asks beyond the answers of [World]. *)
Record SaveWorld := {
  viewModel_preserveCase : bool;
  isReplaceShown : bool;
  getSearchHistory : list string;
  getReplaceHistory : list string;
  excludes_getHistory : list string;
  includes_getHistory : list string
}.

(** [ISearchHistoryValues] *)
Record ISearchHistoryValues := {
  history_search : option (list string);
  history_replace : option (list string);
  history_exclude : option (list string);
  history_include : option (list string)
}.

Definition nonEmpty (history : list string) : option (list string) :=
  if 0 <? JS.alength history then Some history else None.

Definition saveState (w : World) (x : SaveWorld) (viewletState : MementoObject)
    : MementoObject * list UICall.t :=
  let isRegex := getRegex w in
  let isWholeWords := getWholeWords w in
  let isCaseSensitive := getCaseSensitive w in
  let contentPattern := getValue w in
  let patternExcludes := JS.trim (excludes_getValue w) in
  let patternIncludes := JS.trim (includes_getValue w) in
  let useExcludesAndIgnoreFiles := useExcludesAndIgnoreFiles w in
  let preserveCase := viewModel_preserveCase x in
  let viewletState := Memento.set "query.contentPattern" (JString contentPattern) viewletState in
  let viewletState := Memento.set "query.regex" (JBoolean isRegex) viewletState in
  let viewletState := Memento.set "query.wholeWords" (JBoolean isWholeWords) viewletState in
  let viewletState := Memento.set "query.caseSensitive" (JBoolean isCaseSensitive) viewletState in
  let viewletState := Memento.set "query.folderExclusions" (JString patternExcludes) viewletState in
  let viewletState := Memento.set "query.folderIncludes" (JString patternIncludes) viewletState in
  let viewletState :=
    Memento.set "query.useExcludesAndIgnoreFiles" (JBoolean useExcludesAndIgnoreFiles)
                viewletState in
  let viewletState := Memento.set "query.preserveCase" (JBoolean preserveCase) viewletState in
  let isReplaceShown := isReplaceShown x in
  let viewletState := Memento.set "view.showReplace" (JBoolean isReplaceShown) viewletState in
  let viewletState :=
    Memento.set "query.replaceText"
                (if isReplaceShown then JString (getReplaceValue w) else JBoolean false)
                viewletState in
  (viewletState,
   [UICall.searchHistoryService_save
      (nonEmpty (getSearchHistory x)) (nonEmpty (getReplaceHistory x))
      (nonEmpty (excludes_getHistory x)) (nonEmpty (includes_getHistory x));
    UICall.super_saveState]).

(** [ISearchWidgetOptions], as [createSearchWidget] fills it. *)
Module ISearchWidgetOptions.
Record t := {
  value : JSValue;
  replaceValue : JSValue;
  isRegex : bool;
  isCaseSensitive : bool;
  isWholeWords : bool;
  searchHistory : JSValue;
  replaceHistory : JSValue;
  preserveCase : bool
}.
End ISearchWidgetOptions.

Definition history_value (h : option (list string)) : JSValue :=
  match h with Some a => JStrings a | None => JUndefined end.

(** The constants [createSearchWidget] reads from [viewletState] and from the
    loaded history, and the options it makes the widget with. *)
Module CreateSearchWidget.

Definition options (viewletState : MementoObject) (history : ISearchHistoryValues)
    : ISearchWidgetOptions.t :=
  let contentPattern :=
    Value.or (Memento.get "query.contentPattern" viewletState) (JString "") in
  let replaceText := Value.or (Memento.get "query.replaceText" viewletState) (JString "") in
  let isRegex := Value.is_true (Memento.get "query.regex" viewletState) in
  let isWholeWords := Value.is_true (Memento.get "query.wholeWords" viewletState) in
  let isCaseSensitive := Value.is_true (Memento.get "query.caseSensitive" viewletState) in
  let searchHistory :=
    Value.or (Value.or (history_value (history_search history))
                       (Memento.get "query.searchHistory" viewletState))
             (JStrings []) in
  let replaceHistory :=
    Value.or (Value.or (history_value (history_replace history))
                       (Memento.get "query.replaceHistory" viewletState))
             (JStrings []) in
  let preserveCase := Value.is_true (Memento.get "query.preserveCase" viewletState) in
  {| ISearchWidgetOptions.value := contentPattern;
     ISearchWidgetOptions.replaceValue := replaceText;
     ISearchWidgetOptions.isRegex := isRegex;
     ISearchWidgetOptions.isCaseSensitive := isCaseSensitive;
     ISearchWidgetOptions.isWholeWords := isWholeWords;
     ISearchWidgetOptions.searchHistory := searchHistory;
     ISearchWidgetOptions.replaceHistory := replaceHistory;
     ISearchWidgetOptions.preserveCase := preserveCase |}.

Definition showReplace (viewletState : MementoObject) : bool :=
  Value.boolean_or (Memento.get "view.showReplace" viewletState) true.

End CreateSearchWidget.

(** The constants [renderBody] reads from [viewletState], and whether it
    shows the query details. *)
Module RenderBody.

Definition filePatterns (viewletState : MementoObject) : JSValue :=
  Value.or (Memento.get "query.filePatterns" viewletState) (JString "").
Definition patternExclusions (viewletState : MementoObject) : JSValue :=
  Value.or (Memento.get "query.folderExclusions" viewletState) (JString "").
Definition patternIncludes (viewletState : MementoObject) : JSValue :=
  Value.or (Memento.get "query.folderIncludes" viewletState) (JString "").
Definition queryDetailsExpanded (viewletState : MementoObject) : JSValue :=
  Value.or (Memento.get "query.queryDetailsExpanded" viewletState) (JString "").
Definition useExcludesAndIgnoreFiles (viewletState : MementoObject) : bool :=
  Value.boolean_or (Memento.get "query.useExcludesAndIgnoreFiles" viewletState) true.

Definition showsDetails (viewletState : MementoObject) : bool :=
  Value.not_empty_string (filePatterns viewletState)
  || Value.not_empty_string (patternExclusions viewletState)
  || Value.not_empty_string (patternIncludes viewletState)
  || Value.not_empty_string (queryDetailsExpanded viewletState)
  || negb (useExcludesAndIgnoreFiles viewletState).

End RenderBody.

(** ** Replace all *)

Module ReplaceCall.
Inductive t :=
| progressService_withProgress (delay total : Z)
| dialogService_confirm (title message primaryButton type : string)
| searchWidget_setReplaceAllActionState (enabled : bool)
| searchResult_replaceAll
| progressComplete
| notificationService_error (error : Error).
End ReplaceCall.

Section ReplaceAll.
Variable localize : string -> string -> list LocalizeArg -> string.

(** [buildAfterReplaceAllMessage] and [buildReplaceAllConfirmationMessage];
    [replaceAll] hands them a string as [replaceValue]. *)
Definition buildAfterReplaceAllMessage (occurrences fileCount : Z)
    (replaceValue : string) : string :=
  if occurrences =? 1 then
    if fileCount =? 1 then
      if JS.truthy replaceValue then
        localize "replaceAll.occurrence.file.message"
                 "Replaced {0} occurrence across {1} file with '{2}'."
                 [num occurrences; num fileCount; str replaceValue]
      else
        localize "removeAll.occurrence.file.message"
                 "Replaced {0} occurrence across {1} file." [num occurrences; num fileCount]
    else if JS.truthy replaceValue then
      localize "replaceAll.occurrence.files.message"
               "Replaced {0} occurrence across {1} files with '{2}'."
               [num occurrences; num fileCount; str replaceValue]
    else
      localize "removeAll.occurrence.files.message"
               "Replaced {0} occurrence across {1} files." [num occurrences; num fileCount]
  else if fileCount =? 1 then
    if JS.truthy replaceValue then
      localize "replaceAll.occurrences.file.message"
               "Replaced {0} occurrences across {1} file with '{2}'."
               [num occurrences; num fileCount; str replaceValue]
    else
      localize "removeAll.occurrences.file.message"
               "Replaced {0} occurrences across {1} file." [num occurrences; num fileCount]
  else if JS.truthy replaceValue then
    localize "replaceAll.occurrences.files.message"
             "Replaced {0} occurrences across {1} files with '{2}'."
             [num occurrences; num fileCount; str replaceValue]
  else
    localize "removeAll.occurrences.files.message"
             "Replaced {0} occurrences across {1} files." [num occurrences; num fileCount].

Definition buildReplaceAllConfirmationMessage (occurrences fileCount : Z)
    (replaceValue : string) : string :=
  if occurrences =? 1 then
    if fileCount =? 1 then
      if JS.truthy replaceValue then
        localize "removeAll.occurrence.file.confirmation.message"
                 "Replace {0} occurrence across {1} file with '{2}'?"
                 [num occurrences; num fileCount; str replaceValue]
      else
        localize "replaceAll.occurrence.file.confirmation.message"
                 "Replace {0} occurrence across {1} file?" [num occurrences; num fileCount]
    else if JS.truthy replaceValue then
      localize "removeAll.occurrence.files.confirmation.message"
               "Replace {0} occurrence across {1} files with '{2}'?"
               [num occurrences; num fileCount; str replaceValue]
    else
      localize "replaceAll.occurrence.files.confirmation.message"
               "Replace {0} occurrence across {1} files?" [num occurrences; num fileCount]
  else if fileCount =? 1 then
    if JS.truthy replaceValue then
      localize "removeAll.occurrences.file.confirmation.message"
               "Replace {0} occurrences across {1} file with '{2}'?"
               [num occurrences; num fileCount; str replaceValue]
    else
      localize "replaceAll.occurrences.file.confirmation.message"
               "Replace {0} occurrences across {1} file?" [num occurrences; num fileCount]
  else if JS.truthy replaceValue then
    localize "removeAll.occurrences.files.confirmation.message"
             "Replace {0} occurrences across {1} files with '{2}'?"
             [num occurrences; num fileCount; str replaceValue]
  else
    localize "replaceAll.occurrences.files.confirmation.message"
             "Replace {0} occurrences across {1} files?" [num occurrences; num fileCount].

(** [replaceAll], up to the dialog it opens. *)
Definition replaceAll (w : World) : list ReplaceCall.t :=
  if SearchResult.count (searchResult w) =? 0 then []
  else
    let occurrences := SearchResult.count (searchResult w) in
    let fileCount := SearchResult.fileCount (searchResult w) in
    let replaceValue := getReplaceValue w in
    [ReplaceCall.progressService_withProgress 100 occurrences;
     ReplaceCall.dialogService_confirm
       (localize "replaceAll.confirmation.title" "Replace All" [])
       (buildReplaceAllConfirmationMessage occurrences fileCount replaceValue)
       (localize "replaceAll.confirm.button" "&&Replace" [])
       "question"].

(** The message [replaceAll] keeps for when the replace is done. *)
Definition afterReplaceAllMessage (w : World) : string :=
  buildAfterReplaceAllMessage (SearchResult.count (searchResult w))
    (SearchResult.fileCount (searchResult w)) (getReplaceValue w).

(** The callback of the dialog. *)
Definition replaceAll_answered (confirmed : bool) : list ReplaceCall.t :=
  if confirmed then
    [ReplaceCall.searchWidget_setReplaceAllActionState false; ReplaceCall.searchResult_replaceAll]
  else [].

(** The callbacks of [searchResult.replaceAll]. *)
Definition replaceAll_settled (afterReplaceAllMessage : string)
    (replaced : FileCommands.Settled) (v : SearchView) : SearchView * list ReplaceCall.t :=
  match replaced with
  | FileCommands.Resolved =>
    (view_after (clearMessage ;;
                 on_messagesElement (dom_append 1 (dollar "p" afterReplaceAllMessage))) v,
     [ReplaceCall.progressComplete])
  | FileCommands.Rejected error =>
    (v, [ReplaceCall.progressComplete; ReplaceCall.notificationService_error error])
  end.

(** A request to replace all, the answer to its dialog, and how the replace
    settles; [v] is the view when it settles. *)
Definition replaceAll_run (w : World) (confirmed : bool) (replaced : FileCommands.Settled)
    (v : SearchView) : SearchView * list ReplaceCall.t :=
  match replaceAll w with
  | [] => (v, [])
  | asked =>
    if confirmed then
      let '(v', settled) := replaceAll_settled (afterReplaceAllMessage w) replaced v in
      (v', asked ++ replaceAll_answered true ++ settled)
    else (v, asked ++ replaceAll_answered false)
  end.

End ReplaceAll.

(** ** Open to the side *)

Module OpenToSide.

Record IFileStat := { resource : URI; isDirectory : bool }.
Record IResolveFileResult := { stat : option IFileStat; success : bool }.

Inductive ServiceCall :=
| fileService_resolveAll (toResolve : list URI)
| editorService_openEditors (editors : list URI) (group : EditorGroup).

Section Handler.

(** [Schemas.untitled] *)
Variable Schemas_untitled : string.

(** What [fileService.resolveAll] resolves with. *)
Variable resolveAll : list URI -> list IResolveFileResult.

(** The handler of [OPEN_TO_SIDE_COMMAND_ID], on what
    [getMultiSelectedResources] returns. The filter of [resolved] leaves
    results with a [stat] only. *)
Definition handler (getMultiSelectedResources : list URI) : list ServiceCall :=
  let resources := getMultiSelectedResources in
  if negb (JS.alength resources =? 0) then
    let untitledResources :=
      filter (fun resource => String.eqb (scheme resource) Schemas_untitled) resources in
    let fileResources :=
      filter (fun resource => negb (String.eqb (scheme resource) Schemas_untitled))
             resources in
    let resolved := resolveAll fileResources in
    let editors :=
      flat_map (fun r => match stat r with Some s => [resource s] | None => [] end)
               (filter (fun r => match stat r with
                                 | Some s => success r && negb (isDirectory s)
                                 | None => false
                                 end)
                       resolved)
      ++ untitledResources in
    [fileService_resolveAll fileResources; editorService_openEditors editors SIDE_GROUP]
  else [].

End Handler.

End OpenToSide.

(** ** Save *)

Module Save.

(** An editor input, with what [isDirty()] and [getName()] answer. *)
Record IEditorInput := { isDirty : bool; getName : string }.
Record IEditorIdentifier := { groupId : Z; editor : IEditorInput }.

(** A group, with what [getEditors(EditorsOrder.MOST_RECENTLY_ACTIVE)] answers. *)
Record IEditorGroup := { id : Z; getEditors : list IEditorInput }.

Inductive SaveReason := EXPLICIT.

Record ISaveEditorsOptions := {
  reason : option SaveReason;
  force : option bool;
  skipSaveParticipants : option bool;
  saveAs : option bool
}.

Inductive ServiceCall :=
| editorService_save (editors : list IEditorIdentifier) (options : ISaveEditorsOptions)
| notificationService_error (message : string).

Section Commands.
Variable localize : string -> string -> list LocalizeArg -> string.
Variable toErrorMessage : Error -> bool -> string.

(** How [editorService.save] settles. *)
Variable save : list IEditorIdentifier -> ISaveEditorsOptions -> FileCommands.Settled.

Definition doSaveEditors (editors : list IEditorIdentifier) (options : ISaveEditorsOptions)
    : list ServiceCall * FileCommands.Settled :=
  match save editors options with
  | FileCommands.Resolved => ([editorService_save editors options], FileCommands.Resolved)
  | FileCommands.Rejected error =>
    ([editorService_save editors options;
      notificationService_error
        (localize "genericSaveError" "Failed to save '{0}': {1}"
           [str (JS.join ", " (map (fun e => getName (editor e)) editors));
            str (toErrorMessage error false)])],
     FileCommands.Resolved)
  end.

(** The two [for] loops of [saveDirtyEditorsOfGroups]. *)
Fixpoint pushDirty (group : IEditorGroup) (editors : list IEditorInput)
    (saveableEditors : list IEditorIdentifier) : list IEditorIdentifier :=
  match editors with
  | [] => saveableEditors
  | editor :: rest =>
    if isDirty editor
    then pushDirty group rest (saveableEditors ++ [{| groupId := id group; editor := editor |}])
    else pushDirty group rest saveableEditors
  end.

Fixpoint pushGroups (groups : list IEditorGroup) (saveableEditors : list IEditorIdentifier)
    : list IEditorIdentifier :=
  match groups with
  | [] => saveableEditors
  | group :: rest => pushGroups rest (pushDirty group (getEditors group) saveableEditors)
  end.

Definition saveDirtyEditorsOfGroups (groups : list IEditorGroup)
    (options : ISaveEditorsOptions) : list ServiceCall * FileCommands.Settled :=
  doSaveEditors (pushGroups groups []) options.

Definition saveSelectedEditors (getMultiSelectedEditors : list IEditorIdentifier)
    (options : ISaveEditorsOptions) : list ServiceCall * FileCommands.Settled :=
  doSaveEditors getMultiSelectedEditors options.

(** The handlers of [SAVE_FILE_COMMAND_ID],
    [SAVE_FILE_WITHOUT_FORMATTING_COMMAND_ID], [SAVE_FILE_AS_COMMAND_ID] and
    [SAVE_ALL_COMMAND_ID]. *)
Definition saveFile (getMultiSelectedEditors : list IEditorIdentifier) :=
  saveSelectedEditors getMultiSelectedEditors
    {| reason := Some EXPLICIT; force := Some true; skipSaveParticipants := None;
       saveAs := None |}.

Definition saveFileWithoutFormatting (getMultiSelectedEditors : list IEditorIdentifier) :=
  saveSelectedEditors getMultiSelectedEditors
    {| reason := Some EXPLICIT; force := Some true; skipSaveParticipants := Some true;
       saveAs := None |}.

Definition saveFileAs (getMultiSelectedEditors : list IEditorIdentifier) :=
  saveSelectedEditors getMultiSelectedEditors
    {| reason := Some EXPLICIT; force := None; skipSaveParticipants := None;
       saveAs := Some true |}.

Definition saveAll (getGroups : list IEditorGroup) :=
  saveDirtyEditorsOfGroups getGroups
    {| reason := Some EXPLICIT; force := None; skipSaveParticipants := None;
       saveAs := None |}.

End Commands.

End Save.

(** ** Compare *)

Module Compare.

(** The module's [globalResourceToCompare] and
    [resourceSelectedForCompareContext]: not bound yet, or bound and set. *)
Record Globals := {
  globalResourceToCompare : option URI;
  resourceSelectedForCompareContext : option bool
}.

Definition loaded : Globals :=
  {| globalResourceToCompare := None; resourceSelectedForCompareContext := None |}.

Inductive ServiceCall :=
| ResourceSelectedForCompareContext_bindTo
| resourceSelectedForCompareContext_set (value : bool)
| editorService_openEditor (leftResource rightResource : URI).

(** The handler of [SELECT_FOR_COMPARE_COMMAND_ID], on what
    [getResourceForCommand] returns. *)
Definition selectForCompare (getResourceForCommand : option URI) (g : Globals)
    : Globals * list ServiceCall :=
  ({| globalResourceToCompare := getResourceForCommand;
      resourceSelectedForCompareContext := Some true |},
   match resourceSelectedForCompareContext g with
   | None => [ResourceSelectedForCompareContext_bindTo]
   | Some _ => []
   end ++ [resourceSelectedForCompareContext_set true]).

(** The handler of [COMPARE_SELECTED_COMMAND_ID], on what
    [getMultiSelectedResources] returns. *)
Definition compareSelected (getMultiSelectedResources : list URI) : list ServiceCall :=
  let resources := getMultiSelectedResources in
  if JS.alength resources =? 2 then
    match JS.index resources 0, JS.index resources 1 with
    | Some leftResource, Some rightResource =>
      [editorService_openEditor leftResource rightResource]
    | _, _ => []
    end
  else [].

(** The handler of [COMPARE_RESOURCE_COMMAND_ID]. *)
Definition compareFiles (getResourceForCommand : option URI) (g : Globals)
    : list ServiceCall :=
  match globalResourceToCompare g, getResourceForCommand with
  | Some leftResource, Some rightResource =>
    [editorService_openEditor leftResource rightResource]
  | _, _ => []
  end.

Inductive Command :=
| SelectForCompare (resource : option URI)
| CompareSelected (resources : list URI)
| CompareFiles (resource : option URI).

Definition execute (c : Command) (g : Globals) : Globals * list ServiceCall :=
  match c with
  | SelectForCompare resource => selectForCompare resource g
  | CompareSelected resources => (g, compareSelected resources)
  | CompareFiles resource => (g, compareFiles resource g)
  end.

Fixpoint run (commands : list Command) (g : Globals) : Globals * list ServiceCall :=
  match commands with
  | [] => (g, [])
  | c :: rest =>
    let '(g1, calls1) := execute c g in
    let '(g2, calls2) := run rest g1 in
    (g2, calls1 ++ calls2)
  end.

End Compare.

(** ** Compare with saved *)

Module CompareWithSaved.

Inductive IDisposable := provider | registration | listener.

(** A call of the handler that awaits [TextFileContentProvider.open], with
    its [registerEditorListener]. *)
Record Awaiting := { registerEditorListener : bool }.

Record Globals := {
  providerDisposables : list IDisposable;
  awaiting : list Awaiting
}.

Definition loaded : Globals := {| providerDisposables := []; awaiting := [] |}.

Inductive ServiceCall :=
| createInstance_TextFileContentProvider
| registerTextModelContentProvider (scheme : string)
| TextFileContentProvider_open (resource : URI) (scheme label : string)
| onDidVisibleEditorsChange
| dispose (disposables : list IDisposable).

Section Handler.
Variable localize : string -> string -> list LocalizeArg -> string.

(** [resources.basename] and [fileService.canHandleResource] *)
Variable basename : URI -> string.
Variable canHandleResource : URI -> bool.

Definition COMPARE_WITH_SAVED_SCHEMA : string := "showModifications".

(** The handler, up to its [await], on what [getResourceForCommand]
    returns. *)
Definition handler (getResourceForCommand : option URI) (g : Globals)
    : Globals * list ServiceCall :=
  let registerEditorListener := JS.alength (providerDisposables g) =? 0 in
  let providerDisposables :=
    if registerEditorListener then providerDisposables g ++ [provider; registration]
    else providerDisposables g in
  let registered :=
    if registerEditorListener
    then [createInstance_TextFileContentProvider;
          registerTextModelContentProvider COMPARE_WITH_SAVED_SCHEMA]
    else [] in
  match getResourceForCommand with
  | Some uri =>
    if canHandleResource uri then
      let name := basename uri in
      let editorLabel :=
        localize "modifiedLabel" "{0} (in file) ↔ {1}" [str name; str name] in
      ({| providerDisposables := providerDisposables;
          awaiting := awaiting g ++ [{| registerEditorListener := registerEditorListener |}] |},
       registered ++ [TextFileContentProvider_open uri COMPARE_WITH_SAVED_SCHEMA editorLabel])
    else ({| providerDisposables := providerDisposables; awaiting := awaiting g |}, registered)
  | None => ({| providerDisposables := providerDisposables; awaiting := awaiting g |}, registered)
  end.

(** The handler after its [await]: the [try] block goes on, or the [catch]
    block runs. *)
Definition opened (a : Awaiting) (settled : FileCommands.Settled) (g : Globals)
    : Globals * list ServiceCall :=
  match settled with
  | FileCommands.Resolved =>
    if registerEditorListener a then
      ({| providerDisposables := providerDisposables g ++ [listener];
          awaiting := awaiting g |},
       [onDidVisibleEditorsChange])
    else (g, [])
  | FileCommands.Rejected _ =>
    ({| providerDisposables := []; awaiting := awaiting g |},
     [dispose (providerDisposables g)])
  end.

(** The listener of [onDidVisibleEditorsChange], on whether some editor
    shows a resource of the scheme. *)
Definition visibleEditorsChanged (someEditorOfScheme : bool) (g : Globals)
    : Globals * list ServiceCall :=
  if negb someEditorOfScheme then
    ({| providerDisposables := []; awaiting := awaiting g |},
     [dispose (providerDisposables g)])
  else (g, []).

Inductive Event :=
| Invoked (getResourceForCommand : option URI)
| Open_settles (call : nat) (settled : FileCommands.Settled)
| VisibleEditors_change (someEditorOfScheme : bool).

Fixpoint remove_nth {A : Type} (n : nat) (l : list A) : list A :=
  match l, n with
  | [], _ => []
  | _ :: l', O => l'
  | x :: l', S n' => x :: remove_nth n' l'
  end.

(** A turn: the listener runs only while it is registered and not
    disposed. *)
Definition dispatch (ev : Event) (g : Globals) : option (Globals * list ServiceCall) :=
  match ev with
  | Invoked resource => Some (handler resource g)
  | Open_settles call settled =>
    match nth_error (awaiting g) call with
    | Some a =>
      Some (opened a settled
              {| providerDisposables := providerDisposables g;
                 awaiting := remove_nth call (awaiting g) |})
    | None => None
    end
  | VisibleEditors_change someEditorOfScheme =>
    if existsb (fun d => match d with listener => true | _ => false end)
               (providerDisposables g)
    then Some (visibleEditorsChanged someEditorOfScheme g)
    else Some (g, [])
  end.

Fixpoint run (events : list Event) (g : Globals) : option (Globals * list ServiceCall) :=
  match events with
  | [] => Some (g, [])
  | ev :: rest =>
    match dispatch ev g with
    | Some (g1, calls1) =>
      match run rest g1 with
      | Some (g2, calls2) => Some (g2, calls1 ++ calls2)
      | None => None
      end
    | None => None
    end
  end.

End Handler.

End CompareWithSaved.

(** ** A workspace to run the view in

    One folder, [/work]; a query builder that refuses an unbalanced
    parenthesis in a regular expression and otherwise copies the pattern, the
    folders and the options into the query; two files with matches. *)

Module Example.

(** Messages in English: [{0}] to [{9}] stand for the arguments. *)
Definition arg_text (a : LocalizeArg) : string :=
  match a with
  | str s => s
  | num n => NilZero.string_of_int (Z.to_int n)
  end.

Fixpoint format (message : string) (args : list string) : string :=
  match message with
  | String "{" (String d (String "}" rest)) =>
    match (if (48 <=? nat_of_ascii d)%nat then nth_error args (nat_of_ascii d - 48)
           else None) with
    | Some a => (a ++ format rest args)%string
    | None => String "{" (String d (String "}" (format rest args)))
    end
  | String c rest => String c (format rest args)
  | EmptyString => EmptyString
  end.

Definition localize (key message : string) (args : list LocalizeArg) : string :=
  format message (map arg_text args).

(** Folder matches by the length of their id, file matches by their count,
    line matches by the line they start on. *)
Definition searchMatchComparer (a b : RenderableMatch) : Z :=
  match a, b with
  | Folder x, Folder y => JS.length (FolderMatch.id x) - JS.length (FolderMatch.id y)
  | File x, File y => FileMatch.count x - FileMatch.count y
  | Line x, Line y =>
    startLineNumber (Match.range x) - startLineNumber (Match.range y)
  | _, _ => 0
  end.

Definition isPromiseCanceledError (e : Error) : bool :=
  String.eqb (name e) "Canceled" && String.eqb (message e) "Canceled".

Definition work : URI := {| scheme := "file"; fsPath := "/work" |}.
Definition gone : URI := {| scheme := "file"; fsPath := "/gone" |}.
Definition a_ts : URI := {| scheme := "file"; fsPath := "/work/a.ts" |}.
Definition b_ts : URI := {| scheme := "file"; fsPath := "/work/b.ts" |}.

Definition line3 : Match.t :=
  {| Match.id := "a.ts>3"; Match.replaceString := "bar"; Match.parent_resource := a_ts;
     Match.range := {| startLineNumber := 3; startColumn := 1;
                       endLineNumber := 3; endColumn := 4 |} |}.

Definition line1 : Match.t :=
  {| Match.id := "a.ts>1"; Match.replaceString := "barbar"; Match.parent_resource := a_ts;
     Match.range := {| startLineNumber := 1; startColumn := 5;
                       endLineNumber := 1; endColumn := 8 |} |}.

Definition line7 : Match.t :=
  {| Match.id := "b.ts>7"; Match.replaceString := "bar"; Match.parent_resource := b_ts;
     Match.range := {| startLineNumber := 7; startColumn := 2;
                       endLineNumber := 7; endColumn := 5 |} |}.

Definition file_a : FileMatch.t :=
  {| FileMatch.id := "a.ts"; FileMatch.resource := a_ts; FileMatch.count := 2;
     FileMatch.matches := [line3; line1] |}.

Definition file_b : FileMatch.t :=
  {| FileMatch.id := "b.ts"; FileMatch.resource := b_ts; FileMatch.count := 1;
     FileMatch.matches := [line7] |}.

Definition folder_work : FolderMatch.t :=
  {| FolderMatch.id := "work"; FolderMatch.isEmpty := false;
     FolderMatch.matches := [file_a; file_b] |}.

Definition folder_other : FolderMatch.t :=
  {| FolderMatch.id := "other files"; FolderMatch.isEmpty := true;
     FolderMatch.matches := [] |}.

Definition build (content : IPatternInfo) (folders : list URI)
    (options : ITextQueryBuilderOptions) : Error + ITextQuery :=
  if isRegExp content && String.eqb (pattern content) "(" then
    inl {| name := "SyntaxError"; message := "Unterminated group" |}
  else
    inr {| contentPattern := content;
           folderQueries := map (fun u => {| folder := u |}) folders;
           query_maxResults := Some (maxResults options);
           query_previewOptions := Some (previewOptions options);
           userDisabledExcludesAndIgnoreFiles :=
             is_true (disregardExcludeSettings options)
             && is_true (disregardIgnoreFiles options) |}.

Definition found : SearchResult.t :=
  {| SearchResult.isEmpty := false;
     SearchResult.query :=
       {| contentPattern := {| pattern := "foo"; isRegExp := false;
                               isCaseSensitive := false; isWordMatch := false |};
          folderQueries := [{| folder := work |}];
          query_maxResults := Some 10000;
          query_previewOptions := Some {| matchLines := 1; charsPerLine := 250 |};
          userDisabledExcludesAndIgnoreFiles := false |};
     SearchResult.fileCount := 2;
     SearchResult.count := 3;
     SearchResult.folderMatches := [folder_other; folder_work];
     SearchResult.matches := [file_a; file_b] |}.

(** The world at time [t], with [value] in the search input, valid or not,
    and the view visible or not. *)
Definition world_with (visible : bool) (t : Z) (value : string) (valid regex : bool)
    : World :=
  {| isInputValid := valid; getRegex := regex; getWholeWords := false;
     getCaseSensitive := true; getValue := value;
     getReplaceValue := "bar"; excludes_getValue := " *.min.js "; includes_getValue := "";
     useExcludesAndIgnoreFiles := true;
     smartCase := false; searchOnType := true; collapseResults := auto;
     getWorkbenchState := FOLDER;
     workspace_folders := [{| uri := work; folder_name := "work" |}];
     getOutOfWorkspaceEditorResources := [];
     text := build;
     now := t;
     isVisible := visible;
     getNode := fun _ => false;
     searchResult := found;
     isReplaceActive := true;
     replaceString := "bar" |}.

Definition world : Z -> string -> bool -> bool -> World := world_with true.

(** Submit "foo"; the file service answers that [/work] exists; the chained
    [doSearch] starts; 2.5 s later the slow timer fires; the search
    resolves. *)
Definition slow_search : list (World * Event) :=
  [(world 0 "foo" true false, QueryChanged false false);
   (world 1 "foo" true false, FolderQueriesExist_settle 0 (inr [true]));
   (world 1 "foo" true false, SearchQ_continues);
   (world 2500 "foo" true false, SlowTimer_fires 0)].

Definition slow_search_done : list (World * Event) :=
  slow_search ++ [(world 3000 "foo" true false, Search_resolves {| limitHit := false |})].

(** The services of the file commands: labels are paths, relative ones
    without the leading slash; writing to the clipboard succeeds; reverting
    fails. *)
Definition getUriLabel (resource : URI) (relative noPrefix : bool) : string :=
  if relative then
    match fsPath resource with
    | String _ rest => rest
    | EmptyString => EmptyString
    end
  else fsPath resource.

Definition toErrorMessage (e : Error) (verbose : bool) : string := message e.

Definition writeText (text : string) : FileCommands.Settled := FileCommands.Resolved.

Definition revert (editors : list FileCommands.IEditorIdentifier) (force : bool)
    : FileCommands.Settled :=
  FileCommands.Rejected {| name := "Error"; message := "disk is gone" |}.

Definition untitled_1 : FileCommands.IEditorIdentifier :=
  {| FileCommands.groupId := 0;
     FileCommands.editor := {| FileCommands.isUntitled := true;
                               FileCommands.getName := "Untitled-1" |} |}.

Definition editor_a : FileCommands.IEditorIdentifier :=
  {| FileCommands.groupId := 0;
     FileCommands.editor := {| FileCommands.isUntitled := false;
                               FileCommands.getName := "a.ts" |} |}.

Definition editor_b : FileCommands.IEditorIdentifier :=
  {| FileCommands.groupId := 1;
     FileCommands.editor := {| FileCommands.isUntitled := false;
                               FileCommands.getName := "b.ts" |} |}.

(** A query on the folder that exists and on one that is gone. *)
Definition query_on (folders : list URI) : ITextQuery :=
  {| contentPattern := {| pattern := "foo"; isRegExp := false;
                          isCaseSensitive := false; isWordMatch := false |};
     folderQueries := map (fun u => {| folder := u |}) folders;
     query_maxResults := Some 10000;
     query_previewOptions := Some {| matchLines := 1; charsPerLine := 250 |};
     userDisabledExcludesAndIgnoreFiles := false |}.

Definition change : IChangeEvent :=
  {| elements := [file_a]; added := true; removed := false |}.

(** Two submissions before a search starts, "foo" and then "bar"; the file
    service answers for "bar" first. The search for "bar" starts and
    resolves, then the search for "foo" starts. *)
Definition two_searches : list (World * Event) :=
  [(world 0 "foo" true false, QueryChanged false false);
   (world 1 "bar" true false, QueryChanged false false);
   (world 2 "bar" true false, FolderQueriesExist_settle 1 (inr [true]));
   (world 3 "bar" true false, FolderQueriesExist_settle 0 (inr [true]));
   (world 4 "bar" true false, SearchQ_continues);
   (world 900 "bar" true false, Search_resolves {| limitHit := false |});
   (world 901 "bar" true false, SearchQ_continues)].

(** The world of a search that found nothing. *)
Definition no_result : SearchResult.t :=
  {| SearchResult.isEmpty := true;
     SearchResult.query := SearchResult.query found;
     SearchResult.fileCount := 0;
     SearchResult.count := 0;
     SearchResult.folderMatches := [folder_other];
     SearchResult.matches := [] |}.

Definition nothing_found (t : Z) : World :=
  let w := world t "foo" true false in
  {| isInputValid := isInputValid w; getRegex := getRegex w;
     getWholeWords := getWholeWords w; getCaseSensitive := getCaseSensitive w;
     getValue := getValue w; getReplaceValue := getReplaceValue w;
     excludes_getValue := excludes_getValue w; includes_getValue := includes_getValue w;
     useExcludesAndIgnoreFiles := useExcludesAndIgnoreFiles w;
     smartCase := smartCase w; searchOnType := searchOnType w;
     collapseResults := collapseResults w; getWorkbenchState := getWorkbenchState w;
     workspace_folders := workspace_folders w;
     getOutOfWorkspaceEditorResources := getOutOfWorkspaceEditorResources w;
     text := text w; now := now w; isVisible := isVisible w;
     getNode := getNode w; searchResult := no_result;
     isReplaceActive := isReplaceActive w; replaceString := replaceString w |}.

Definition searching : RunningSearch :=
  {| excludePatternText := "*.min.js"; includePatternText := "";
     slowTimer := 0 |}.

(** An editor on three lines, with the selection from line 1, column 5 to
    line 2, column 8. *)
Definition source_lines : list string := ["let foo = 1;"; "let bar = foo;"; "done"].

Definition model_of (lines : list string) : ITextModel :=
  {| getLineContent := fun i => nth (Z.to_nat (i - 1)) lines "";
     getWordAtPosition := fun _ => None |}.

Definition selected : Selection :=
  {| selection_range := {| startLineNumber := 1; startColumn := 5;
                           endLineNumber := 2; endColumn := 8 |};
     isEmpty := false;
     getStartPosition := {| lineNumber := 1; column := 5 |} |}.

Definition editing : EditorWorld :=
  {| activeEditor := true;
     activeElement_in_container := false;
     activeTextEditorWidget :=
       CodeEditor {| hasTextFocus := true;
                     getModel := Some (model_of source_lines);
                     getSelection := Some selected |} |}.



Definition src_dir : URI := {| scheme := "file"; fsPath := "/work/src" |}.


(** A file service for which [/work/src] is a directory and [/gone] does not
    resolve. *)
Definition resolved (resource : URI) : OpenToSide.IResolveFileResult :=
  {| OpenToSide.stat :=
       Some {| OpenToSide.resource := resource;
               OpenToSide.isDirectory := String.eqb (fsPath resource) "/work/src" |};
     OpenToSide.success := negb (String.eqb (fsPath resource) "/gone") |}.

Definition resolveAll (toResolve : list URI) : list OpenToSide.IResolveFileResult :=
  map resolved toResolve.

Definition untitled_doc : URI := {| scheme := "untitled"; fsPath := "Untitled-1" |}.

(** Compare with saved, twice at once: the second call's [open] fails while
    the first call still waits, then the first call's [open] resolves. *)
Definition basename (resource : URI) : string := fsPath resource.

Definition overlapping : list CompareWithSaved.Event :=
  [CompareWithSaved.Invoked (Some a_ts);
   CompareWithSaved.Invoked (Some b_ts);
   CompareWithSaved.Open_settles 1
     (FileCommands.Rejected {| name := "Error"; message := "disk is gone" |});
   CompareWithSaved.Open_settles 0 FileCommands.Resolved].

End Example.

Unset Implicit Arguments.

(** ** The words of the properties *)

Section Vocabulary.
Variable localize : string -> string -> list LocalizeArg -> string.
Variable searchMatchComparer : RenderableMatch -> RenderableMatch -> Z.

(** [ordered a b]: the comparator does not put [a] after [b]. *)
Definition ordered {A : Type} (compareFn : A -> A -> Z) (a b : A) : Prop :=
  compareFn a b <= 0.

(** The folder queries whose folder the file service said exists: those at
    the positions of the answers [true]. *)
Definition existing (existResults : list bool) (query : ITextQuery) : list IFolderQuery :=
  map fst (filter snd (combine (folderQueries query) existResults)).

Definition searchPathNotFound (first : IFolderQuery) : Error :=
  {| name := "Error";
     message := localize "searchPathNotFoundError" "Search path not found: {0}"
                         [str (fsPath (folder first))] |}.

(** The match an opened element stands for: the element itself when it is a
    [Match], the last of [matches()] when it is a [FileMatch] that counts at
    least one match. The array is taken as [matches()] returns it. *)
Definition opened_match (element : FileMatchOrMatch) (m : Match.t) : Prop :=
  match element with
  | OfMatch e => e = m
  | OfFile f => 0 < FileMatch.count f /\ exists before, FileMatch.matches f = before ++ [m]
  end.

(** The fields that carry the life of a search, from the promise that
    validates its query to its timers, and the deferred refresh. *)
Definition core (v : SearchView) :=
  (state v, changedWhileHidden v, validating v, currentSearchQ v, running v, timeouts v,
   uiRefreshHandles v).

(** A method keeps the life of a search when it leaves those fields alone. *)
Definition keeps_core {A : Type} (m : M A) : Prop :=
  forall v, core (view_after m v) = core v.

(** The two calls that build a search request and start a search. *)
Definition builds_or_searches (c : Call.t) : bool :=
  match c with
  | Call.queryBuilder_text _ _ _ => true
  | Call.viewModel_search _ => true
  | _ => false
  end.

(** The calls of [updateActions]. *)
Definition actions_updated : list Call.t :=
  [Call.action_update ClearSearchResultsAction;
   Call.action_update CollapseDeepestExpandedLevelAction;
   Call.action_update RefreshAction;
   Call.action_update CancelSearchAction;
   Call.super_updateActions].

(** A method is quiet when it neither builds a query nor starts a search. *)
Definition quiet {A : Type} (m : M A) : Prop :=
  forall v, Forall (fun c => builds_or_searches c = false) (calls_of m v).

(** What [refreshTree] asks of the tree: all of it anew from the search
    result, or, for a change that neither adds nor removes, the children of
    each changed file match anew and that element rendered again. *)
Definition tree_refresh (w : World) (event : option IChangeEvent) : list Call.t :=
  let whole :=
    [Call.tree_setChildren None
       (createResultIterator searchMatchComparer (getNode w)
          (SearchResult.folderMatches (searchResult w)) (collapseResults w))] in
  match event with
  | None => whole
  | Some e =>
    if added e || removed e then whole
    else flat_map (fun element =>
                     [Call.tree_setChildren (Some (File element))
                        (createFileIterator searchMatchComparer element);
                      Call.tree_rerender (File element)])
                  (elements e)
  end.

(** What [updateSearchResultCount] leaves in the message area: the count of
    results and files when there is a file, and nothing shown otherwise. *)
Definition count_message (w : World) : string :=
  let resultMsg :=
    buildResultCountMessage localize (SearchResult.count (searchResult w))
                            (SearchResult.fileCount (searchResult w)) in
  if userDisabledExcludesAndIgnoreFiles (SearchResult.query (searchResult w)) then
    (resultMsg ++ localize "useIgnoresAndExcludesDisabled"
                    " - exclude settings and ignore files are disabled" [])%string
  else resultMsg.

Definition count_shown (w : World) (before : MessagesElement) : MessagesElement :=
  if 0 <? SearchResult.fileCount (searchResult w) then
    {| display_none := false;
       childNodes := [el ".message" [dollar "p" (count_message w)]] |}
  else dom_hide before.

(** The calls of a refresh with an update of the count: the replace-all
    action follows whether there are results, the context key whether there
    are files, the layout is redone when the count is shown, and the tree is
    refreshed. *)
Definition refresh_and_count (w : World) (event : option IChangeEvent) : list Call.t :=
  Call.searchWidget_setReplaceAllActionState (negb (SearchResult.isEmpty (searchResult w)))
  :: Call.hasSearchResultsKey_set (0 <? SearchResult.fileCount (searchResult w))
  :: (if 0 <? SearchResult.fileCount (searchResult w) then [Call.reLayout] else [])
  ++ tree_refresh w event.

(** The message area once [clearMessage] has run. *)
Definition cleared : MessagesElement :=
  {| display_none := false; childNodes := [el ".message" []] |}.

(** The calls after the call of the query builder, and the view. *)
Definition error_shown (err : Error) : list Call.t :=
  [Call.searchInput_showMessage (message err) ERROR; Call.searchResult_clear].

Definition folders_asked (query : ITextQuery) : list Call.t :=
  map (fun fq => Call.fileService_exists (folder fq)) (folderQueries query).

Definition triggered (preserveFocus : bool) : list Call.t :=
  [Call.addToSearchHistoryDelayer_trigger; Call.inputPatternExcludes_onSearchSubmit;
   Call.inputPatternIncludes_onSearchSubmit; Call.viewModel_cancelSearch]
  ++ (if preserveFocus then [] else [Call.searchWidget_focus false]).

(** The promise a submission in world [w] leaves waiting, for the query the
    builder returned. *)
Definition awaited (w : World) (query : ITextQuery) (preserveFocus triggeredOnType : bool)
    : Validating :=
  {| validating_query := query;
     validating_options := options_of w;
     validating_excludePatternText := JS.trim (excludes_getValue w);
     validating_includePatternText := JS.trim (includes_getValue w);
     validating_triggeredOnType := triggeredOnType;
     validating_preserveFocus := preserveFocus |}.

(** The [doSearch] call queued when the promise [p] has resolved, with the
    query it resolved on. *)
Definition queued (p : Validating) (query : ITextQuery) : QueuedSearch :=
  {| queued_query := query;
     queued_options := validating_options p;
     queued_excludePatternText := validating_excludePatternText p;
     queued_includePatternText := validating_includePatternText p;
     queued_triggeredOnType := validating_triggeredOnType p |}.

(** What [onQueryChanged] does once the query builder has answered. *)
Definition after_builder (w : World) (preserveFocus triggeredOnType : bool)
    (built : Error + ITextQuery) : M unit :=
  match built with
  | inl err => onQueryValidationError err
  | inr query =>
    validateQuery query ;;
    modify (fun v =>
      set_validating (validating v ++ [awaited w query preserveFocus triggeredOnType]) v)
  end.

(** The time at which the last [doSearch] of a run started. *)
Definition search_started (turns : list (World * Event)) : option Z :=
  fold_left (fun started (turn : World * Event) =>
               match snd turn with
               | SearchQ_continues => Some (now (fst turn))
               | _ => started
               end)
            turns None.

(** A timer that can still fire. *)
Definition pending (t : Timer) : bool :=
  match t with Pending _ => true | _ => false end.

(** The life of a search: no search is running, the state is [Idle] and no
    timer is pending; or one is running since [t0], its timer is pending for
    [t0 + 2000] and the state is [Searching]; or its timer has fired, which
    is no sooner than [t0 + 2000], and the state is [SlowSearch]; and no
    timer but that of the running search is pending. *)
Definition lifecycle (started : option Z) (clock : Z) (v : SearchView) : Prop :=
  match running v with
  | None => state v = Idle /\ forallb (fun t => negb (pending t)) (timeouts v) = true
  | Some r =>
    exists t0 older,
      started = Some t0 /\ t0 <= clock
      /\ List.length older = slowTimer r
      /\ forallb (fun t => negb (pending t)) older = true
      /\ (timeouts v = older ++ [Pending (t0 + 2000)] /\ state v = Searching
          \/ timeouts v = older ++ [Fired (t0 + 2000)] /\ state v = SlowSearch
             /\ t0 + 2000 <= clock)
  end.

(** The call of the query builder a submission in world [w] makes. *)
Definition builder_call (w : World) : Call.t :=
  Call.queryBuilder_text (content_of w) (map uri (workspace_folders w)) (options_of w).





End Vocabulary.

(** ** More words, for the properties of the rest of the view and the commands *)

(** How many elements of a list are of the kind [f]. *)
Definition tally {A : Type} (f : A -> bool) (l : list A) : nat :=
  List.length (filter f l).

(** *** The order of searches *)

(** The promise a submission in world [w] leaves waiting, if any. *)
Definition submitted (w : World) (preserveFocus triggeredOnType : bool) : list Validating :=
  if negb (isInputValid w) then []
  else if JS.length (getValue w) =? 0 then []
  else
    match text w (content_of w) (map uri (workspace_folders w)) (options_of w) with
    | inl _ => []
    | inr built => [awaited w built preserveFocus triggeredOnType]
    end.

Section OrderVocabulary.
Variable localize : string -> string -> list LocalizeArg -> string.

(** One turn more: the promises that wait after it, oldest first, and the
    queries of the promises that have resolved, in the order in which they
    resolved. *)
Definition validation_turn (s : list Validating * list ITextQuery) (turn : World * Event)
    : list Validating * list ITextQuery :=
  match snd turn with
  | QueryChanged preserveFocus triggeredOnType =>
    (fst s ++ submitted (fst turn) preserveFocus triggeredOnType, snd s)
  | FolderQueriesExist_settle validation folderQueriesExist =>
    match nth_error (fst s) validation with
    | Some p =>
      (replace_nth validation None (fst s),
       snd s ++ match validateQuery_settled localize (validating_query p)
                        folderQueriesExist with
                | inr query => [query]
                | inl _ => []
                end)
    | None => s
    end
  | _ => s
  end.

Definition validations (turns : list (World * Event))
    : list Validating * list ITextQuery :=
  fold_left validation_turn turns ([], []).

(** The submissions of a run that the file service has not yet answered. *)
Definition unanswered (turns : list (World * Event)) : list Validating :=
  fst (validations turns).

(** The queries of a run whose validation has resolved, in the order in
    which they resolved. *)
Definition validated (turns : list (World * Event)) : list ITextQuery :=
  snd (validations turns).

End OrderVocabulary.

(** The queries handed to [viewModel.search], in order. *)
Definition searches (calls : list Call.t) : list ITextQuery :=
  flat_map (fun c => match c with Call.viewModel_search query => [query] | _ => [] end) calls.

(** *** The progress and the intervals of a search *)

(** A method makes [n] calls of the kind [f], whatever the view. *)
Definition makes {A : Type} (f : Call.t -> bool) (m : M A) (n : nat) : Prop :=
  forall v, tally f (calls_of m v) = n.

Definition starts_progress (c : Call.t) : bool :=
  match c with Call.progressService_withProgress _ => true | _ => false end.

Definition completes_progress (c : Call.t) : bool :=
  match c with Call.progressComplete => true | _ => false end.

Definition sets_interval (c : Call.t) : bool :=
  match c with Call.setInterval _ => true | _ => false end.

Definition clears_interval (c : Call.t) : bool :=
  match c with Call.clearInterval => true | _ => false end.

(** The four kinds of call the balance counts. *)
Definition counted (f : Call.t -> bool) : Prop :=
  f = starts_progress \/ f = completes_progress \/ f = sets_interval \/ f = clears_interval.

(** The progress and the intervals of a view are in balance with its calls:
    a progress is open exactly while a search runs, and the intervals set and
    not cleared are the ones the view holds. *)
Definition balanced (v : SearchView) (calls : list Call.t) : Prop :=
  tally starts_progress calls
  = (tally completes_progress calls
     + match running v with Some _ => 1 | None => 0 end)%nat
  /\ tally sets_interval calls
     = (tally clears_interval calls + List.length (uiRefreshHandles v))%nat.

Section TickVocabulary.
Variable localize : string -> string -> list LocalizeArg -> string.
Variable searchMatchComparer : RenderableMatch -> RenderableMatch -> Z.

(** The calls of one interval of [doSearch] over its ticks, each in the world
    and the view of its turn, until the callback clears the interval. *)
Fixpoint uiRefresh_ticks (ticks : list (World * SearchView)) (h : UiRefresh) : list Call.t :=
  match ticks with
  | [] => []
  | (w, v) :: rest =>
    calls_of (uiRefresh_callback localize searchMatchComparer w h) v
    ++ match result_of (uiRefresh_callback localize searchMatchComparer w h) v with
       | Some h' => uiRefresh_ticks rest h'
       | None => []
       end
  end.

(** The message area after a search was cancelled before it found anything. *)
Definition cancelled_shown : MessagesElement :=
  {| display_none := false;
     childNodes :=
       [el ".message"
          [el "p" [textNode (SEARCH_CANCELLED_MESSAGE localize);
                   dollar "a.pointer.prominent"
                          (localize "rerunSearch.message" "Search again" [])]]] |}.

(** The links that follow the message of a search without results. *)
Definition no_result_links (r : RunningSearch) (completed : option ISearchComplete)
    : list HTMLElement :=
  match completed with
  | None => [dollar "a.pointer.prominent" (localize "rerunSearch.message" "Search again" [])]
  | Some _ =>
    [dollar "a.pointer.prominent"
       (if JS.truthy (includePatternText r) || JS.truthy (excludePatternText r)
        then localize "rerunSearchInAll.message" "Search again in all files" []
        else localize "openSettings.message" "Open Settings" []);
     dollar "span" " - ";
     dollar "a.pointer.prominent" (localize "openSettings.learnMore" "Learn More" [])]
  end.

(** The message area with the message of a workbench without a folder. *)
Definition without_folder_shown : MessagesElement :=
  {| display_none := false;
     childNodes :=
       [el ".message"
          [el "p" [textNode
                     (localize "searchWithoutFolder"
                        "You have not opened or specified a folder. Only open files are currently searched - "
                        []);
                   dollar "a.pointer.prominent" (localize "openFolder" "Open Folder" [])]]] |}.

End TickVocabulary.

Definition is_super_updateActions (c : Call.t) : bool :=
  match c with Call.super_updateActions => true | _ => false end.

(** Whether a tick of the interval finds a file in the search result before
    a tick finds the view idle. *)
Fixpoint sees_file (ticks : list (World * SearchView)) : bool :=
  match ticks with
  | [] => false
  | (w, v) :: rest =>
    if SearchUIState_eqb (state v) Idle then false
    else (0 <? SearchResult.fileCount (searchResult w)) || sees_file rest
  end.

(** The locals of the interval as [doSearch] declares them. *)
Definition new_UiRefresh : UiRefresh :=
  {| visibleMatches := 0; updatedActionsForFileCount := false |}.

(** *** Documents and selections *)

Definition lineFeed : string := String (ascii_of_nat 10) EmptyString.

(** The text of a document whose lines are [lines]. *)
Definition document (lines : list string) : string := JS.join lineFeed lines.

(** The offset in [document lines] of a position. *)
Definition offsetAt (lines : list string) (lineNumber column : Z) : Z :=
  fold_right (fun line acc => JS.length line + 1 + acc) 0
             (firstn (Z.to_nat (lineNumber - 1)) lines)
  + (column - 1).

(** The model holds the lines [lines]. *)
Definition holds (model : ITextModel) (lines : list string) : Prop :=
  forall j, (j < List.length lines)%nat ->
            getLineContent model (Z.of_nat j + 1) = nth j lines "".

(** [range] lies in a document of [lines], its end not before its start. *)
Definition within (lines : list string) (range : IRange) : Prop :=
  1 <= startLineNumber range <= endLineNumber range
  /\ endLineNumber range <= JS.alength lines
  /\ 1 <= startColumn range
     <= JS.length (nth (Z.to_nat (startLineNumber range - 1)) lines "") + 1
  /\ 1 <= endColumn range
     <= JS.length (nth (Z.to_nat (endLineNumber range - 1)) lines "") + 1
  /\ (startLineNumber range = endLineNumber range -> startColumn range <= endColumn range).

(** The editor [getSearchTextFromEditor] reads: the active code editor, or
    the side of the active diff editor that has, or lacks, the text focus. *)
Definition editor_read (e : EditorWorld) : option ICodeEditor :=
  match activeTextEditorWidget e with
  | NoWidget => None
  | CodeEditor editor => Some editor
  | DiffEditor original modified =>
    Some (if hasTextFocus original then original else modified)
  end.

(** What one turn of the loop of [getSearchTextFromEditor] appends. *)
Definition appended (model : ITextModel) (range : IRange) (i : Z) : string :=
  let lineText := getLineContent model i in
  let lineText :=
    if i =? endLineNumber range
    then JSString.substring lineText 0 (Some (endColumn range - 1)) else lineText in
  let lineText :=
    if i =? startLineNumber range
    then JSString.substring lineText (startColumn range - 1) None else lineText in
  if negb (i =? startLineNumber range) then String (ascii_of_nat 10) lineText else lineText.

(** Documents as lists of characters: the characters of the document, the
    offset of the start of line [k], the characters up to column [b] of line
    [k], and those from column [a] of line [s] to column [b] of line [e]
    (lines and columns counted from 0). *)
Definition nl : ascii := ascii_of_nat 10.

Fixpoint flat (ls : list string) : list ascii :=
  match ls with
  | [] => []
  | [L] => list_ascii_of_string L
  | L :: rest => list_ascii_of_string L ++ nl :: flat rest
  end.

Fixpoint off (ls : list string) (k : nat) : nat :=
  match k, ls with
  | S k', L :: rest => String.length L + 1 + off rest k'
  | _, _ => 0
  end.

Fixpoint upto (k b : nat) (ls : list string) : list ascii :=
  match ls with
  | [] => []
  | L :: rest =>
    match k with
    | O => firstn b (list_ascii_of_string L)
    | S k' => list_ascii_of_string L ++ nl :: upto k' b rest
    end
  end.

Fixpoint between (s e a b : nat) (ls : list string) : list ascii :=
  match ls with
  | [] => []
  | L :: rest =>
    match s, e with
    | O, O => firstn (b - a) (skipn a (list_ascii_of_string L))
    | O, S e' => skipn a (list_ascii_of_string L) ++ nl :: upto e' b rest
    | S s', S e' => between s' e' a b rest
    | S _, O => []
    end
  end.

(** *** The scope of a search in folders *)



(** *** Messages that count *)

(** [template] has the word [word] in it. *)
Definition mentions (template word : string) : bool := -1 <? JS.indexOf template word.

(** A message agrees in number with its counts: it comes from a template
    that names both counts, names a third argument exactly when it is given
    one, and has the plural of a word exactly when its count is not 1. *)
Definition agrees (localize : string -> string -> list LocalizeArg -> string)
    (message : string) (thing container : string) (count fileCount : Z)
    (more : list LocalizeArg) : Prop :=
  exists key template,
    message = localize key template ([num count; num fileCount] ++ more)
    /\ mentions template "{0}" = true
    /\ mentions template "{1}" = true
    /\ mentions template "{2}" = negb (JS.alength more =? 0)
    /\ mentions template (thing ++ "s") = negb (count =? 1)
    /\ mentions template thing = true
    /\ mentions template (container ++ "s") = negb (fileCount =? 1)
    /\ mentions template container = true.

(** *** The file commands *)

Section FileCommandVocabulary.
Variable Schemas_untitled : string.

(** The resources the file service is asked to resolve. *)
Definition fileResources (resources : list URI) : list URI :=
  filter (fun resource => negb (String.eqb (scheme resource) Schemas_untitled)) resources.

End FileCommandVocabulary.

(** A result that stands for a file: resolved, and not a directory. *)
Definition isFile (r : OpenToSide.IResolveFileResult) : bool :=
  match OpenToSide.stat r with
  | Some s => OpenToSide.success r && negb (OpenToSide.isDirectory s)
  | None => false
  end.

(** The dirty editors of [groups], each with the id of its group. *)
Definition dirtyEditors (groups : list Save.IEditorGroup) : list Save.IEditorIdentifier :=
  flat_map (fun group =>
              map (fun editor => {| Save.groupId := Save.id group; Save.editor := editor |})
                  (filter Save.isDirty (Save.getEditors group)))
           groups.

(** The resource of the last [SelectForCompare] among [commands]. *)
Definition lastSelected (commands : list Compare.Command) : option URI :=
  fold_left (fun selected c =>
               match c with
               | Compare.SelectForCompare resource => resource
               | _ => selected
               end)
            commands None.

Definition binds (c : Compare.ServiceCall) : bool :=
  match c with Compare.ResourceSelectedForCompareContext_bindTo => true | _ => false end.

Definition registers (c : CompareWithSaved.ServiceCall) : bool :=
  match c with CompareWithSaved.registerTextModelContentProvider _ => true | _ => false end.

Definition listens (c : CompareWithSaved.ServiceCall) : bool :=
  match c with CompareWithSaved.onDidVisibleEditorsChange => true | _ => false end.

Definition is_provider (d : CompareWithSaved.IDisposable) : bool :=
  match d with CompareWithSaved.provider => true | _ => false end.

Definition disposes_provider (c : CompareWithSaved.ServiceCall) : bool :=
  match c with
  | CompareWithSaved.dispose disposables => existsb is_provider disposables
  | _ => false
  end.

(** [providerDisposables] holds listeners only, after the provider and its
    registration if it holds them. *)
Definition provider_first (disposables : list CompareWithSaved.IDisposable) : Prop :=
  exists n, disposables = repeat CompareWithSaved.listener n
            \/ disposables
               = CompareWithSaved.provider :: CompareWithSaved.registration
                 :: repeat CompareWithSaved.listener n.

(** What a run of compare-with-saved keeps true: every registration of the
    provider but the one in [providerDisposables] has been disposed, and no
    more listeners were, or are to be, registered than providers. *)
Definition one_provider (g : CompareWithSaved.Globals)
    (calls : list CompareWithSaved.ServiceCall) : Prop :=
  provider_first (CompareWithSaved.providerDisposables g)
  /\ tally registers calls
     = (tally disposes_provider calls
        + if existsb is_provider (CompareWithSaved.providerDisposables g) then 1 else 0)%nat
  /\ (tally listens calls
      + tally CompareWithSaved.registerEditorListener (CompareWithSaved.awaiting g)
      <= tally registers calls)%nat.

(** * Properties *)

(** ** Arrays *)

Section SortFacts.
Variable A : Type.
Variable compareFn : A -> A -> Z.

Lemma insert_Permutation (x : A) (l : list A) :
  Permutation (JS.insert compareFn x l) (x :: l).
Proof.
  induction l as [|y l IH]; simpl.
  - apply Permutation_refl.
  - destruct (compareFn x y <=? 0).
    + apply Permutation_refl.
    + apply perm_trans with (y :: x :: l).
      * now apply perm_skip.
      * apply perm_swap.
Qed.

Lemma sort_Permutation (l : list A) : Permutation (JS.sort compareFn l) l.
Proof.
  induction l as [|x l IH]; simpl.
  - apply perm_nil.
  - apply perm_trans with (x :: JS.sort compareFn l).
    + apply insert_Permutation.
    + now apply perm_skip.
Qed.

Lemma sort_length (l : list A) : List.length (JS.sort compareFn l) = List.length l.
Proof. apply Permutation_length, sort_Permutation. Qed.

Lemma sort_singleton (x : A) : JS.sort compareFn [x] = [x].
Proof. reflexivity. Qed.

(** A comparator that says [a] comes after [b] must not say that [b] comes
    after [a]. *)
Hypothesis compareFn_total : forall a b, 0 < compareFn a b -> compareFn b a <= 0.

Lemma insert_HdRel (a x : A) (l : list A) :
  ordered compareFn a x -> HdRel (ordered compareFn) a l -> HdRel (ordered compareFn) a (JS.insert compareFn x l).
Proof.
  intros Hax Hal. destruct l as [|y l]; simpl.
  - now constructor.
  - destruct (compareFn x y <=? 0).
    + now constructor.
    + constructor. now inversion Hal.
Qed.

Lemma insert_Sorted (x : A) (l : list A) :
  Sorted (ordered compareFn) l -> Sorted (ordered compareFn) (JS.insert compareFn x l).
Proof.
  induction 1 as [|y l Hl IH Hy]; simpl.
  - repeat constructor.
  - destruct (compareFn x y <=? 0) eqn:E.
    + constructor.
      * now constructor.
      * constructor. unfold ordered. lia.
    + constructor.
      * exact IH.
      * apply insert_HdRel; [|exact Hy].
        apply compareFn_total. lia.
Qed.

Lemma sort_Sorted (l : list A) : Sorted (ordered compareFn) (JS.sort compareFn l).
Proof.
  induction l as [|x l IH]; simpl.
  - constructor.
  - now apply insert_Sorted.
Qed.

End SortFacts.

Lemma skipn_cons_nth (A : Type) (n : nat) (l : list A) (x : A) :
  nth_error l n = Some x -> skipn n l = x :: skipn (S n) l.
Proof.
  revert l. induction n as [|n IH]; intros [|y l] H; try discriminate.
  - now injection H as ->.
  - simpl in H. now apply IH.
Qed.

(** An array filtered by the answers at the positions of its elements. *)
Lemma filteri_answers (A : Type) (l : list A) (answers : list bool) :
  JS.filteri (fun x i =>
                match JS.index answers i with
                | Some b => b
                | None => false
                end) l
  = map fst (filter snd (combine l answers)).
Proof.
  assert (H : forall (n : nat),
             JS.filter_from
               (fun (x : A) i =>
                  match JS.index answers i with
                  | Some b => b
                  | None => false
                  end) (Z.of_nat n) l
             = map fst (filter snd (combine l (skipn n answers)))).
  { induction l as [|x l IH]; intros n; [reflexivity|].
    cbn [JS.filter_from]. unfold JS.index at 1.
    destruct (Z.ltb_spec (Z.of_nat n) 0) as [N|_]; [lia|].
    rewrite Nat2Z.id.
    replace (Z.of_nat n + 1) with (Z.of_nat (S n)) by lia.
    destruct (nth_error answers n) as [b|] eqn:E.
    - rewrite (skipn_cons_nth _ n answers b E). cbn [combine filter snd].
      rewrite IH. now destruct b.
    - apply nth_error_None in E. rewrite (skipn_all2 answers E), IH.
      rewrite (skipn_all2 answers) by lia. destruct l; reflexivity. }
  exact (H 0%nat).
Qed.

(** ** The result tree *)

Section ResultTreeFacts.
Variable searchMatchComparer : RenderableMatch -> RenderableMatch -> Z.
Variable tree_getNode : FileMatch.t -> bool.

Lemma createFileIterator_rendered (f : FileMatch.t) :
  map Rendered.render (createFileIterator searchMatchComparer f)
  = Rendered.lines searchMatchComparer f.
Proof.
  unfold createFileIterator, Rendered.lines. now rewrite map_map.
Qed.

Lemma createFolderIterator_rendered (fo : FolderMatch.t) (cr : CollapseResults) :
  map Rendered.render (createFolderIterator searchMatchComparer tree_getNode fo cr)
  = Rendered.files searchMatchComparer fo.
Proof.
  unfold createFolderIterator, Rendered.files. rewrite map_map.
  apply map_ext. intros f. simpl.
  now rewrite createFileIterator_rendered.
Qed.

Lemma createResultIterator_rendered (fms : list FolderMatch.t) (cr : CollapseResults) :
  map Rendered.render (createResultIterator searchMatchComparer tree_getNode fms cr)
  = Rendered.tree searchMatchComparer fms.
Proof.
  unfold createResultIterator, Rendered.tree.
  set (nonEmpty := filter _ fms).
  assert (Hlen := sort_length _ (fun a b => searchMatchComparer (Folder a) (Folder b)) nonEmpty).
  assert (Hfolders : forall l,
    map Rendered.render
      (map (fun folderMatch =>
              {| element := Folder folderMatch;
                 children := Some (createFolderIterator searchMatchComparer tree_getNode
                                     folderMatch cr);
                 collapsed := None |}) l)
    = map (fun fo => Rendered.node (Folder fo) (Rendered.files searchMatchComparer fo)) l).
  { intros l. rewrite map_map. apply map_ext. intros fo. simpl.
    now rewrite createFolderIterator_rendered. }
  destruct nonEmpty as [|x [|y rest]].
  - reflexivity.
  - rewrite sort_singleton. apply createFolderIterator_rendered.
  - unfold Rendered.folders, Rendered.byFolder.
    destruct (JS.sort _ (x :: y :: rest)) as [|a [|b l]] eqn:E.
    + discriminate Hlen.
    + discriminate Hlen.
    + apply Hfolders.
Qed.

End ResultTreeFacts.

(** C2. The rendered tree is a function of the search result model alone:
    whatever the tree already holds and whatever [collapseResults] is, its
    elements are the non-empty folder matches sorted by [searchMatchComparer],
    each with its file matches sorted by it, each of those with its line
    matches sorted by it, and the file matches of the only non-empty folder
    match come first-level when there is exactly one. Each sorted array is a
    rearrangement of the model's array in which no element is followed by
    one the comparer puts before it. *)
Theorem result_tree_derived_from_model
    (searchMatchComparer : RenderableMatch -> RenderableMatch -> Z)
    (comparer_total : forall a b, 0 < searchMatchComparer a b -> searchMatchComparer b a <= 0)
    (tree_getNode : FileMatch.t -> bool)
    (folderMatches : list FolderMatch.t) (collapseResults : CollapseResults) :
  map Rendered.render
      (createResultIterator searchMatchComparer tree_getNode folderMatches collapseResults)
  = Rendered.tree searchMatchComparer folderMatches
  /\ (forall l : list FolderMatch.t,
        let sorted := JS.sort (Rendered.byFolder searchMatchComparer) l in
        Permutation sorted l
        /\ Sorted (fun a b => searchMatchComparer (Folder a) (Folder b) <= 0) sorted)
  /\ (forall l : list FileMatch.t,
        let sorted := JS.sort (Rendered.byFile searchMatchComparer) l in
        Permutation sorted l
        /\ Sorted (fun a b => searchMatchComparer (File a) (File b) <= 0) sorted)
  /\ (forall l : list Match.t,
        let sorted := JS.sort (Rendered.byLine searchMatchComparer) l in
        Permutation sorted l
        /\ Sorted (fun a b => searchMatchComparer (Line a) (Line b) <= 0) sorted).
Proof.
  split; [apply createResultIterator_rendered|].
  repeat split;
    try apply sort_Permutation;
    apply sort_Sorted; intros a b; apply comparer_total.
Qed.

(** ** The monad's equations *)

Section MonadFacts.
Variables A B : Type.

Lemma trace_bind (m : M A) (k : A -> M B) (v : SearchView) :
  trace_of (bind m k) v
  = trace_of m v ++ trace_of (k (result_of m v)) (view_after m v).
Proof.
  unfold trace_of, result_of, view_after, bind.
  destruct (m v) as [[a v1] l1]. simpl.
  now destruct (k a v1) as [[b v2] l2].
Qed.

Lemma calls_bind (m : M A) (k : A -> M B) (v : SearchView) :
  calls_of (bind m k) v
  = calls_of m v ++ calls_of (k (result_of m v)) (view_after m v).
Proof.
  unfold calls_of. now rewrite trace_bind, map_app.
Qed.

Lemma view_bind (m : M A) (k : A -> M B) (v : SearchView) :
  view_after (bind m k) v = view_after (k (result_of m v)) (view_after m v).
Proof.
  unfold result_of, view_after, bind.
  destruct (m v) as [[a v1] l1]. simpl.
  now destruct (k a v1) as [[b v2] l2].
Qed.

Lemma result_bind (m : M A) (k : A -> M B) (v : SearchView) :
  result_of (bind m k) v = result_of (k (result_of m v)) (view_after m v).
Proof.
  unfold result_of, view_after, bind.
  destruct (m v) as [[a v1] l1]. simpl.
  now destruct (k a v1) as [[b v2] l2].
Qed.

End MonadFacts.

Ltac case_if :=
  match goal with
  | |- context [if ?c then _ else _] => destruct c eqn:?
  end.

Ltac run_method :=
  unfold calls_of, trace_of, view_after, result_of, bind, modify, on_messagesElement,
    on_timeouts, call, get, when, ret;
  simpl.

Lemma core_state (a b : SearchView) : core a = core b -> state a = state b.
Proof. unfold core. intros H. congruence. Qed.

Lemma core_currentSearchQ (a b : SearchView) :
  core a = core b -> currentSearchQ a = currentSearchQ b.
Proof. unfold core. intros H. congruence. Qed.

Lemma core_running (a b : SearchView) : core a = core b -> running a = running b.
Proof. unfold core. intros H. congruence. Qed.

Lemma core_validating (a b : SearchView) : core a = core b -> validating a = validating b.
Proof. unfold core. intros H. congruence. Qed.

Lemma core_timeouts (a b : SearchView) : core a = core b -> timeouts a = timeouts b.
Proof. unfold core. intros H. congruence. Qed.

Lemma forEach_view (X : Type) (l : list X) (f : X -> M unit) (v : SearchView) :
  (forall x v0, view_after (f x) v0 = v0) -> view_after (forEach l f) v = v.
Proof.
  intros H. induction l as [|x l IH]; simpl.
  - reflexivity.
  - rewrite view_bind, H. exact IH.
Qed.

Lemma forEach_calls (X : Type) (l : list X) (f : X -> M unit) (c : X -> list Call.t)
    (v : SearchView) :
  (forall x v0, view_after (f x) v0 = v0) -> (forall x v0, calls_of (f x) v0 = c x) ->
  calls_of (forEach l f) v = flat_map c l.
Proof.
  intros Hv Hc. induction l as [|x l IH]; simpl.
  - reflexivity.
  - now rewrite calls_bind, Hc, Hv, IH.
Qed.

Lemma forEach_call_calls (X : Type) (l : list X) (c : X -> Call.t) (v : SearchView) :
  calls_of (forEach l (fun x => call (c x))) v = map c l.
Proof.
  rewrite (forEach_calls X l _ (fun x => [c x])) by reflexivity.
  induction l as [|x l IH]; simpl; congruence.
Qed.

(** ** validateQuery *)

Section ValidateQueryFacts.
Variable localize : string -> string -> list LocalizeArg -> string.

Lemma validateQuery_then_result (query : ITextQuery) (existResults : list bool) :
  validateQuery_then localize query existResults
  = match folderQueries query, existing existResults query with
    | first :: _, [] => inl (searchPathNotFound localize first)
    | _, _ => inr (set_folderQueries query (existing existResults query))
    end.
Proof.
  unfold validateQuery_then. rewrite filteri_answers. fold (existing existResults query).
  destruct (folderQueries query) as [|first rest] eqn:Efq.
  - simpl. destruct (existing existResults query); reflexivity.
  - destruct (existing existResults query) as [|e es] eqn:Eex.
    + reflexivity.
    + replace (JS.alength (first :: rest) =? 0) with false
        by (symmetry; apply Z.eqb_neq; unfold JS.alength; simpl; lia).
      replace (JS.alength (e :: es) =? 0) with false
        by (symmetry; apply Z.eqb_neq; unfold JS.alength; simpl; lia).
      reflexivity.
Qed.

Lemma validateQuery_view (query : ITextQuery) (v : SearchView) :
  view_after (validateQuery query) v = v.
Proof.
  unfold validateQuery. now rewrite forEach_view.
Qed.

Lemma validateQuery_calls (query : ITextQuery) (v : SearchView) :
  calls_of (validateQuery query) v
  = map (fun fq => Call.fileService_exists (folder fq)) (folderQueries query).
Proof.
  unfold validateQuery. apply forEach_call_calls.
Qed.

Lemma existing_In (existResults : list bool) (query : ITextQuery) (fq : IFolderQuery) :
  In fq (existing existResults query)
  <-> In (fq, true) (combine (folderQueries query) existResults).
Proof.
  unfold existing. rewrite in_map_iff. split.
  - intros ([fq' b] & <- & H). apply filter_In in H. destruct H as [H Hb].
    simpl in Hb. now subst b.
  - intros H. exists (fq, true). split; [reflexivity|]. apply filter_In. now split.
Qed.

(** C9, as the code has it. [validateQuery] asks the file service about the
    folder of every folder query, and changes no field. When the file
    service has answered for every folder, the promise rejects exactly when
    the query has a folder query and no folder of any of them exists, and
    then with the error "Search path not found" on the path of the first
    folder; in every other case it resolves, and the query's folder queries
    are then those whose folder exists. When the file service fails for a
    folder, the promise rejects with the error of the file service. *)
Theorem validateQuery_keeps_existing_folders (query : ITextQuery) (v : SearchView)
    (folderQueriesExist : Error + list bool) :
  let outcome := validateQuery_settled localize query folderQueriesExist in
  calls_of (validateQuery query) v
    = map (fun fq => Call.fileService_exists (folder fq)) (folderQueries query)
  /\ view_after (validateQuery query) v = v
  /\ match folderQueriesExist with
     | inl failed => outcome = inl failed
     | inr existResults =>
       (forall validated, outcome = inr validated ->
          validated = set_folderQueries query (existing existResults query)
          /\ forall fq, In fq (folderQueries validated)
                        <-> In (fq, true) (combine (folderQueries query) existResults))
       /\ ((exists err, outcome = inl err)
           <-> folderQueries query <> [] /\ existing existResults query = [])
       /\ (forall first rest,
             folderQueries query = first :: rest -> existing existResults query = [] ->
             outcome = inl (searchPathNotFound localize first))
       /\ (folderQueries query = [] \/ existing existResults query <> [] ->
           outcome = inr (set_folderQueries query (existing existResults query)))
     end.
Proof.
  intros outcome. subst outcome.
  split; [apply validateQuery_calls|]. split; [apply validateQuery_view|].
  destruct folderQueriesExist as [failed|existResults]; [reflexivity|].
  cbn [validateQuery_settled]. rewrite validateQuery_then_result.
  split; [|split; [|split]].
  - intros validated H.
    assert (E : validated = set_folderQueries query (existing existResults query)).
    { destruct (folderQueries query) as [|first rest];
        destruct (existing existResults query); congruence. }
    split; [exact E|]. subst validated. simpl. intros fq. apply existing_In.
  - split.
    + intros [err H].
      destruct (folderQueries query) as [|first rest];
        destruct (existing existResults query); try discriminate.
      split; [discriminate|reflexivity].
    + intros [Hne Hex]. rewrite Hex.
      destruct (folderQueries query) as [|first rest]; [congruence|].
      now exists (searchPathNotFound localize first).
  - intros first rest Hq Hex. now rewrite Hq, Hex.
  - intros [Hq|Hex].
    + now rewrite Hq.
    + destruct (folderQueries query); destruct (existing existResults query); congruence.
Qed.

End ValidateQueryFacts.

(** ** The file commands *)

Section FileCommandFacts.
Import FileCommands.
Variable localize : string -> string -> list LocalizeArg -> string.
Variable toErrorMessage : Error -> bool -> string.
Variable getUriLabel : URI -> bool -> bool -> string.
Variable isWindows : bool.
Variable writeText : string -> Settled.
Variable revert : list IEditorIdentifier -> bool -> Settled.

(** C6. Copy path and copy relative path: with a resource selected, the one
    call made is [writeText] of the labels of the selected resources (absolute
    for the first command, relative for the second) joined by carriage return
    and line feed on Windows and by line feed elsewhere, and no notification
    is shown; with none selected, the one call made is the info notification
    "Open a file first to copy its path", and nothing is written to the
    clipboard. *)
Theorem copy_path_writes_labels_or_notifies (resources : list URI) :
  let lineDelimiter :=
    if isWindows
    then String (ascii_of_nat 13) (String (ascii_of_nat 10) EmptyString)
    else String (ascii_of_nat 10) EmptyString in
  let labels (relative : bool) :=
    map (fun resource => getUriLabel resource relative true) resources in
  let expected (relative : bool) :=
    match resources with
    | [] => [notificationService_info
               (localize "openFileToCopy" "Open a file first to copy its path" [])]
    | _ :: _ => [clipboardService_writeText (JS.join lineDelimiter (labels relative))]
    end in
  fst (copyFilePath localize getUriLabel isWindows writeText resources) = expected false
  /\ fst (copyRelativeFilePath localize getUriLabel isWindows writeText resources)
     = expected true.
Proof.
  unfold copyFilePath, copyRelativeFilePath, resourcesToClipboard, CRLF, LF.
  destruct resources as [|r rs].
  - split; reflexivity.
  - replace (JS.alength (r :: rs) =? 0) with false
      by (symmetry; apply Z.eqb_neq; unfold JS.alength; simpl; lia).
    split; reflexivity.
Qed.

(** C7. Revert file: the one call to [revert] is on the selected editors that
    are not untitled, in their order, with [force]; when it is rejected, an
    error notification follows whose first argument is the names of those
    editors joined by a comma and a space; the command resolves either way. *)
Theorem revertFile_reverts_titled_editors (selected : list IEditorIdentifier) :
  let editors := filter (fun e => negb (isUntitled (editor e))) selected in
  let outcome := revertFile localize toErrorMessage revert selected in
  snd outcome = Resolved
  /\ (forall e, In e editors <-> In e selected /\ isUntitled (editor e) = false)
  /\ fst outcome
     = editorService_revert editors true
       :: match revert editors true with
          | Resolved => []
          | Rejected error =>
            [notificationService_error
               (localize "genericRevertError" "Failed to revert '{0}': {1}"
                  [str (JS.join ", " (map (fun e => getName (editor e)) editors));
                   str (toErrorMessage error false)])]
          end.
Proof.
  intros editors outcome. subst outcome. unfold revertFile. fold editors.
  split; [|split].
  - destruct (revert editors true); reflexivity.
  - intros e. subst editors. rewrite filter_In.
    now rewrite negb_true_iff.
  - destruct (revert editors true); reflexivity.
Qed.

End FileCommandFacts.

(** ** Opening a result *)

Lemma index_last (A : Type) (before : list A) (x : A) :
  JS.index (before ++ [x]) (JS.alength (before ++ [x]) - 1) = Some x.
Proof.
  unfold JS.index, JS.alength. rewrite length_app. simpl.
  destruct (Z.ltb_spec (Z.of_nat (List.length before + 1) - 1) 0) as [N|N]; [lia|].
  replace (Z.to_nat (Z.of_nat (List.length before + 1) - 1)) with (List.length before) by lia.
  rewrite nth_error_app2 by lia. now rewrite Nat.sub_diag.
Qed.

Lemma getSelectionFrom_opened_match (w : World) (element : FileMatchOrMatch) (m : Match.t) :
  opened_match element m ->
  getSelectionFrom w element
  = Some (if isReplaceActive w && JS.truthy (replaceString w) then
            {| startLineNumber := startLineNumber (Match.range m);
               startColumn := startColumn (Match.range m);
               endLineNumber := startLineNumber (Match.range m);
               endColumn := startColumn (Match.range m)
                            + JS.length (Match.replaceString m) |}
          else Match.range m).
Proof.
  intros H. unfold getSelectionFrom. destruct element as [f|e]; simpl in H.
  - destruct H as [Hcount [before Hm]].
    apply Z.ltb_lt in Hcount. rewrite Hcount, Hm, index_last.
    now destruct (isReplaceActive w && JS.truthy (replaceString w)).
  - subst e. now destruct (isReplaceActive w && JS.truthy (replaceString w)).
Qed.

(** C5. Opening an element asks the editor service, first of all, to open the
    element's resource with the selection [getSelectionFrom] computes. For the
    match the element stands for (the [Match] itself, or the last entry of
    the [matches()] array of a [FileMatch] with a positive count), that
    selection is the match's range; when replace is active and the replace
    string of the view model is not empty, it is instead the stretch that
    starts at the start of the match's range and ends, on the same line, as
    many columns further as the match's own replace string is long. *)
Theorem open_navigates_to_selection (w : World) (element : FileMatchOrMatch) (m : Match.t)
    (preserveFocus sideBySide pinned : option bool) (opened : Error + bool)
    (v : SearchView) (stands : opened_match element m) :
  let range := Match.range m in
  let selection :=
    if isReplaceActive w && JS.truthy (replaceString w) then
      {| startLineNumber := startLineNumber range;
         startColumn := startColumn range;
         endLineNumber := startLineNumber range;
         endColumn := startColumn range + JS.length (Match.replaceString m) |}
    else range in
  let resource :=
    match element with
    | OfMatch e => Match.parent_resource e
    | OfFile f => FileMatch.resource f
    end in
  getSelectionFrom w element = Some selection
  /\ hd_error (calls_of (open w element preserveFocus sideBySide pinned opened) v)
     = Some (Call.editorService_openEditor resource preserveFocus pinned (Some selection)
               true (if is_true sideBySide then SIDE_GROUP else ACTIVE_GROUP))
  /\ view_after (open w element preserveFocus sideBySide pinned opened) v = v.
Proof.
  intros range selection resource.
  assert (Hsel := getSelectionFrom_opened_match w element m stands).
  fold range in Hsel. fold selection in Hsel.
  split; [exact Hsel|]. unfold open. rewrite Hsel. fold resource.
  split.
  - rewrite calls_bind. reflexivity.
  - rewrite view_bind.
    destruct opened as [e|editor]; [reflexivity|].
    destruct element as [f|e]; [reflexivity|].
    destruct (editor && is_true preserveFocus); reflexivity.
Qed.

(** ** Refreshing the tree and the result count *)

Section RefreshFacts.
Variable localize : string -> string -> list LocalizeArg -> string.
Variable searchMatchComparer : RenderableMatch -> RenderableMatch -> Z.

Lemma refreshTree_view (w : World) (event : option IChangeEvent) (v : SearchView) :
  view_after (refreshTree searchMatchComparer w event) v = v.
Proof.
  unfold refreshTree. destruct event as [e|]; [|reflexivity].
  destruct (added e || removed e); [reflexivity|].
  apply forEach_view. reflexivity.
Qed.

Lemma refreshTree_calls (w : World) (event : option IChangeEvent) (v : SearchView) :
  calls_of (refreshTree searchMatchComparer w event) v = tree_refresh searchMatchComparer w event.
Proof.
  unfold refreshTree, tree_refresh. destruct event as [e|]; [|reflexivity].
  destruct (added e || removed e); [reflexivity|].
  apply forEach_calls; reflexivity.
Qed.

Lemma refreshAndUpdateCount_calls (w : World) (event : option IChangeEvent) (v : SearchView) :
  calls_of (refreshAndUpdateCount localize searchMatchComparer w event) v
  = Call.searchWidget_setReplaceAllActionState (negb (SearchResult.isEmpty (searchResult w)))
    :: Call.hasSearchResultsKey_set (0 <? SearchResult.fileCount (searchResult w))
    :: (if 0 <? SearchResult.fileCount (searchResult w) then [Call.reLayout] else [])
    ++ tree_refresh searchMatchComparer w event.
Proof.
  unfold refreshAndUpdateCount.
  rewrite calls_bind, calls_bind, refreshTree_calls.
  unfold updateSearchResultCount, clearMessage. run_method.
  repeat case_if; reflexivity.
Qed.

Lemma refreshAndUpdateCount_core (w : World) (event : option IChangeEvent) (v : SearchView) :
  core (view_after (refreshAndUpdateCount localize searchMatchComparer w event) v) = core v.
Proof.
  unfold refreshAndUpdateCount.
  rewrite view_bind, view_bind, refreshTree_view.
  unfold updateSearchResultCount, clearMessage. run_method.
  repeat case_if; reflexivity.
Qed.

Lemma refreshAndUpdateCount_messages (w : World) (event : option IChangeEvent) (v : SearchView) :
  messagesElement (view_after (refreshAndUpdateCount localize searchMatchComparer w event) v)
  = count_shown localize w (messagesElement v).
Proof.
  unfold refreshAndUpdateCount.
  rewrite view_bind, view_bind, refreshTree_view.
  unfold updateSearchResultCount, clearMessage, count_shown, count_message.
  destruct v as [st cwh sel swf [[|] kids] disp q r h]; run_method;
    repeat case_if; reflexivity.
Qed.

End RefreshFacts.

Section VisibilityFacts.
Variable localize : string -> string -> list LocalizeArg -> string.
Variable searchMatchComparer : RenderableMatch -> RenderableMatch -> Z.

Lemma onSearchResultsChanged_calls (w : World) (event : option IChangeEvent) (v : SearchView) :
  calls_of (onSearchResultsChanged localize searchMatchComparer w event) v
  = if isVisible w then refresh_and_count searchMatchComparer w event else [].
Proof.
  unfold onSearchResultsChanged. destruct (isVisible w).
  - apply refreshAndUpdateCount_calls.
  - reflexivity.
Qed.

Lemma onSearchResultsChanged_core (w : World) (event : option IChangeEvent) (v : SearchView) :
  core (view_after (onSearchResultsChanged localize searchMatchComparer w event) v)
  = core (if isVisible w then v else set_changedWhileHidden true v).
Proof.
  unfold onSearchResultsChanged. destruct (isVisible w).
  - apply refreshAndUpdateCount_core.
  - reflexivity.
Qed.

Lemma onVisibilityChanged_calls (w : World) (visible : bool) (v : SearchView) :
  calls_of (onVisibilityChanged localize searchMatchComparer w visible) v
  = Call.viewletVisible_set visible
    :: (if visible && changedWhileHidden v then refresh_and_count searchMatchComparer w None else [])
    ++ [Call.searchResult_toggleHighlights visible].
Proof.
  unfold onVisibilityChanged. rewrite calls_bind, calls_bind. simpl.
  unfold view_after at 1 2. simpl. f_equal. f_equal.
  destruct visible; simpl; [|reflexivity].
  rewrite calls_bind. simpl. unfold view_after at 1, result_of. simpl.
  destruct (changedWhileHidden v); simpl; [|reflexivity].
  rewrite calls_bind, refreshAndUpdateCount_calls. apply app_nil_r.
Qed.

Lemma onVisibilityChanged_core (w : World) (visible : bool) (v : SearchView) :
  core (view_after (onVisibilityChanged localize searchMatchComparer w visible) v)
  = core (if visible then set_changedWhileHidden false v else v).
Proof.
  unfold onVisibilityChanged. rewrite view_bind, view_bind. simpl.
  unfold view_after at 1 3. simpl.
  destruct visible; simpl; [|reflexivity].
  rewrite view_bind. simpl. unfold view_after at 2, result_of. simpl.
  destruct (changedWhileHidden v) eqn:E; simpl.
  - rewrite view_bind.
    assert (H := refreshAndUpdateCount_core localize searchMatchComparer w None v).
    unfold core in *. simpl.
    destruct (view_after (refreshAndUpdateCount localize searchMatchComparer w None) v).
    simpl in *. unfold view_after. simpl. congruence.
  - unfold view_after, core. simpl. now rewrite E.
Qed.

(** C3. A change of the search result reaches the tree at once when the view
    is visible: the tree is refreshed and the count of results is shown, and
    [changedWhileHidden] is left alone. When the view is hidden nothing is
    called and only [changedWhileHidden] is set. A change of visibility
    refreshes the tree and the count exactly when the view becomes visible
    with [changedWhileHidden] set, and leaves the flag cleared; so after a
    change while hidden, the first turn to visible refreshes once, from the
    search result as it then is, and a second one does not refresh. *)
Theorem tree_synchronized_across_visibility (w : World) (event : IChangeEvent)
    (v : SearchView) :
  let change := onSearchResultsChanged localize searchMatchComparer w (Some event) in
  let show (w' : World) (visible : bool) :=
    onVisibilityChanged localize searchMatchComparer w' visible in
  (calls_of change v = if isVisible w then refresh_and_count searchMatchComparer w (Some event) else [])
  /\ (messagesElement (view_after change v)
      = if isVisible w then count_shown localize w (messagesElement v)
        else messagesElement v)
  /\ (core (view_after change v)
      = (state v, if isVisible w then changedWhileHidden v else true, validating v,
         currentSearchQ v, running v, timeouts v, uiRefreshHandles v))
  /\ (forall w' visible,
        calls_of (show w' visible) v
        = Call.viewletVisible_set visible
          :: (if visible && changedWhileHidden v then refresh_and_count searchMatchComparer w' None else [])
          ++ [Call.searchResult_toggleHighlights visible]
        /\ core (view_after (show w' visible) v)
           = (state v, if visible then false else changedWhileHidden v, validating v,
              currentSearchQ v, running v, timeouts v, uiRefreshHandles v))
  /\ (forall w1 w2,
        isVisible w = false ->
        let hidden := view_after change v in
        let shown := view_after (show w1 true) hidden in
        calls_of (show w1 true) hidden
        = Call.viewletVisible_set true
          :: refresh_and_count searchMatchComparer w1 None ++ [Call.searchResult_toggleHighlights true]
        /\ changedWhileHidden shown = false
        /\ calls_of (show w2 true) shown
           = [Call.viewletVisible_set true; Call.searchResult_toggleHighlights true]).
Proof.
  intros change show.
  assert (Hcore := onSearchResultsChanged_core w (Some event) v).
  fold change in Hcore.
  split; [apply onSearchResultsChanged_calls|].
  split.
  { subst change. unfold onSearchResultsChanged. destruct (isVisible w).
    - apply refreshAndUpdateCount_messages.
    - reflexivity. }
  split.
  { rewrite Hcore. destruct (isVisible w); reflexivity. }
  split.
  { intros w' visible. split.
    - apply onVisibilityChanged_calls.
    - subst show. simpl. rewrite onVisibilityChanged_core.
      destruct visible; reflexivity. }
  intros w1 w2 Hhidden hidden shown.
  assert (Hflag : changedWhileHidden hidden = true).
  { subst hidden. rewrite Hhidden in Hcore. unfold core in Hcore. simpl in Hcore.
    congruence. }
  assert (Hshown : changedWhileHidden shown = false).
  { assert (H := onVisibilityChanged_core w1 true hidden).
    fold (show w1 true) in H. fold shown in H. unfold core in H. simpl in H. congruence. }
  split; [|split; [exact Hshown|]].
  - subst show. simpl. rewrite onVisibilityChanged_calls, Hflag. reflexivity.
  - subst show. simpl. rewrite onVisibilityChanged_calls, Hshown. reflexivity.
Qed.

End VisibilityFacts.

(** ** Submitting a query *)

Lemma updateActions_calls (v : SearchView) : calls_of updateActions v = actions_updated.
Proof. reflexivity. Qed.

Lemma updateActions_view (v : SearchView) : view_after updateActions v = v.
Proof. reflexivity. Qed.

Section SubmitFacts.
Variable localize : string -> string -> list LocalizeArg -> string.

Lemma clearMessage_view (v : SearchView) :
  view_after clearMessage v
  = set_messagesElement cleared
      (set_messageDisposables [] (set_searchWithoutFolderMessageElement false v)).
Proof. reflexivity. Qed.

Lemma clearSearchResults_calls (w : World) (v : SearchView) :
  calls_of (clearSearchResults localize w) v
  = [Call.searchResult_clear] ++ actions_updated
    ++ [Call.dom_show_resultsElement; Call.searchWidget_clear; Call.viewModel_cancelSearch]
    ++ actions_updated
    ++ [Call.aria_status
          (localize "ariaSearchResultsClearStatus" "The search results have been cleared" [])].
Proof.
  unfold clearSearchResults, showEmptyStage, showSearchWithoutFolderMessage, clearMessage.
  run_method. repeat case_if; reflexivity.
Qed.

Lemma clearSearchResults_core (w : World) (v : SearchView) :
  core (view_after (clearSearchResults localize w) v) = core v.
Proof.
  unfold clearSearchResults, showEmptyStage, showSearchWithoutFolderMessage, clearMessage.
  run_method. repeat case_if; reflexivity.
Qed.

Lemma onQueryTriggered_calls (query : ITextQuery) (options : ITextQueryBuilderOptions)
    (ex inc : string) (triggeredOnType : bool) (v : SearchView) :
  calls_of (onQueryTriggered query options ex inc triggeredOnType) v
  = [Call.addToSearchHistoryDelayer_trigger; Call.inputPatternExcludes_onSearchSubmit;
     Call.inputPatternIncludes_onSearchSubmit; Call.viewModel_cancelSearch].
Proof. reflexivity. Qed.

Lemma onQueryTriggered_view (query : ITextQuery) (options : ITextQueryBuilderOptions)
    (ex inc : string) (triggeredOnType : bool) (v : SearchView) :
  view_after (onQueryTriggered query options ex inc triggeredOnType) v
  = set_currentSearchQ
      (currentSearchQ v
       ++ [{| queued_query := query; queued_options := options;
              queued_excludePatternText := ex; queued_includePatternText := inc;
              queued_triggeredOnType := triggeredOnType |}]) v.
Proof. reflexivity. Qed.

Lemma onQueryChanged_unfold (w : World) (preserveFocus triggeredOnType : bool) :
  onQueryChanged localize w preserveFocus triggeredOnType
  = if negb (isInputValid w) then ret tt
    else if JS.length (getValue w) =? 0 then clearSearchResults localize w ;; clearMessage
    else
      call (Call.queryBuilder_text (content_of w) (map uri (workspace_folders w))
              (options_of w)) ;;
      after_builder w preserveFocus triggeredOnType
        (text w (content_of w) (map uri (workspace_folders w)) (options_of w)).
Proof.
  unfold onQueryChanged, after_builder.
  destruct (negb (isInputValid w)); [reflexivity|].
  destruct (JS.length (getValue w) =? 0); [reflexivity|].
  destruct (text w (content_of w) (map uri (workspace_folders w)) (options_of w));
    reflexivity.
Qed.

Lemma after_builder_calls (w : World) (preserveFocus triggeredOnType : bool)
    (built : Error + ITextQuery) (v : SearchView) :
  calls_of (after_builder w preserveFocus triggeredOnType built) v
  = match built with
    | inl err => error_shown err
    | inr query => folders_asked query
    end.
Proof.
  destruct built as [err|query]; [reflexivity|].
  unfold after_builder. rewrite calls_bind, validateQuery_calls. apply app_nil_r.
Qed.

Lemma after_builder_view (w : World) (preserveFocus triggeredOnType : bool)
    (built : Error + ITextQuery) (v : SearchView) :
  view_after (after_builder w preserveFocus triggeredOnType built) v
  = match built with
    | inl _ => v
    | inr query =>
      set_validating (validating v ++ [awaited w query preserveFocus triggeredOnType]) v
    end.
Proof.
  destruct built as [err|query]; [reflexivity|].
  unfold after_builder. now rewrite view_bind, validateQuery_view.
Qed.

Lemma onQueryChanged_then_calls (p : Validating) (validated : Error + ITextQuery)
    (v : SearchView) :
  calls_of (onQueryChanged_then p validated) v
  = match validated with
    | inl err => error_shown err
    | inr _ => triggered (validating_preserveFocus p)
    end.
Proof.
  destruct validated as [err|query]; [reflexivity|].
  unfold onQueryChanged_then. rewrite calls_bind, onQueryTriggered_calls. unfold triggered.
  f_equal. destruct (validating_preserveFocus p); reflexivity.
Qed.

Lemma onQueryChanged_then_view (p : Validating) (validated : Error + ITextQuery)
    (v : SearchView) :
  view_after (onQueryChanged_then p validated) v
  = match validated with
    | inl _ => v
    | inr query => set_currentSearchQ (currentSearchQ v ++ [queued p query]) v
    end.
Proof.
  destruct validated as [err|query]; [reflexivity|].
  unfold onQueryChanged_then. rewrite view_bind, onQueryTriggered_view.
  destruct (validating_preserveFocus p); reflexivity.
Qed.

End SubmitFacts.

Lemma length_eqb_0 (s : string) : (JS.length s =? 0) = match s with "" => true | _ => false end.
Proof.
  destruct s as [|c s]; [reflexivity|].
  apply Z.eqb_neq. unfold JS.length. simpl. lia.
Qed.

Lemma builds_or_searches_map (X : Type) (c : X -> Call.t) (l : list X) :
  (forall x, builds_or_searches (c x) = false) ->
  Forall (fun c => builds_or_searches c = false) (map c l).
Proof.
  intros H. apply Forall_forall. intros x Hin.
  apply in_map_iff in Hin. destruct Hin as [y [<- _]]. apply H.
Qed.

Section SearchFacts.
Variable localize : string -> string -> list LocalizeArg -> string.

Lemma doSearch_calls (w : World) (q : QueuedSearch) (v : SearchView) :
  calls_of (doSearch localize w q) v
  = [Call.progressService_withProgress (if queued_triggeredOnType q then 300 else 0);
     Call.searchInput_clearMessage]
    ++ actions_updated
    ++ [Call.dom_show_resultsElement; Call.setTimeout 2000; Call.setInterval 100;
        Call.searchWidget_setReplaceAllActionState false;
        Call.viewModel_search (queued_query q)].
Proof.
  unfold doSearch, showEmptyStage. run_method. repeat case_if; reflexivity.
Qed.

Lemma doSearch_core (w : World) (q : QueuedSearch) (v : SearchView) :
  core (view_after (doSearch localize w q) v)
  = (Searching, changedWhileHidden v, validating v, currentSearchQ v,
     Some {| excludePatternText := queued_excludePatternText q;
             includePatternText := queued_includePatternText q;
             slowTimer := List.length (timeouts v) |},
     timeouts v ++ [Pending (now w + 2000)],
     uiRefreshHandles v ++ [{| visibleMatches := 0; updatedActionsForFileCount := false |}]).
Proof.
  unfold doSearch, showEmptyStage. run_method. repeat case_if; reflexivity.
Qed.

(** C1. A submission with a valid input box and a pattern that is not empty
    calls the query builder's [text], first of all and once, on the content
    pattern as entered, with its regular expression, case and whole word
    flags, and on options that carry the include and exclude patterns as
    entered; the turn itself starts no search. When the builder throws, the
    error's message is shown on the search input, the search result is
    cleared, and nothing is queued and nothing waits. When it returns a
    query, the file service is asked about the folders of the query, and the
    promise of [validateQuery] waits with that query. Once the promise has
    settled, its callbacks build nothing and start no search: either the
    query, with the folder queries that exist, is queued for [doSearch], or
    the error, of the search path that was not found or of the file service,
    is shown and the search result cleared as before. [doSearch] ends by
    handing the queued query to the search model's [search], and builds
    nothing itself. *)
Theorem submission_builds_with_query_builder (w : World)
    (preserveFocus triggeredOnType : bool) (v : SearchView)
    (valid : isInputValid w = true) (nonEmpty : getValue w <> "") :
  let turn := onQueryChanged localize w preserveFocus triggeredOnType in
  let content :=
    {| pattern := getValue w; isRegExp := getRegex w;
       isCaseSensitive := getCaseSensitive w; isWordMatch := getWholeWords w |} in
  let folders := map uri (workspace_folders w) in
  let options := options_of w in
  includePattern options = includes_getValue w
  /\ excludePattern options = excludes_getValue w
  /\ (exists rest,
        calls_of turn v = Call.queryBuilder_text content folders options :: rest
        /\ Forall (fun c => builds_or_searches c = false) rest
        /\ match text w content folders options with
           | inl err => rest = error_shown err /\ view_after turn v = v
           | inr query =>
             rest = folders_asked query
             /\ view_after turn v
                = set_validating
                    (validating v ++ [awaited w query preserveFocus triggeredOnType]) v
           end)
  /\ (forall query folderQueriesExist v',
        let p := awaited w query preserveFocus triggeredOnType in
        let answered :=
          onQueryChanged_then p (validateQuery_settled localize query folderQueriesExist) in
        Forall (fun c => builds_or_searches c = false) (calls_of answered v')
        /\ match folderQueriesExist with
           | inl failed =>
             calls_of answered v' = error_shown failed /\ view_after answered v' = v'
           | inr existResults =>
             match folderQueries query, existing existResults query with
             | first :: _, [] =>
               calls_of answered v' = error_shown (searchPathNotFound localize first)
               /\ view_after answered v' = v'
             | _, _ =>
               calls_of answered v' = triggered preserveFocus
               /\ view_after answered v'
                  = set_currentSearchQ
                      (currentSearchQ v'
                       ++ [queued p (set_folderQueries query
                                       (existing existResults query))]) v'
             end
           end)
  /\ (forall w' q v',
        exists before,
          calls_of (doSearch localize w' q) v'
          = before ++ [Call.viewModel_search (queued_query q)]
          /\ Forall (fun c => builds_or_searches c = false) before).
Proof.
  intros turn content folders options.
  split; [reflexivity|]. split; [reflexivity|]. split; [|split].
  - assert (Hlen : (JS.length (getValue w) =? 0) = false).
    { rewrite length_eqb_0. destruct (getValue w); congruence. }
    subst turn. rewrite onQueryChanged_unfold, valid, Hlen. simpl.
    change (content_of w) with content. fold folders options.
    exists (calls_of (after_builder w preserveFocus triggeredOnType
                        (text w content folders options)) v).
    split; [now rewrite calls_bind|].
    rewrite view_bind. simpl.
    change (view_after (call (Call.queryBuilder_text content folders options)) v) with v.
    rewrite after_builder_calls, after_builder_view.
    destruct (text w content folders options) as [err|query].
    + split; [|split; reflexivity]. repeat constructor.
    + split; [|split; reflexivity]. apply builds_or_searches_map; reflexivity.
  - intros query folderQueriesExist v' p answered. subst answered.
    rewrite onQueryChanged_then_calls, onQueryChanged_then_view.
    assert (Htrig : Forall (fun c => builds_or_searches c = false) (triggered preserveFocus))
      by (destruct preserveFocus; repeat constructor).
    destruct folderQueriesExist as [failed|existResults]; cbn [validateQuery_settled].
    + split; [repeat constructor|split; reflexivity].
    + rewrite validateQuery_then_result.
      destruct (folderQueries query) as [|first others] eqn:Efq;
        destruct (existing existResults query) eqn:Eex;
        (split; [|split; reflexivity]); try exact Htrig; repeat constructor.
  - intros w' q v'. rewrite doSearch_calls.
    exists ([Call.progressService_withProgress (if queued_triggeredOnType q then 300 else 0);
             Call.searchInput_clearMessage]
            ++ actions_updated
            ++ [Call.dom_show_resultsElement; Call.setTimeout 2000; Call.setInterval 100;
                Call.searchWidget_setReplaceAllActionState false]).
    split; [reflexivity|]. repeat constructor.
Qed.

(** C10, as the code has it. A submission whose pattern has length zero calls
    neither the query builder nor the search and queues no search. When the
    search input box is valid it clears the search result, updates the
    actions, shows the results element, clears the search widget, cancels the
    running search and announces that the results have been cleared, in this
    order, and leaves the message area cleared and shown; when the box is not
    valid it returns at once: it calls nothing and leaves the view as it
    was. *)
Theorem empty_pattern_starts_no_search (w : World) (preserveFocus triggeredOnType : bool)
    (v : SearchView) (empty : JS.length (getValue w) = 0) :
  let turn := onQueryChanged localize w preserveFocus triggeredOnType in
  Forall (fun c => builds_or_searches c = false) (calls_of turn v)
  /\ core (view_after turn v) = core v
  /\ if isInputValid w then
       calls_of turn v
       = [Call.searchResult_clear] ++ actions_updated
         ++ [Call.dom_show_resultsElement; Call.searchWidget_clear;
             Call.viewModel_cancelSearch]
         ++ actions_updated
         ++ [Call.aria_status
               (localize "ariaSearchResultsClearStatus"
                         "The search results have been cleared" [])]
       /\ messagesElement (view_after turn v) = cleared
       /\ messageDisposables (view_after turn v) = []
       /\ searchWithoutFolderMessageElement (view_after turn v) = false
     else calls_of turn v = [] /\ view_after turn v = v.
Proof.
  intros turn. subst turn. rewrite onQueryChanged_unfold.
  apply Z.eqb_eq in empty. rewrite empty.
  destruct (isInputValid w); simpl.
  - rewrite calls_bind, view_bind, clearSearchResults_calls, clearMessage_view.
    assert (Hcore := clearSearchResults_core localize w v).
    split; [|split].
    + rewrite app_nil_r. repeat constructor.
    + rewrite <- Hcore. reflexivity.
    + split; [apply app_nil_r|]. repeat split.
  - repeat split. constructor.
Qed.

End SearchFacts.

(** ** Methods that leave the life of a search alone *)

Lemma keeps_ret (A : Type) (a : A) : keeps_core (ret a).
Proof. intros v. reflexivity. Qed.

Lemma keeps_call (c : Call.t) : keeps_core (call c).
Proof. intros v. reflexivity. Qed.

Lemma keeps_get : keeps_core get.
Proof. intros v. reflexivity. Qed.

Lemma keeps_bind (A B : Type) (m : M A) (k : A -> M B) :
  keeps_core m -> (forall a, keeps_core (k a)) -> keeps_core (bind m k).
Proof.
  intros Hm Hk v. rewrite view_bind, Hk. apply Hm.
Qed.

Lemma keeps_when (b : bool) (m : M unit) : keeps_core m -> keeps_core (when b m).
Proof. intros H. destruct b; [exact H|apply keeps_ret]. Qed.

Lemma keeps_on_messagesElement (f : MessagesElement -> MessagesElement) :
  keeps_core (on_messagesElement f).
Proof. intros v. reflexivity. Qed.

Lemma keeps_modify (f : SearchView -> SearchView) :
  (forall v, core (f v) = core v) -> keeps_core (modify f).
Proof. intros H v. apply H. Qed.

Lemma keeps_updateActions : keeps_core updateActions.
Proof. intros v. reflexivity. Qed.

Lemma keeps_clearMessage : keeps_core clearMessage.
Proof. intros v. reflexivity. Qed.

Lemma keeps_showSearchWithoutFolderMessage
    (localize : string -> string -> list LocalizeArg -> string) :
  keeps_core (showSearchWithoutFolderMessage localize).
Proof. intros v. reflexivity. Qed.

Ltac keeps :=
  repeat first
    [ apply keeps_ret
    | apply keeps_call
    | apply keeps_get
    | apply keeps_updateActions
    | apply keeps_clearMessage
    | apply keeps_showSearchWithoutFolderMessage
    | apply keeps_on_messagesElement
    | apply keeps_when
    | apply keeps_modify; reflexivity
    | apply keeps_bind; [|intros ?]
    | match goal with
      | |- keeps_core (if ?b then _ else _) => destruct b
      | |- keeps_core (match ?x with _ => _ end) => destruct x
      end ].

(** ** The life of a search *)

Lemma on_timer_last (f : Timer -> Timer) (older : list Timer) (t : Timer) :
  on_timer f (List.length older) (older ++ [t]) = older ++ [f t].
Proof.
  induction older as [|o older IH]; [reflexivity|].
  simpl. now rewrite IH.
Qed.

Lemma on_timer_twice (f : Timer -> Timer) (handle : nat) (timers : list Timer) :
  (forall t, f (f t) = f t) ->
  on_timer f handle (on_timer f handle timers) = on_timer f handle timers.
Proof.
  intros Hf. revert handle.
  induction timers as [|t timers IH]; intros [|handle]; simpl; try reflexivity.
  - now rewrite Hf.
  - now rewrite IH.
Qed.

Lemma clearTimeout_twice (handle : nat) (timers : list Timer) :
  clearTimeout handle (clearTimeout handle timers) = clearTimeout handle timers.
Proof.
  apply on_timer_twice. intros [due|due|]; reflexivity.
Qed.

Lemma settled_nth (timers : list Timer) (handle : nat) (t : Timer) :
  forallb (fun t => negb (pending t)) timers = true ->
  nth_error timers handle = Some t -> pending t = false.
Proof.
  intros H E. apply nth_error_In in E.
  rewrite forallb_forall in H. apply H in E. now destruct (pending t).
Qed.

(** The timer at a handle of a window whose last timer alone can be
    pending. *)
Lemma pending_is_last (older : list Timer) (t : Timer) (handle : nat) (due : Z) :
  forallb (fun t => negb (pending t)) older = true ->
  nth_error (older ++ [t]) handle = Some (Pending due) ->
  handle = List.length older /\ t = Pending due.
Proof.
  intros H E.
  destruct (Nat.lt_ge_cases handle (List.length older)) as [Hlt|Hge].
  - rewrite nth_error_app1 in E by exact Hlt.
    apply (settled_nth older handle _ H) in E. discriminate.
  - rewrite nth_error_app2 in E by exact Hge.
    destruct (handle - List.length older)%nat as [|n] eqn:En.
    + simpl in E. injection E as ->. split; [lia|reflexivity].
    + simpl in E. now destruct n.
Qed.

Section LifecycleFacts.
Variable localize : string -> string -> list LocalizeArg -> string.
Variable searchMatchComparer : RenderableMatch -> RenderableMatch -> Z.
Variable isPromiseCanceledError : Error -> bool.

Local Abbreviation dispatch := (dispatch localize searchMatchComparer isPromiseCanceledError).
Local Abbreviation run := (run localize searchMatchComparer isPromiseCanceledError).

Lemma onQueryChanged_core (w : World) (preserveFocus triggeredOnType : bool) (v : SearchView) :
  core (view_after (onQueryChanged localize w preserveFocus triggeredOnType) v)
  = (state v, changedWhileHidden v,
     validating v ++ submitted w preserveFocus triggeredOnType,
     currentSearchQ v, running v, timeouts v, uiRefreshHandles v).
Proof.
  rewrite onQueryChanged_unfold. unfold submitted.
  destruct (negb (isInputValid w)); [unfold core; simpl; now rewrite app_nil_r|].
  destruct (JS.length (getValue w) =? 0).
  - rewrite view_bind, clearMessage_view.
    assert (H := clearSearchResults_core localize w v). unfold core in H.
    destruct (view_after (clearSearchResults localize w) v). simpl in *.
    unfold core. simpl. rewrite app_nil_r. exact H.
  - rewrite view_bind.
    change (view_after (call _) v) with v. rewrite after_builder_view.
    destruct (text w (content_of w) (map uri (workspace_folders w)) (options_of w))
      as [err|built]; [unfold core; simpl; now rewrite app_nil_r|].
    reflexivity.
Qed.

Lemma onQueryChanged_then_core (p : Validating) (validated : Error + ITextQuery)
    (v : SearchView) :
  core (view_after (onQueryChanged_then p validated) v)
  = (state v, changedWhileHidden v, validating v,
     currentSearchQ v ++ match validated with
                         | inr query => [queued p query]
                         | inl _ => []
                         end,
     running v, timeouts v, uiRefreshHandles v).
Proof.
  rewrite onQueryChanged_then_view.
  destruct validated as [err|query]; [unfold core; now rewrite app_nil_r|reflexivity].
Qed.

Lemma onComplete_core (w : World) (r : RunningSearch) (completed : option ISearchComplete)
    (v : SearchView) :
  core (view_after (onComplete localize searchMatchComparer w r completed) v)
  = (Idle, if isVisible w then changedWhileHidden v else true, validating v,
     currentSearchQ v, running v, clearTimeout (slowTimer r) (timeouts v),
     uiRefreshHandles v).
Proof.
  unfold onComplete. rewrite view_bind, view_bind, view_bind, view_bind, view_bind.
  change (view_after (call Call.clearTimeout) v) with v.
  change (view_after (call Call.progressComplete) ?x) with x.
  set (v1 := view_after (modify (set_state Idle))
               (view_after (on_timeouts (clearTimeout (slowTimer r))) v)).
  set (v2 := view_after (onSearchResultsChanged localize searchMatchComparer w None) v1).
  assert (H2 := onSearchResultsChanged_core localize searchMatchComparer w None v1).
  fold v2 in H2.
  match goal with
  | |- core (view_after ?rest v2) = _ => assert (K : keeps_core rest)
  end.
  { keeps. }
  rewrite K, H2. destruct (isVisible w); reflexivity.
Qed.

Lemma onError_core (w : World) (r : RunningSearch) (e : Error) (v : SearchView) :
  core (view_after (onError localize searchMatchComparer isPromiseCanceledError w r e) v)
  = (Idle,
     if isPromiseCanceledError e && negb (isVisible w) then true else changedWhileHidden v,
     validating v, currentSearchQ v, running v, clearTimeout (slowTimer r) (timeouts v),
     uiRefreshHandles v).
Proof.
  unfold onError.
  rewrite view_bind, view_bind, view_bind.
  destruct (isPromiseCanceledError e).
  - rewrite onComplete_core. simpl.
    change (view_after (call Call.clearTimeout) v) with v.
    unfold view_after. simpl. rewrite clearTimeout_twice.
    destruct (isVisible w); reflexivity.
  - reflexivity.
Qed.

Lemma uiRefresh_callback_core (w : World) (h : UiRefresh) (v : SearchView) :
  core (view_after (uiRefresh_callback localize searchMatchComparer w h) v) = core v.
Proof.
  unfold uiRefresh_callback. rewrite view_bind.
  change (view_after get v) with v. change (result_of get v) with v.
  destruct (SearchUIState_eqb (state v) Idle); [reflexivity|].
  rewrite view_bind.
  assert (H : core (view_after
                      (when (negb (visibleMatches h
                                   =? SearchResult.fileCount (searchResult w)))
                         (refreshAndUpdateCount localize searchMatchComparer w None)) v)
              = core v).
  { destruct (negb _); [apply refreshAndUpdateCount_core|reflexivity]. }
  destruct (_ && _); [rewrite view_bind|]; exact H.
Qed.

(** A run with one more turn at its end. *)
Lemma run_snoc (turns : list (World * Event)) (w : World) (ev : Event) (clock : Z)
    (v : SearchView) :
  run clock (turns ++ [(w, ev)]) v
  = match run clock turns v with
    | Some (v1, clock1, calls1) =>
      if clock1 <=? now w then
        match dispatch w ev v1 with
        | Some (v2, calls2) => Some (v2, now w, calls1 ++ calls2)
        | None => None
        end
      else None
    | None => None
    end.
Proof.
  revert clock v. induction turns as [|[w0 ev0] turns IH]; intros clock v; simpl.
  - destruct (clock <=? now w); [|reflexivity].
    destruct (dispatch w ev v) as [[v2 calls2]|]; [|reflexivity].
    now rewrite app_nil_r.
  - destruct (clock <=? now w0); [|reflexivity].
    destruct (dispatch w0 ev0 v) as [[v1 calls1]|]; [|reflexivity].
    rewrite IH.
    destruct (run (now w0) turns v1) as [[[v2 clock2] calls2]|]; [|reflexivity].
    destruct (clock2 <=? now w); [|reflexivity].
    destruct (dispatch w ev v2) as [[v3 calls3]|]; [|reflexivity].
    now rewrite app_assoc.
Qed.

(** What holds at the start and is kept by every enabled turn holds at the
    end of every run. *)
Lemma run_invariant (clock0 : Z) (v0 : SearchView)
    (P : list (World * Event) -> Z -> SearchView -> list Call.t -> Prop) :
  P [] clock0 v0 [] ->
  (forall turns clock v calls w ev v' calls',
     P turns clock v calls ->
     clock <= now w -> dispatch w ev v = Some (v', calls') ->
     P (turns ++ [(w, ev)]) (now w) v' (calls ++ calls')) ->
  forall turns v clock calls,
    run clock0 turns v0 = Some (v, clock, calls) -> P turns clock v calls.
Proof.
  intros Hstart Hstep turns.
  induction turns as [|[w ev] turns IH] using rev_ind; intros v clock calls Hrun.
  - simpl in Hrun. injection Hrun as <- <- <-. exact Hstart.
  - rewrite run_snoc in Hrun.
    destruct (run clock0 turns v0) as [[[v1 clock1] calls1]|]; [|discriminate].
    destruct (Z.leb_spec clock1 (now w)) as [Hle|]; [|discriminate].
    destruct (dispatch w ev v1) as [[v2 calls2]|] eqn:D; [|discriminate].
    injection Hrun as <- <- <-.
    apply (Hstep turns clock1 v1 calls1 w ev); try assumption.
    now apply IH.
Qed.

(** [renderBody] leaves the life of a search as the constructor set it. *)
Lemma rendered_core (w : World) : core (rendered localize w) = core new_SearchView.
Proof.
  unfold rendered, renderBody. rewrite view_bind.
  destruct (WorkbenchState_eqb (getWorkbenchState w) EMPTY); reflexivity.
Qed.

Lemma lifecycle_later (started : option Z) (clock clock' : Z) (v v' : SearchView) :
  clock <= clock' -> state v' = state v -> running v' = running v ->
  timeouts v' = timeouts v ->
  lifecycle started clock v -> lifecycle started clock' v'.
Proof.
  unfold lifecycle. intros Hle Hs Hr Ht H. rewrite Hr, Hs, Ht.
  destruct (running v) as [r|]; [|exact H].
  destruct H as (t0 & older & E & Hc & Hl & Ho & H). exists t0, older.
  repeat split; [exact E|lia|exact Hl|exact Ho|].
  destruct H as [[Hp Hst]|(Hf & Hst & Hd)]; [left|right]; repeat split; try assumption; lia.
Qed.

(** A turn that leaves the life of a search alone. *)
Lemma lifecycle_kept (started : option Z) (clock clock' : Z) (v v' : SearchView) :
  clock <= clock' -> core v' = core v ->
  lifecycle started clock v -> lifecycle started clock' v'.
Proof.
  intros Hle H. apply lifecycle_later; [exact Hle| | |].
  - exact (core_state _ _ H).
  - exact (core_running _ _ H).
  - exact (core_timeouts _ _ H).
Qed.

(** Once the running search has cleared its timer, no timer is pending. *)
Lemma cleared_settled (started : option Z) (clock : Z) (v : SearchView) (r : RunningSearch) :
  lifecycle started clock v -> running v = Some r ->
  forallb (fun t => negb (pending t)) (clearTimeout (slowTimer r) (timeouts v)) = true.
Proof.
  unfold lifecycle. intros L Hr. rewrite Hr in L.
  destruct L as (t0 & older & _ & _ & Hlen & Ho & [[Hp _]|(Hf & _)]);
    [rewrite Hp|rewrite Hf]; rewrite <- Hlen; unfold clearTimeout;
    rewrite on_timer_last, forallb_app, Ho; reflexivity.
Qed.

(** A search that settles: its callback has run and the search is over. *)
Lemma settled_idle (started : option Z) (clock : Z) (v v1 : SearchView) (r : RunningSearch) :
  lifecycle started clock v -> running v = Some r ->
  state v1 = Idle -> timeouts v1 = clearTimeout (slowTimer r) (timeouts v) ->
  let v' := view_after (modify (set_running None)) v1 in
  state v' = Idle /\ running v' = None
  /\ forallb (fun t => negb (pending t)) (timeouts v') = true.
Proof.
  intros L Hr Hs Ht v'. subst v'.
  change (view_after (modify (set_running None)) v1) with (set_running None v1).
  split; [exact Hs|]. split; [reflexivity|].
  cbn [set_running timeouts]. rewrite Ht. exact (cleared_settled started clock v r L Hr).
Qed.

Lemma dispatch_lifecycle (started : option Z) (clock : Z) (w : World) (ev : Event)
    (v v' : SearchView) (calls : list Call.t) :
  lifecycle started clock v -> clock <= now w -> dispatch w ev v = Some (v', calls) ->
  lifecycle (match ev with SearchQ_continues => Some (now w) | _ => started end)
            (now w) v'.
Proof.
  intros Hl Hle D. destruct ev; simpl in D.
  - (* QueryChanged *)
    inversion D; subst.
    assert (H := onQueryChanged_core w preserveFocus triggeredOnType v).
    unfold core in H. injection H as Hs _ _ _ Hr Ht _.
    now apply (lifecycle_later started clock (now w) v).
  - (* FolderQueriesExist_settle *)
    destruct (nth_error (validating v) validation) as [p|]; [|discriminate].
    destruct (can_settle _ _); [|discriminate].
    inversion D; subst. rewrite view_bind.
    match goal with
    | |- lifecycle _ _ (view_after (onQueryChanged_then p ?x) ?v1) =>
      assert (H := onQueryChanged_then_core p x v1)
    end.
    unfold core in H. injection H as Hs _ _ _ Hr Ht _.
    now apply (lifecycle_later started clock (now w) v).
  - (* SearchQ_continues *)
    unfold lifecycle in Hl.
    destruct (running v); [discriminate|].
    destruct (currentSearchQ v) as [|q rest]; [discriminate|].
    inversion D; subst. rewrite view_bind.
    assert (H := doSearch_core localize w q (view_after (modify (set_currentSearchQ rest)) v)).
    unfold core in H. injection H as Hs _ _ _ Hr Ht _.
    unfold lifecycle. rewrite Hr, Hs, Ht. exists (now w), (timeouts v).
    repeat split; [lia|apply Hl|]. left. split; reflexivity.
  - (* SlowTimer_fires *)
    destruct (nth_error (timeouts v) handle) as [[due|due|]|] eqn:En; try discriminate.
    destruct (Z.leb_spec due (now w)) as [Hdue|]; [|discriminate].
    inversion D; subst. clear D.
    unfold lifecycle in *.
    change (running (view_after (on_timeouts (fire handle) ;; slowTimer_callback) v))
      with (running v).
    change (state (view_after (on_timeouts (fire handle) ;; slowTimer_callback) v))
      with SlowSearch.
    change (timeouts (view_after (on_timeouts (fire handle) ;; slowTimer_callback) v))
      with (fire handle (timeouts v)).
    destruct (running v) as [r|].
    + destruct Hl as (t0 & older & E & Ht & Hlen & Ho & [[Hp Hst]|(Hf & _)]).
      * rewrite Hp in En. destruct (pending_is_last older _ handle due Ho En) as [-> Hd].
        injection Hd as <-.
        exists t0, older. repeat split; [exact E|lia|exact Hlen|exact Ho|].
        right. rewrite Hp. unfold fire. rewrite on_timer_last. repeat split. exact Hdue.
      * rewrite Hf in En. destruct (pending_is_last older _ handle due Ho En) as [_ Hd].
        discriminate.
    + destruct Hl as [_ Hl]. apply (settled_nth _ _ _ Hl) in En. discriminate.
  - (* UiRefresh_fires *)
    destruct (nth_error (uiRefreshHandles v) handle) as [h|]; [|discriminate].
    inversion D; subst. rewrite view_bind.
    assert (H := uiRefresh_callback_core w h v).
    apply (lifecycle_later started clock (now w) v); try assumption.
    + exact (core_state _ _ H).
    + exact (core_running _ _ H).
    + exact (core_timeouts _ _ H).
  - (* Search_resolves *)
    destruct (running v) as [r|] eqn:Er; [|discriminate].
    inversion D; subst. rewrite view_bind.
    assert (H := onComplete_core w r (Some completed) v). unfold core in H.
    injection H as Hs _ _ _ _ Ht _.
    destruct (settled_idle started clock v _ r Hl Er Hs Ht) as (Hs' & Hr' & Ht').
    unfold lifecycle. rewrite Hr'. now split.
  - (* Search_rejects *)
    destruct (running v) as [r|] eqn:Er; [|discriminate].
    inversion D; subst. rewrite view_bind.
    assert (H := onError_core w r e v). unfold core in H.
    injection H as Hs _ _ _ _ Ht _.
    destruct (settled_idle started clock v _ r Hl Er Hs Ht) as (Hs' & Hr' & Ht').
    unfold lifecycle. rewrite Hr'. now split.
  - (* SearchResult_onChange *)
    inversion D; subst.
    assert (H := onSearchResultsChanged_core localize searchMatchComparer w (Some event) v).
    apply (lifecycle_kept started clock (now w) (if isVisible w then v
                                                   else set_changedWhileHidden true v));
      [exact Hle|exact H|].
    now destruct (isVisible w).
  - (* BodyVisibility_changes *)
    inversion D; subst.
    assert (H := onVisibilityChanged_core localize searchMatchComparer w visible v).
    apply (lifecycle_kept started clock (now w) (if visible then set_changedWhileHidden false v
                                                   else v));
      [exact Hle|exact H|].
    now destruct visible.
Qed.

End LifecycleFacts.

Section LifecycleTheorem.
Variable localize : string -> string -> list LocalizeArg -> string.
Variable searchMatchComparer : RenderableMatch -> RenderableMatch -> Z.
Variable isPromiseCanceledError : Error -> bool.

Local Abbreviation dispatch := (dispatch localize searchMatchComparer isPromiseCanceledError).
Local Abbreviation run := (run localize searchMatchComparer isPromiseCanceledError).

Lemma search_started_snoc (turns : list (World * Event)) (w : World) (ev : Event) :
  search_started (turns ++ [(w, ev)])
  = match ev with
    | SearchQ_continues => Some (now w)
    | _ => search_started turns
    end.
Proof.
  unfold search_started. rewrite fold_left_app. reflexivity.
Qed.

Lemma reachable_lifecycle (w0 : World) (turns : list (World * Event)) (v : SearchView)
    (clock : Z) (calls : list Call.t) :
  run 0 turns (rendered localize w0) = Some (v, clock, calls) ->
  lifecycle (search_started turns) clock v.
Proof.
  apply (run_invariant localize searchMatchComparer isPromiseCanceledError 0
           (rendered localize w0)
           (fun turns clock v _ => lifecycle (search_started turns) clock v)).
  - assert (H := rendered_core localize w0). unfold core in H.
    injection H as Hs _ _ _ Hr Ht _. unfold lifecycle. rewrite Hr, Hs, Ht. now split.
  - intros turns0 clock0 v0 calls0 w ev v' calls' H Hle D.
    rewrite search_started_snoc.
    exact (dispatch_lifecycle localize searchMatchComparer isPromiseCanceledError
             (search_started turns0) clock0 w ev v0 v' calls' H Hle D).
Qed.

Lemma getActions_cancel (v : SearchView) :
  In CancelSearchAction (getActions v) <-> state v = SlowSearch.
Proof.
  unfold getActions, actions, cancelAction, refreshAction.
  destruct (state v); simpl; split; intros H; try discriminate; auto;
    repeat (destruct H as [H|H]; try discriminate); contradiction.
Qed.

Lemma getActions_refresh (v : SearchView) :
  In RefreshAction (getActions v) <-> state v <> SlowSearch.
Proof.
  unfold getActions, actions, cancelAction, refreshAction.
  destruct (state v); simpl; split; intros H; try discriminate; auto;
    try (exfalso; apply H; reflexivity);
    repeat (destruct H as [H|H]; try discriminate); contradiction.
Qed.

Lemma doSearch_trace (w : World) (q : QueuedSearch) (v : SearchView) :
  exists before,
    trace_of (doSearch localize w q) v
    = before ++ [(Searching, Call.viewModel_search (queued_query q))].
Proof.
  unfold doSearch.
  do 3 (rewrite trace_bind; rewrite <- ?app_assoc).
  set (v1 := view_after (modify (set_state Searching)) _).
  assert (Hs : state v1 = Searching) by reflexivity. clearbody v1.
  rewrite trace_bind.
  assert (K : keeps_core (showEmptyStage localize w false)) by (unfold showEmptyStage; keeps).
  set (v2 := view_after (showEmptyStage localize w false) v1).
  assert (Hs2 : state v2 = Searching).
  { subst v2. rewrite (core_state _ _ (K v1)). exact Hs. }
  clearbody v2.
  match goal with
  | |- exists before, ?a ++ ?b ++ ?c ++ ?d ++ ?rest = _ =>
    exists (a ++ b ++ c ++ d
            ++ [(Searching, Call.setTimeout 2000); (Searching, Call.setInterval 100);
                (Searching, Call.searchWidget_setReplaceAllActionState false)]);
    assert (E : rest
                = [(Searching, Call.setTimeout 2000); (Searching, Call.setInterval 100);
                   (Searching, Call.searchWidget_setReplaceAllActionState false)]
                  ++ [(Searching, Call.viewModel_search (queued_query q))])
  end.
  { unfold trace_of, result_of, view_after, bind, modify, on_timeouts, call, get. simpl.
    now rewrite Hs2. }
  rewrite E, <- !app_assoc. reflexivity.
Qed.

(** C4. In every view a run of turns reaches from a rendered view, the state
    is [Idle] when no search is running, [Searching] while the running
    search's timer is pending, and [SlowSearch] once that timer has fired,
    which is at least 2000 ms after the search started; no other timer is
    pending. [doSearch] leaves the state at [Searching], with its timer set
    for 2000 ms later, and its last call is the search, which it makes in
    state [Searching]. A timer fires only in state [Searching], is the timer
    of the running search, and moves the state to [SlowSearch]; the search
    resolving or rejecting moves the state to [Idle], ends the search and
    leaves no timer pending. The actions are the cancel action when the
    state is [SlowSearch] and the refresh action otherwise, followed by the
    two fixed actions. *)
Theorem search_state_lifecycle (w0 : World) (turns : list (World * Event)) (v : SearchView)
    (clock : Z) (calls : list Call.t)
    (reached : run 0 turns (rendered localize w0) = Some (v, clock, calls)) :
  lifecycle (search_started turns) clock v
  /\ (forall w q v0,
        let started := view_after (doSearch localize w q) v0 in
        state started = Searching
        /\ (exists r, running started = Some r
                      /\ nth_error (timeouts started) (slowTimer r)
                         = Some (Pending (now w + 2000)))
        /\ (exists before,
              trace_of (doSearch localize w q) v0
              = before ++ [(Searching, Call.viewModel_search (queued_query q))])
        /\ last (calls_of (doSearch localize w q) v0) Call.reLayout
           = Call.viewModel_search (queued_query q))
  /\ (forall w handle v' calls',
        dispatch w (SlowTimer_fires handle) v = Some (v', calls') ->
        state v = Searching /\ state v' = SlowSearch
        /\ option_map slowTimer (running v) = Some handle
        /\ exists t0, search_started turns = Some t0 /\ t0 + 2000 <= now w)
  /\ (forall w completed v' calls',
        dispatch w (Search_resolves completed) v = Some (v', calls') ->
        state v' = Idle /\ running v' = None
        /\ forallb (fun t => negb (pending t)) (timeouts v') = true)
  /\ (forall w e v' calls',
        dispatch w (Search_rejects e) v = Some (v', calls') ->
        state v' = Idle /\ running v' = None
        /\ forallb (fun t => negb (pending t)) (timeouts v') = true)
  /\ getActions v
     = (if SearchUIState_eqb (state v) SlowSearch then CancelSearchAction else RefreshAction)
       :: [ClearSearchResultsAction; CollapseDeepestExpandedLevelAction]
  /\ (In CancelSearchAction (getActions v) <-> state v = SlowSearch)
  /\ (In RefreshAction (getActions v) <-> state v <> SlowSearch).
Proof.
  assert (L := reachable_lifecycle w0 turns v clock calls reached).
  split; [exact L|]. split; [|split; [|split; [|split]]].
  - intros w q v0 started. subst started.
    assert (H := doSearch_core localize w q v0). unfold core in H.
    injection H as Hs _ _ _ Hr Ht _. rewrite Hs, doSearch_calls.
    split; [reflexivity|]. split; [|split; [apply doSearch_trace|reflexivity]].
    eexists. split; [exact Hr|]. rewrite Ht. cbn [slowTimer].
    rewrite nth_error_app2, Nat.sub_diag by lia. reflexivity.
  - intros w handle v' calls' D. simpl in D. unfold lifecycle in L.
    destruct (nth_error (timeouts v) handle) as [[due|due|]|] eqn:En; try discriminate.
    destruct (Z.leb_spec due (now w)) as [Hdue|]; [|discriminate].
    injection D as <- _.
    destruct (running v) as [r|].
    + destruct L as (t0 & older & E & Ht & Hlen & Ho & [[Hp Hst]|(Hf & _)]).
      * rewrite Hp in En. destruct (pending_is_last older _ handle due Ho En) as [-> Hd].
        injection Hd as <-.
        repeat split; [exact Hst|simpl; now rewrite Hlen|]. now exists t0.
      * rewrite Hf in En. destruct (pending_is_last older _ handle due Ho En) as [_ Hd].
        discriminate.
    + destruct L as [_ L]. apply (settled_nth _ _ _ L) in En. discriminate.
  - intros w completed v' calls' D. simpl in D.
    destruct (running v) as [r|] eqn:Er; [|discriminate].
    injection D as <- _. rewrite view_bind.
    assert (H := onComplete_core localize searchMatchComparer w r (Some completed) v).
    unfold core in H. injection H as Hs _ _ _ _ Ht _.
    exact (settled_idle _ _ v _ r L Er Hs Ht).
  - intros w e v' calls' D. simpl in D.
    destruct (running v) as [r|] eqn:Er; [|discriminate].
    injection D as <- _. rewrite view_bind.
    assert (H := onError_core localize searchMatchComparer isPromiseCanceledError w r e v).
    unfold core in H. injection H as Hs _ _ _ _ Ht _.
    exact (settled_idle _ _ v _ r L Er Hs Ht).
  - split; [reflexivity|]. split; [apply getActions_cancel|apply getActions_refresh].
Qed.

End LifecycleTheorem.

(** ** Methods that neither build a query nor start a search *)

Create HintDb quiet.

Lemma quiet_ret (A : Type) (a : A) : quiet (ret a).
Proof. intros v. constructor. Qed.

Lemma quiet_get : quiet get.
Proof. intros v. constructor. Qed.

Lemma quiet_modify (f : SearchView -> SearchView) : quiet (modify f).
Proof. intros v. constructor. Qed.

Lemma quiet_on_messagesElement (f : MessagesElement -> MessagesElement) :
  quiet (on_messagesElement f).
Proof. intros v. constructor. Qed.

Lemma quiet_on_timeouts (f : list Timer -> list Timer) : quiet (on_timeouts f).
Proof. intros v. constructor. Qed.

Lemma quiet_call (c : Call.t) : builds_or_searches c = false -> quiet (call c).
Proof. intros H v. repeat constructor. exact H. Qed.

Lemma quiet_bind (A B : Type) (m : M A) (k : A -> M B) :
  quiet m -> (forall a, quiet (k a)) -> quiet (bind m k).
Proof.
  intros Hm Hk v. rewrite calls_bind. apply Forall_app. split; [apply Hm|apply Hk].
Qed.

Lemma quiet_when (b : bool) (m : M unit) : quiet m -> quiet (when b m).
Proof. intros H. destruct b; [exact H|apply quiet_ret]. Qed.

Lemma quiet_forEach (X : Type) (l : list X) (f : X -> M unit) :
  (forall x, quiet (f x)) -> quiet (forEach l f).
Proof.
  intros H. induction l as [|x l IH]; simpl.
  - apply quiet_ret.
  - apply quiet_bind; [apply H|intros _; exact IH].
Qed.

#[local] Hint Resolve quiet_ret quiet_get quiet_modify quiet_on_messagesElement
  quiet_on_timeouts : quiet.

Ltac quiet :=
  repeat first
    [ solve [auto with quiet]
    | apply quiet_call; reflexivity
    | apply quiet_when
    | apply quiet_forEach; intros ?
    | apply quiet_bind; [|intros ?]
    | match goal with
      | |- quiet (if ?b then _ else _) => destruct b
      | |- quiet (match ?x with _ => _ end) => destruct x
      end ].

Section QuietFacts.
Variable localize : string -> string -> list LocalizeArg -> string.
Variable searchMatchComparer : RenderableMatch -> RenderableMatch -> Z.
Variable isPromiseCanceledError : Error -> bool.

Lemma quiet_updateActions : quiet updateActions.
Proof. unfold updateActions. quiet. Qed.

Lemma quiet_clearMessage : quiet clearMessage.
Proof. unfold clearMessage. quiet. Qed.

Hint Resolve quiet_updateActions quiet_clearMessage : quiet.

Lemma quiet_showSearchWithoutFolderMessage : quiet (showSearchWithoutFolderMessage localize).
Proof. unfold showSearchWithoutFolderMessage. quiet. Qed.

Hint Resolve quiet_showSearchWithoutFolderMessage : quiet.

Lemma quiet_showEmptyStage (w : World) (force : bool) : quiet (showEmptyStage localize w force).
Proof. unfold showEmptyStage. quiet. Qed.

Lemma quiet_clearSearchResults (w : World) : quiet (clearSearchResults localize w).
Proof.
  pose proof quiet_showEmptyStage. unfold clearSearchResults. quiet.
Qed.

Lemma quiet_refreshAndUpdateCount (w : World) (event : option IChangeEvent) :
  quiet (refreshAndUpdateCount localize searchMatchComparer w event).
Proof.
  unfold refreshAndUpdateCount, updateSearchResultCount, refreshTree. quiet.
Qed.

Hint Resolve quiet_showEmptyStage quiet_refreshAndUpdateCount : quiet.

Lemma quiet_onSearchResultsChanged (w : World) (event : option IChangeEvent) :
  quiet (onSearchResultsChanged localize searchMatchComparer w event).
Proof. unfold onSearchResultsChanged. quiet. Qed.

Lemma quiet_onVisibilityChanged (w : World) (visible : bool) :
  quiet (onVisibilityChanged localize searchMatchComparer w visible).
Proof. unfold onVisibilityChanged. quiet. Qed.

Hint Resolve quiet_onSearchResultsChanged : quiet.

Lemma quiet_onComplete (w : World) (r : RunningSearch) (completed : option ISearchComplete) :
  quiet (onComplete localize searchMatchComparer w r completed).
Proof. unfold onComplete. quiet. Qed.

Hint Resolve quiet_onComplete : quiet.

Lemma quiet_onError (w : World) (r : RunningSearch) (e : Error) :
  quiet (onError localize searchMatchComparer isPromiseCanceledError w r e).
Proof. unfold onError. quiet. Qed.

Lemma quiet_uiRefresh_callback (w : World) (h : UiRefresh) :
  quiet (uiRefresh_callback localize searchMatchComparer w h).
Proof. unfold uiRefresh_callback. quiet. Qed.

Lemma quiet_slowTimer_callback : quiet slowTimer_callback.
Proof. unfold slowTimer_callback. quiet. Qed.

Lemma quiet_onQueryChanged_then (p : Validating) (validated : Error + ITextQuery) :
  quiet (onQueryChanged_then p validated).
Proof. unfold onQueryChanged_then, onQueryValidationError, onQueryTriggered. quiet. Qed.

End QuietFacts.

(** ** Every query handed to the search comes from the query builder *)

Section QueryFacts.
Variable localize : string -> string -> list LocalizeArg -> string.
Variable searchMatchComparer : RenderableMatch -> RenderableMatch -> Z.
Variable isPromiseCanceledError : Error -> bool.

Local Abbreviation dispatch := (dispatch localize searchMatchComparer isPromiseCanceledError).
Local Abbreviation run := (run localize searchMatchComparer isPromiseCanceledError).



Lemma quiet_after_builder (w : World) (preserveFocus triggeredOnType : bool)
    (built : Error + ITextQuery) :
  quiet (after_builder w preserveFocus triggeredOnType built).
Proof.
  unfold after_builder, validateQuery, onQueryValidationError. quiet.
Qed.

Lemma onQueryChanged_builds (w : World) (preserveFocus triggeredOnType : bool)
    (v : SearchView) (c : Call.t) :
  In c (calls_of (onQueryChanged localize w preserveFocus triggeredOnType) v) ->
  builds_or_searches c = true -> c = builder_call w.
Proof.
  rewrite onQueryChanged_unfold. intros Hin Hc.
  assert (Q : forall (m : M unit) v0, quiet m -> In c (calls_of m v0) -> False).
  { intros m v0 Hq Hm. specialize (Hq v0). rewrite Forall_forall in Hq.
    specialize (Hq c Hm). congruence. }
  destruct (negb (isInputValid w)); [contradiction|].
  destruct (JS.length (getValue w) =? 0).
  - exfalso. refine (Q _ v _ Hin).
    apply quiet_bind; [apply quiet_clearSearchResults|intros ?; apply quiet_clearMessage].
  - rewrite calls_bind in Hin. destruct Hin as [<-|Hin]; [reflexivity|].
    exfalso. apply (Q _ _ (quiet_after_builder w preserveFocus triggeredOnType _) Hin).
Qed.

Lemma dispatch_builds_or_searches (w : World) (ev : Event) (v v' : SearchView)
    (calls : list Call.t) (c : Call.t) :
  dispatch w ev v = Some (v', calls) -> In c calls -> builds_or_searches c = true ->
  (c = builder_call w /\ exists pf tot, ev = QueryChanged pf tot)
  \/ (ev = SearchQ_continues
      /\ exists q rest, currentSearchQ v = q :: rest
                        /\ c = Call.viewModel_search (queued_query q)).
Proof.
  intros D Hin Hc.
  assert (Q : forall (m : M unit) v0, quiet m -> In c (calls_of m v0) -> False).
  { intros m v0 Hq Hm. specialize (Hq v0). rewrite Forall_forall in Hq.
    specialize (Hq c Hm). congruence. }
  destruct ev; simpl in D.
  - injection D as <- <-. left. split; [|now exists preserveFocus, triggeredOnType].
    now apply (onQueryChanged_builds w preserveFocus triggeredOnType v).
  - destruct (nth_error (validating v) validation) as [p|]; [|discriminate].
    destruct (can_settle _ _); [|discriminate].
    injection D as <- <-. exfalso. refine (Q _ v _ Hin).
    apply quiet_bind; [apply quiet_modify|intros ?; apply quiet_onQueryChanged_then].
  - destruct (running v); [discriminate|].
    destruct (currentSearchQ v) as [|q rest]; [discriminate|].
    injection D as <- <-. right. split; [reflexivity|]. exists q, rest.
    split; [reflexivity|].
    rewrite calls_bind, doSearch_calls in Hin. simpl in Hin.
    repeat (destruct Hin as [<-|Hin]; [try discriminate Hc; try reflexivity|]).
    contradiction.
  - destruct (nth_error (timeouts v) handle) as [[due|due|]|]; try discriminate.
    destruct (due <=? now w); [|discriminate].
    injection D as <- <-. exfalso. refine (Q _ v _ Hin).
    apply quiet_bind; [apply quiet_on_timeouts|intros ?; apply quiet_slowTimer_callback].
  - destruct (nth_error (uiRefreshHandles v) handle) as [h|]; [|discriminate].
    injection D as <- <-. exfalso. refine (Q _ v _ Hin).
    apply quiet_bind; [apply quiet_uiRefresh_callback|intros ?; apply quiet_modify].
  - destruct (running v) as [r|]; [|discriminate].
    injection D as <- <-. exfalso. refine (Q _ v _ Hin).
    apply quiet_bind; [apply quiet_onComplete|intros ?; apply quiet_modify].
  - destruct (running v) as [r|]; [|discriminate].
    injection D as <- <-. exfalso. refine (Q _ v _ Hin).
    apply quiet_bind; [apply quiet_onError|intros ?; apply quiet_modify].
  - injection D as <- <-. exfalso.
    exact (Q _ v (quiet_onSearchResultsChanged localize searchMatchComparer w _) Hin).
  - injection D as <- <-. exfalso.
    exact (Q _ v (quiet_onVisibilityChanged localize searchMatchComparer w _) Hin).
Qed.


(** The fields of the life of a search after a turn, from those before. *)
Lemma dispatch_core (w : World) (ev : Event) (v v' : SearchView) (calls : list Call.t) :
  dispatch w ev v = Some (v', calls) ->
  match ev with
  | QueryChanged preserveFocus triggeredOnType =>
    validating v' = validating v ++ submitted w preserveFocus triggeredOnType
    /\ currentSearchQ v' = currentSearchQ v
  | FolderQueriesExist_settle validation folderQueriesExist =>
    exists p,
      nth_error (validating v) validation = Some p
      /\ validating v' = replace_nth validation None (validating v)
      /\ currentSearchQ v'
         = currentSearchQ v
           ++ match validateQuery_settled localize (validating_query p)
                      folderQueriesExist with
              | inr query => [queued p query]
              | inl _ => []
              end
  | SearchQ_continues =>
    validating v' = validating v
    /\ exists q, currentSearchQ v = q :: currentSearchQ v'
  | _ => validating v' = validating v /\ currentSearchQ v' = currentSearchQ v
  end.
Proof.
  intros D. destruct ev; simpl in D.
  - injection D as <- _.
    assert (H := onQueryChanged_core localize w preserveFocus triggeredOnType v).
    unfold core in H. now injection H as _ _ Hv Hq _ _ _.
  - destruct (nth_error (validating v) validation) as [p|]; [|discriminate].
    destruct (can_settle _ _); [|discriminate].
    injection D as <- _. exists p. split; [reflexivity|]. rewrite view_bind.
    match goal with
    | |- context [onQueryChanged_then p ?x] =>
      assert (H := onQueryChanged_then_core p x
                     (view_after (modify (fun v => set_validating
                                    (replace_nth validation None (validating v)) v)) v))
    end.
    unfold core in H. now injection H as _ _ Hv Hq _ _ _.
  - destruct (running v); [discriminate|].
    destruct (currentSearchQ v) as [|q rest]; [discriminate|].
    injection D as <- _. rewrite view_bind.
    assert (H := doSearch_core localize w q (view_after (modify (set_currentSearchQ rest)) v)).
    unfold core in H. injection H as _ _ Hv Hq _ _ _.
    split; [exact Hv|]. exists q. now rewrite Hq.
  - destruct (nth_error (timeouts v) handle) as [[due|due|]|]; try discriminate.
    destruct (due <=? now w); [|discriminate].
    injection D as <- _. now split.
  - destruct (nth_error (uiRefreshHandles v) handle) as [h|]; [|discriminate].
    injection D as <- _. rewrite view_bind.
    assert (H := uiRefresh_callback_core localize searchMatchComparer w h v).
    split; [apply core_validating in H|apply core_currentSearchQ in H]; exact H.
  - destruct (running v) as [r|]; [|discriminate].
    injection D as <- _. rewrite view_bind.
    assert (H := onComplete_core localize searchMatchComparer w r (Some completed) v).
    unfold core in H. injection H as _ _ Hv Hq _ _ _. now split.
  - destruct (running v) as [r|]; [|discriminate].
    injection D as <- _. rewrite view_bind.
    assert (H := onError_core localize searchMatchComparer isPromiseCanceledError w r e v).
    unfold core in H. injection H as _ _ Hv Hq _ _ _. now split.
  - injection D as <- _.
    assert (H := onSearchResultsChanged_core localize searchMatchComparer w (Some event) v).
    split; [apply core_validating in H|apply core_currentSearchQ in H];
      rewrite H; now destruct (isVisible w).
  - injection D as <- _.
    assert (H := onVisibilityChanged_core localize searchMatchComparer w visible v).
    split; [apply core_validating in H|apply core_currentSearchQ in H];
      rewrite H; now destruct visible.
Qed.


End QueryFacts.

Section QueryTheorem.
Variable localize : string -> string -> list LocalizeArg -> string.
Variable searchMatchComparer : RenderableMatch -> RenderableMatch -> Z.
Variable isPromiseCanceledError : Error -> bool.

Local Abbreviation run := (run localize searchMatchComparer isPromiseCanceledError).



End QueryTheorem.

(** * More properties

    Properties of the rest of the view and of the file commands. *)

Lemma tally_app (A : Type) (f : A -> bool) (a b : list A) :
  tally f (a ++ b) = (tally f a + tally f b)%nat.
Proof. unfold tally. now rewrite filter_app, length_app. Qed.

(** ** The order of searches *)

Section OrderFacts.
Variable localize : string -> string -> list LocalizeArg -> string.
Variable searchMatchComparer : RenderableMatch -> RenderableMatch -> Z.
Variable isPromiseCanceledError : Error -> bool.

Local Abbreviation dispatch := (dispatch localize searchMatchComparer isPromiseCanceledError).
Local Abbreviation run := (run localize searchMatchComparer isPromiseCanceledError).

Lemma searches_none (l : list Call.t) :
  (forall query, ~ In (Call.viewModel_search query) l) -> searches l = [].
Proof.
  induction l as [|c l IH]; intros H; [reflexivity|].
  simpl. rewrite IH by (intros q Hq; apply (H q); now right).
  destruct c; try reflexivity. exfalso. apply (H query). now left.
Qed.

Lemma searches_app (a b : list Call.t) : searches (a ++ b) = searches a ++ searches b.
Proof. apply flat_map_app. Qed.

Lemma validations_snoc (turns : list (World * Event)) (turn : World * Event) :
  validations localize (turns ++ [turn])
  = validation_turn localize (validations localize turns) turn.
Proof.
  unfold validations. now rewrite fold_left_app.
Qed.

Lemma dispatch_order (w : World) (ev : Event) (v v' : SearchView) (calls : list Call.t)
    (resolved : list ITextQuery) :
  dispatch w ev v = Some (v', calls) ->
  validation_turn localize
    (validating v, resolved ++ map queued_query (currentSearchQ v)) (w, ev)
  = (validating v', resolved ++ searches calls ++ map queued_query (currentSearchQ v')).
Proof.
  intros D.
  assert (C := dispatch_core localize searchMatchComparer isPromiseCanceledError
                 w ev v v' calls D).
  assert (Q : ev <> SearchQ_continues -> searches calls = []).
  { intros Hev. apply searches_none. intros query Hin.
    destruct (dispatch_builds_or_searches localize searchMatchComparer isPromiseCanceledError
                w ev v v' calls _ D Hin eq_refl) as [[E _]|[E _]];
      [discriminate E|contradiction]. }
  unfold validation_turn.
  destruct ev; cbn [fst snd]; try rewrite Q by discriminate; cbn [app];
    try (destruct C as [-> ->]; reflexivity).
  - destruct C as (p & -> & -> & ->). rewrite map_app, app_assoc. f_equal. f_equal.
    now destruct (validateQuery_settled localize (validating_query p) folderQueriesExist).
  - destruct C as (-> & q & Eq). simpl in D.
    destruct (running v); [discriminate|]. rewrite Eq in D.
    injection D as _ <-. rewrite calls_bind, doSearch_calls, Eq. reflexivity.
Qed.

(** X1. Searches start in the order in which the validation of their queries
    resolves, which is the order in which [onQueryTriggered] queues them and
    need not be the order of the submissions. In every run of a rendered
    view, the queries handed to [viewModel.search], in order, followed by
    the queries still waiting on [currentSearchQ], are the queries whose
    validation resolved, in the order in which it did: each is searched at
    most once, none is skipped and none overtakes another once it is queued.
    The promises that wait are those of the submissions that the file
    service has not answered. *)
Theorem searches_start_in_validation_order (w0 : World) (turns : list (World * Event))
    (v : SearchView) (clock : Z) (calls : list Call.t) :
  run 0 turns (rendered localize w0) = Some (v, clock, calls) ->
  searches calls ++ map queued_query (currentSearchQ v) = validated localize turns
  /\ validating v = unanswered localize turns.
Proof.
  apply (run_invariant localize searchMatchComparer isPromiseCanceledError 0
           (rendered localize w0)
           (fun turns _ v calls =>
              searches calls ++ map queued_query (currentSearchQ v)
              = validated localize turns
              /\ validating v = unanswered localize turns)).
  - assert (H := rendered_core localize w0). unfold core in H.
    injection H as _ _ Hv Hq _ _ _. rewrite Hv, Hq. now split.
  - intros turns0 clock0 v0 calls0 w ev v' calls' [IHq IHv] _ D.
    unfold validated, unanswered in *. rewrite validations_snoc.
    rewrite (surjective_pairing (validations localize turns0)), <- IHq, <- IHv.
    rewrite (dispatch_order w ev v0 v' calls' (searches calls0) D).
    cbn [fst snd]. now rewrite searches_app, <- app_assoc.
Qed.

End OrderFacts.

(** ** The interval of a search *)

Section TickFacts.
Variable localize : string -> string -> list LocalizeArg -> string.
Variable searchMatchComparer : RenderableMatch -> RenderableMatch -> Z.

Lemma refresh_and_count_no_updateActions (w : World) (event : option IChangeEvent) :
  filter is_super_updateActions (refresh_and_count searchMatchComparer w event) = [].
Proof.
  unfold refresh_and_count, tree_refresh. simpl.
  rewrite filter_app.
  destruct (0 <? SearchResult.fileCount (searchResult w)); simpl;
    (destruct event as [e|]; [|reflexivity]);
    (destruct (added e || removed e); [reflexivity|]);
    induction (elements e) as [|x l IH]; simpl; auto.
Qed.

Lemma uiRefresh_callback_calls (w : World) (h : UiRefresh) (v : SearchView) :
  calls_of (uiRefresh_callback localize searchMatchComparer w h) v
  = if SearchUIState_eqb (state v) Idle then [Call.clearInterval]
    else
      (if visibleMatches h =? SearchResult.fileCount (searchResult w) then []
       else refresh_and_count searchMatchComparer w None)
      ++ (if (0 <? SearchResult.fileCount (searchResult w))
             && negb (updatedActionsForFileCount h)
          then actions_updated else []).
Proof.
  unfold uiRefresh_callback. rewrite calls_bind.
  change (calls_of get v) with (@nil Call.t).
  change (view_after get v) with v. change (result_of get v) with v. simpl app.
  destruct (SearchUIState_eqb (state v) Idle); [reflexivity|].
  rewrite calls_bind. f_equal.
  - destruct (visibleMatches h =? SearchResult.fileCount (searchResult w)); simpl;
      [reflexivity|apply refreshAndUpdateCount_calls].
  - destruct (_ && _); reflexivity.
Qed.

Lemma uiRefresh_callback_result (w : World) (h : UiRefresh) (v : SearchView) :
  result_of (uiRefresh_callback localize searchMatchComparer w h) v
  = if SearchUIState_eqb (state v) Idle then None
    else Some {| visibleMatches := SearchResult.fileCount (searchResult w);
                 updatedActionsForFileCount :=
                   (0 <? SearchResult.fileCount (searchResult w))
                   || updatedActionsForFileCount h |}.
Proof.
  unfold uiRefresh_callback. rewrite result_bind.
  change (view_after get v) with v. change (result_of get v) with v.
  destruct (SearchUIState_eqb (state v) Idle); [reflexivity|].
  rewrite result_bind.
  destruct (Z.eqb_spec (visibleMatches h) (SearchResult.fileCount (searchResult w))) as [E|E];
    simpl negb; cbv iota;
    destruct (0 <? SearchResult.fileCount (searchResult w));
    destruct (updatedActionsForFileCount h); simpl; try rewrite result_bind; simpl;
    try rewrite E; reflexivity.
Qed.

Lemma ticks_after_update (ticks : list (World * SearchView)) (h : UiRefresh) :
  updatedActionsForFileCount h = true ->
  filter is_super_updateActions (uiRefresh_ticks localize searchMatchComparer ticks h) = [].
Proof.
  revert h. induction ticks as [|[w v] ticks IH]; intros h Hh; [reflexivity|].
  simpl. rewrite filter_app, uiRefresh_callback_calls, uiRefresh_callback_result, Hh.
  destruct (SearchUIState_eqb (state v) Idle); [reflexivity|].
  rewrite andb_false_r, app_nil_r, orb_true_r.
  rewrite IH by reflexivity. rewrite app_nil_r.
  destruct (visibleMatches h =? _); [reflexivity|apply refresh_and_count_no_updateActions].
Qed.

Lemma ticks_before_update (ticks : list (World * SearchView)) (h : UiRefresh) :
  updatedActionsForFileCount h = false ->
  filter is_super_updateActions (uiRefresh_ticks localize searchMatchComparer ticks h)
  = if sees_file ticks then [Call.super_updateActions] else [].
Proof.
  revert h. induction ticks as [|[w v] ticks IH]; intros h Hh; [reflexivity|].
  simpl. rewrite filter_app, uiRefresh_callback_calls, uiRefresh_callback_result, Hh.
  destruct (SearchUIState_eqb (state v) Idle); [reflexivity|].
  rewrite filter_app.
  assert (R : filter is_super_updateActions
                (if visibleMatches h =? SearchResult.fileCount (searchResult w) then []
                 else refresh_and_count searchMatchComparer w None) = []).
  { destruct (visibleMatches h =? _); [reflexivity|apply refresh_and_count_no_updateActions]. }
  rewrite R. simpl app.
  destruct (0 <? SearchResult.fileCount (searchResult w)); simpl.
  - now rewrite ticks_after_update.
  - now apply IH.
Qed.

(** X2. Over the ticks of the interval of one [doSearch], in whatever
    worlds and views they run, [super.updateActions] is called at most once:
    on the first tick that finds a file in the search result, if there is one
    before a tick finds the view idle and clears the interval. *)
Theorem uiRefresh_updates_actions_once (ticks : list (World * SearchView)) :
  let calls := uiRefresh_ticks localize searchMatchComparer ticks new_UiRefresh in
  (List.length (filter is_super_updateActions calls) <= 1)%nat
  /\ filter is_super_updateActions calls
     = if sees_file ticks then [Call.super_updateActions] else [].
Proof.
  intros calls. subst calls. rewrite ticks_before_update by reflexivity.
  split; [|reflexivity]. destruct (sees_file ticks); simpl; lia.
Qed.

End TickFacts.

(** ** The progress and the intervals of searches *)

Lemma makes_ret (f : Call.t -> bool) (A : Type) (a : A) : makes f (ret a) 0.
Proof. intros v. reflexivity. Qed.

Lemma makes_get (f : Call.t -> bool) : makes f get 0.
Proof. intros v. reflexivity. Qed.

Lemma makes_modify (f : Call.t -> bool) (g : SearchView -> SearchView) : makes f (modify g) 0.
Proof. intros v. reflexivity. Qed.

Lemma makes_on_messagesElement (f : Call.t -> bool) (g : MessagesElement -> MessagesElement) :
  makes f (on_messagesElement g) 0.
Proof. intros v. reflexivity. Qed.

Lemma makes_on_timeouts (f : Call.t -> bool) (g : list Timer -> list Timer) :
  makes f (on_timeouts g) 0.
Proof. intros v. reflexivity. Qed.

Lemma makes_call (f : Call.t -> bool) (c : Call.t) (n : nat) :
  (if f c then 1%nat else 0%nat) = n -> makes f (call c) n.
Proof. intros <- v. unfold tally. simpl. now destruct (f c). Qed.

Lemma makes_bind (f : Call.t -> bool) (A B : Type) (m : M A) (k : A -> M B) (a b n : nat) :
  makes f m a -> (forall x, makes f (k x) b) -> (a + b)%nat = n -> makes f (bind m k) n.
Proof.
  intros Hm Hk <- v. rewrite calls_bind, tally_app, Hm, Hk. reflexivity.
Qed.

Lemma makes_when (f : Call.t -> bool) (b : bool) (m : M unit) :
  makes f m 0 -> makes f (when b m) 0.
Proof. intros H. destruct b; [exact H|apply makes_ret]. Qed.

Lemma makes_forEach (f : Call.t -> bool) (X : Type) (l : list X) (g : X -> M unit) :
  (forall x, makes f (g x) 0) -> makes f (forEach l g) 0.
Proof.
  intros H. induction l as [|x l IH]; simpl.
  - apply makes_ret.
  - eapply makes_bind; [apply H|intros _; exact IH|reflexivity].
Qed.

Ltac makes :=
  repeat first
    [ apply makes_ret
    | apply makes_get
    | apply makes_modify
    | apply makes_on_messagesElement
    | apply makes_on_timeouts
    | apply makes_call; reflexivity
    | apply makes_when
    | apply makes_forEach; intros ?
    | eassumption
    | eapply makes_bind; [| intros ? |]
    | reflexivity
    | match goal with
      | |- makes _ (if ?b then _ else _) _ => destruct b
      | |- makes _ (match ?x with _ => _ end) _ => destruct x
      end ].

Section BalanceFacts.
Variable localize : string -> string -> list LocalizeArg -> string.
Variable searchMatchComparer : RenderableMatch -> RenderableMatch -> Z.
Variable isPromiseCanceledError : Error -> bool.

Ltac kinds H := destruct H as [->|[->|[->| ->]]].

Lemma makes_updateActions (f : Call.t -> bool) : counted f -> makes f updateActions 0.
Proof. intros H. unfold updateActions, actions. kinds H; makes. Qed.

Lemma makes_clearMessage (f : Call.t -> bool) : makes f clearMessage 0.
Proof. unfold clearMessage. makes. Qed.

Lemma makes_showSearchWithoutFolderMessage (f : Call.t -> bool) :
  makes f (showSearchWithoutFolderMessage localize) 0.
Proof.
  pose proof (makes_clearMessage f). unfold showSearchWithoutFolderMessage. makes.
Qed.

Lemma makes_showEmptyStage (f : Call.t -> bool) (w : World) (force : bool) :
  counted f -> makes f (showEmptyStage localize w force) 0.
Proof.
  intros H. pose proof (makes_updateActions f H). unfold showEmptyStage.
  kinds H; makes.
Qed.

Lemma makes_clearSearchResults (f : Call.t -> bool) (w : World) :
  counted f -> makes f (clearSearchResults localize w) 0.
Proof.
  intros H. pose proof (makes_updateActions f H).
  pose proof (makes_showEmptyStage f w true H).
  pose proof (makes_showSearchWithoutFolderMessage f).
  unfold clearSearchResults. kinds H; makes.
Qed.

Lemma makes_refreshAndUpdateCount (f : Call.t -> bool) (w : World)
    (event : option IChangeEvent) :
  counted f -> makes f (refreshAndUpdateCount localize searchMatchComparer w event) 0.
Proof.
  intros H. pose proof (makes_clearMessage f).
  unfold refreshAndUpdateCount, updateSearchResultCount, refreshTree.
  kinds H; makes.
Qed.

Lemma makes_onSearchResultsChanged (f : Call.t -> bool) (w : World)
    (event : option IChangeEvent) :
  counted f -> makes f (onSearchResultsChanged localize searchMatchComparer w event) 0.
Proof.
  intros H. pose proof (makes_refreshAndUpdateCount f w event H).
  unfold onSearchResultsChanged. makes.
Qed.

Lemma makes_onVisibilityChanged (f : Call.t -> bool) (w : World) (visible : bool) :
  counted f -> makes f (onVisibilityChanged localize searchMatchComparer w visible) 0.
Proof.
  intros H. pose proof (makes_refreshAndUpdateCount f w None H).
  unfold onVisibilityChanged. kinds H; makes.
Qed.

Lemma makes_onQueryChanged (f : Call.t -> bool) (w : World)
    (preserveFocus triggeredOnType : bool) :
  counted f -> makes f (onQueryChanged localize w preserveFocus triggeredOnType) 0.
Proof.
  intros H. pose proof (makes_clearSearchResults f w H).
  pose proof (makes_clearMessage f).
  unfold onQueryChanged, validateQuery, onQueryValidationError.
  kinds H; makes.
Qed.

Lemma makes_onQueryChanged_then (f : Call.t -> bool) (p : Validating)
    (validated : Error + ITextQuery) :
  counted f -> makes f (onQueryChanged_then p validated) 0.
Proof.
  intros H. unfold onQueryChanged_then, onQueryTriggered, onQueryValidationError.
  kinds H; makes.
Qed.

Lemma makes_slowTimer_callback (f : Call.t -> bool) :
  counted f -> makes f slowTimer_callback 0.
Proof.
  intros H. pose proof (makes_updateActions f H). unfold slowTimer_callback. makes.
Qed.

Lemma makes_doSearch (f : Call.t -> bool) (w : World) (q : QueuedSearch) :
  counted f ->
  makes f (doSearch localize w q)
        (if f (Call.progressService_withProgress 0) || f (Call.setInterval 0) then 1 else 0).
Proof.
  intros H v. unfold tally. rewrite doSearch_calls.
  kinds H; simpl; now destruct (queued_triggeredOnType q).
Qed.

Lemma makes_onComplete (f : Call.t -> bool) (w : World) (r : RunningSearch)
    (completed : option ISearchComplete) :
  counted f ->
  makes f (onComplete localize searchMatchComparer w r completed)
        (if f Call.progressComplete then 1 else 0).
Proof.
  intros H. pose proof (makes_updateActions f H).
  pose proof (makes_onSearchResultsChanged f w None H).
  pose proof (makes_clearMessage f).
  pose proof (makes_showSearchWithoutFolderMessage f).
  unfold onComplete. kinds H; makes.
Qed.

Lemma makes_onError (f : Call.t -> bool) (w : World) (r : RunningSearch) (e : Error) :
  counted f ->
  makes f (onError localize searchMatchComparer isPromiseCanceledError w r e)
        (if f Call.progressComplete then 1 else 0).
Proof.
  intros H. pose proof (makes_updateActions f H).
  pose proof (makes_onComplete f w r None H).
  unfold onError. kinds H; makes.
Qed.

End BalanceFacts.

Section BalanceTheorem.
Variable localize : string -> string -> list LocalizeArg -> string.
Variable searchMatchComparer : RenderableMatch -> RenderableMatch -> Z.
Variable isPromiseCanceledError : Error -> bool.

Local Abbreviation dispatch := (dispatch localize searchMatchComparer isPromiseCanceledError).
Local Abbreviation run := (run localize searchMatchComparer isPromiseCanceledError).

Lemma core_uiRefreshHandles (a b : SearchView) :
  core a = core b -> uiRefreshHandles a = uiRefreshHandles b.
Proof. unfold core. congruence. Qed.

Lemma tally_uiRefresh_callback (f : Call.t -> bool) (w : World) (h : UiRefresh)
    (v : SearchView) :
  counted f ->
  tally f (calls_of (uiRefresh_callback localize searchMatchComparer w h) v)
  = if SearchUIState_eqb (state v) Idle then (if f Call.clearInterval then 1 else 0)%nat
    else 0%nat.
Proof.
  intros H. rewrite uiRefresh_callback_calls.
  destruct (SearchUIState_eqb (state v) Idle).
  - unfold tally. simpl. now destruct (f Call.clearInterval).
  - rewrite tally_app.
    assert (R : tally f (if visibleMatches h =? SearchResult.fileCount (searchResult w)
                         then [] else refresh_and_count searchMatchComparer w None) = 0%nat).
    { destruct (_ =? _); [reflexivity|].
      unfold refresh_and_count.
      rewrite <- (refreshAndUpdateCount_calls localize searchMatchComparer w None v).
      now apply makes_refreshAndUpdateCount. }
    rewrite R.
    destruct (_ && _); [|reflexivity].
    rewrite <- (updateActions_calls v). now apply makes_updateActions.
Qed.

Lemma length_replace_nth (A : Type) (n : nat) (x : option A) (l : list A) (a : A) :
  nth_error l n = Some a ->
  (List.length (replace_nth n x l) + match x with Some _ => 0 | None => 1 end
   = List.length l)%nat.
Proof.
  revert n. induction l as [|y l IH]; intros n H; [destruct n; discriminate|].
  destruct n as [|n]; simpl in *.
  - destruct x; simpl; lia.
  - specialize (IH n H). lia.
Qed.

Lemma dispatch_balanced (w : World) (ev : Event) (v v' : SearchView)
    (before calls : list Call.t) :
  balanced v before -> dispatch w ev v = Some (v', calls) -> balanced v' (before ++ calls).
Proof.
  intros [Hp Hi] D.
  assert (P : counted starts_progress) by (left; reflexivity).
  assert (C : counted completes_progress) by (right; left; reflexivity).
  assert (S : counted sets_interval) by (right; right; left; reflexivity).
  assert (K : counted clears_interval) by (right; right; right; reflexivity).
  assert (Quiet : forall (m : M unit),
             (forall f, counted f -> makes f m 0) ->
             calls = calls_of m v ->
             (running v' = None <-> running v = None) ->
             uiRefreshHandles v' = uiRefreshHandles v ->
             balanced v' (before ++ calls)).
  { intros m Hm -> Hr Hh. unfold balanced. rewrite !tally_app, Hh.
    assert (R : match running v' with Some _ => 1%nat | None => 0%nat end
                = match running v with Some _ => 1%nat | None => 0%nat end).
    { destruct (running v'), (running v); try reflexivity;
        destruct Hr as [H1 H2]; [now discriminate H2|now discriminate H1]. }
    rewrite R.
    rewrite (Hm _ P), (Hm _ C), (Hm _ S), (Hm _ K). lia. }
  destruct ev; simpl in D.
  - (* QueryChanged *)
    injection D as <- <-.
    assert (H := onQueryChanged_core localize w preserveFocus triggeredOnType v).
    unfold core in H. injection H as _ _ _ _ Hr _ Hh.
    refine (Quiet _ _ eq_refl _ Hh); [|now rewrite Hr]. intros f Hf.
    now apply makes_onQueryChanged.
  - (* FolderQueriesExist_settle *)
    destruct (nth_error (validating v) validation) as [p|]; [|discriminate].
    destruct (can_settle _ _); [|discriminate].
    injection D as <- <-.
    match goal with
    | |- context [onQueryChanged_then p ?x] =>
      assert (H := onQueryChanged_then_core p x
                     (view_after (modify (fun v => set_validating
                                    (replace_nth validation None (validating v)) v)) v))
    end.
    unfold core in H. injection H as _ _ _ _ Hr _ Hh.
    refine (Quiet _ _ eq_refl _ _);
      [|rewrite view_bind; now rewrite Hr|rewrite view_bind; exact Hh].
    intros f Hf.
    eapply makes_bind; [apply makes_modify|intros ?; now apply makes_onQueryChanged_then|].
    reflexivity.
  - (* SearchQ_continues *)
    destruct (running v) eqn:Er; [discriminate|].
    destruct (currentSearchQ v) as [|q rest]; [discriminate|].
    injection D as <- <-. unfold balanced. rewrite !tally_app, view_bind, calls_bind.
    assert (H := doSearch_core localize w q (view_after (modify (set_currentSearchQ rest)) v)).
    unfold core in H. injection H as _ _ _ _ Hr _ Hh. rewrite Hr, Hh, length_app.
    change (calls_of (modify (set_currentSearchQ rest)) v) with (@nil Call.t).
    cbn [app].
    rewrite (makes_doSearch localize _ w q P), (makes_doSearch localize _ w q C),
      (makes_doSearch localize _ w q S), (makes_doSearch localize _ w q K).
    cbn. lia.
  - (* SlowTimer_fires *)
    destruct (nth_error (timeouts v) handle) as [[due|due|]|]; try discriminate.
    destruct (due <=? now w); [|discriminate].
    injection D as <- <-.
    refine (Quiet _ _ eq_refl _ _).
    + intros f Hf.
      eapply makes_bind;
        [apply makes_on_timeouts|intros ?; now apply makes_slowTimer_callback|].
      reflexivity.
    + reflexivity.
    + reflexivity.
  - (* UiRefresh_fires *)
    destruct (nth_error (uiRefreshHandles v) handle) as [h|] eqn:Eh; [|discriminate].
    injection D as <- <-. unfold balanced. rewrite !tally_app, view_bind, calls_bind.
    assert (H := uiRefresh_callback_core localize searchMatchComparer w h v).
    assert (Hr := core_running _ _ H). apply core_uiRefreshHandles in H.
    change (calls_of (modify ?g) ?x) with (@nil Call.t). rewrite app_nil_r.
    rewrite !tally_uiRefresh_callback by assumption.
    unfold view_after at 1 3. cbn [modify fst snd set_uiRefreshHandles running
                                   uiRefreshHandles].
    rewrite Hr, H, uiRefresh_callback_result.
    assert (L := fun x => length_replace_nth _ handle x (uiRefreshHandles v) h Eh).
    destruct (SearchUIState_eqb (state v) Idle).
    + specialize (L None). cbn in *. lia.
    + specialize (L (Some {| visibleMatches := SearchResult.fileCount (searchResult w);
                             updatedActionsForFileCount :=
                               (0 <? SearchResult.fileCount (searchResult w))
                               || updatedActionsForFileCount h |})).
      cbn in *. lia.
  - (* Search_resolves *)
    destruct (running v) as [r|] eqn:Er; [|discriminate].
    injection D as <- <-. unfold balanced. rewrite !tally_app, view_bind, calls_bind.
    assert (H := onComplete_core localize searchMatchComparer w r (Some completed) v).
    unfold core in H. injection H as _ _ _ _ _ _ H.
    change (calls_of (modify ?g) ?x) with (@nil Call.t). rewrite app_nil_r.
    rewrite (makes_onComplete localize searchMatchComparer _ w r (Some completed) P),
      (makes_onComplete localize searchMatchComparer _ w r (Some completed) C),
      (makes_onComplete localize searchMatchComparer _ w r (Some completed) S),
      (makes_onComplete localize searchMatchComparer _ w r (Some completed) K).
    unfold view_after at 1 3. cbn [modify fst snd set_running running uiRefreshHandles].
    rewrite H. cbn. lia.
  - (* Search_rejects *)
    destruct (running v) as [r|] eqn:Er; [|discriminate].
    injection D as <- <-. unfold balanced. rewrite !tally_app, view_bind, calls_bind.
    assert (H := onError_core localize searchMatchComparer isPromiseCanceledError w r e v).
    unfold core in H. injection H as _ _ _ _ _ _ H.
    change (calls_of (modify ?g) ?x) with (@nil Call.t). rewrite app_nil_r.
    rewrite (makes_onError localize searchMatchComparer isPromiseCanceledError _ w r e P),
      (makes_onError localize searchMatchComparer isPromiseCanceledError _ w r e C),
      (makes_onError localize searchMatchComparer isPromiseCanceledError _ w r e S),
      (makes_onError localize searchMatchComparer isPromiseCanceledError _ w r e K).
    unfold view_after at 1 3. cbn [modify fst snd set_running running uiRefreshHandles].
    rewrite H. cbn. lia.
  - (* SearchResult_onChange *)
    injection D as <- <-.
    assert (H := onSearchResultsChanged_core localize searchMatchComparer w (Some event) v).
    refine (Quiet _ _ eq_refl _ _).
    + intros f Hf. now apply makes_onSearchResultsChanged.
    + apply core_running in H. rewrite H. now destruct (isVisible w).
    + apply core_uiRefreshHandles in H. rewrite H. now destruct (isVisible w).
  - (* BodyVisibility_changes *)
    injection D as <- <-.
    assert (H := onVisibilityChanged_core localize searchMatchComparer w visible v).
    refine (Quiet _ _ eq_refl _ _).
    + intros f Hf. now apply makes_onVisibilityChanged.
    + apply core_running in H. rewrite H. now destruct visible.
    + apply core_uiRefreshHandles in H. rewrite H. now destruct visible.
Qed.

(** X3. In every run of a rendered view, the progress indications started
    are those completed, and one more exactly while a search runs; the
    intervals set are those cleared and those the view still holds. So a
    search that settles, by resolving or by rejecting, with a cancellation or
    another error, completes its progress once, and no more intervals are
    cleared than were set. *)
Theorem search_progress_and_intervals_balance (w0 : World) (turns : list (World * Event))
    (v : SearchView) (clock : Z) (calls : list Call.t)
    (reached : run 0 turns (rendered localize w0) = Some (v, clock, calls)) :
  tally starts_progress calls
  = (tally completes_progress calls + match running v with Some _ => 1 | None => 0 end)%nat
  /\ tally sets_interval calls
     = (tally clears_interval calls + List.length (uiRefreshHandles v))%nat.
Proof.
  revert turns v clock calls reached.
  apply (run_invariant localize searchMatchComparer isPromiseCanceledError 0
           (rendered localize w0)
           (fun _ _ v calls => balanced v calls)).
  - assert (H := rendered_core localize w0). unfold core in H.
    injection H as _ _ _ _ Hr _ Hh. unfold balanced. rewrite Hr, Hh. split; reflexivity.
  - intros turns0 clock0 v0 calls0 w ev v' calls' H _ D.
    exact (dispatch_balanced w ev v0 v' calls0 calls' H D).
Qed.

End BalanceTheorem.

(** ** The message of a cancelled search *)

Lemma string_app_assoc (a b c : string) : ((a ++ b) ++ c = a ++ (b ++ c))%string.
Proof.
  induction a as [|x a IH]; simpl; [reflexivity|now rewrite IH].
Qed.

Lemma prefix_append (p rest : string) : String.prefix p (p ++ rest)%string = true.
Proof.
  induction p as [|c p IH]; simpl.
  - now destruct rest.
  - destruct (ascii_dec c c) as [_|N]; [exact IH|contradiction].
Qed.

Lemma indexOf_prefix (p rest : string) : JS.indexOf (p ++ rest)%string p = 0.
Proof.
  unfold JS.indexOf.
  assert (H := prefix_append p rest).
  destruct p as [|c p]; [now destruct rest|].
  change (String c p ++ rest)%string with (String c (p ++ rest)) in *.
  cbn [String.index]. now rewrite H.
Qed.

Section CancelFacts.
Variable localize : string -> string -> list LocalizeArg -> string.
Variable searchMatchComparer : RenderableMatch -> RenderableMatch -> Z.
Variable isPromiseCanceledError : Error -> bool.

Lemma onComplete_cancelled_messages (w : World) (r : RunningSearch) (v : SearchView) :
  SearchResult.isEmpty (searchResult w) = true ->
  getWorkbenchState w <> EMPTY ->
  let v' := view_after (onComplete localize searchMatchComparer w r None) v in
  messagesElement v' = cancelled_shown localize
  /\ messageDisposables v' = [SearchAgain]
  /\ searchWithoutFolderMessageElement v' = false.
Proof.
  intros Hempty Hstate v'. subst v'.
  assert (Hs : WorkbenchState_eqb (getWorkbenchState w) EMPTY = false)
    by (destruct (getWorkbenchState w); [contradiction|reflexivity|reflexivity]).
  unfold onComplete. rewrite Hempty, Hs. simpl negb. cbv iota.
  repeat rewrite view_bind.
  rewrite clearMessage_view.
  match goal with
  | |- context [set_searchWithoutFolderMessageElement false ?x] => set (v0 := x)
  end.
  clearbody v0. repeat split.
Qed.

Lemma doSearch_messages (w : World) (q : QueuedSearch) (v : SearchView) :
  messagesElement (view_after (doSearch localize w q) v)
  = if (-1 <? match childNodes (messagesElement v) with
              | firstChild :: _ =>
                JS.indexOf (textContent firstChild) (SEARCH_CANCELLED_MESSAGE localize)
              | [] => -1
              end)
       || negb (searchOnType w)
    then dom_hide (messagesElement v) else messagesElement v.
Proof.
  unfold doSearch, showEmptyStage. run_method.
  rewrite orb_false_r.
  destruct (_ || _); reflexivity.
Qed.

(** X4. A search that ends without a result in a workbench that is not
    empty, because it was cancelled, leaves the cancelled message with its
    [Search again] link in the message area, whether the search resolved with
    nothing or was rejected with a cancellation error. The next [doSearch]
    then hides the message area, whatever [searchOnType] is. *)
Theorem cancelled_message_hidden_by_next_search (w : World) (r : RunningSearch)
    (v : SearchView)
    (noResults : SearchResult.isEmpty (searchResult w) = true)
    (inWorkspace : getWorkbenchState w <> EMPTY) :
  let cancelled := view_after (onComplete localize searchMatchComparer w r None) v in
  messagesElement cancelled = cancelled_shown localize
  /\ messageDisposables cancelled = [SearchAgain]
  /\ (forall e, isPromiseCanceledError e = true ->
        messagesElement
          (view_after (onError localize searchMatchComparer isPromiseCanceledError w r e) v)
        = cancelled_shown localize)
  /\ (forall w' q v',
        messagesElement v' = cancelled_shown localize ->
        messagesElement (view_after (doSearch localize w' q) v')
        = dom_hide (cancelled_shown localize)).
Proof.
  intros cancelled. subst cancelled.
  destruct (onComplete_cancelled_messages w r v noResults inWorkspace) as (Hm & Hd & _).
  split; [exact Hm|]. split; [exact Hd|]. split.
  - intros e He. unfold onError. rewrite He. do 3 rewrite view_bind.
    apply onComplete_cancelled_messages; assumption.
  - intros w' q v' Hv'. rewrite doSearch_messages, Hv'.
    unfold cancelled_shown at 1. cbn [childNodes textContent dollar].
    rewrite string_app_assoc, indexOf_prefix. reflexivity.
Qed.

End CancelFacts.

(** ** The message of a search without results *)

Section NoResultFacts.
Variable localize : string -> string -> list LocalizeArg -> string.
Variable searchMatchComparer : RenderableMatch -> RenderableMatch -> Z.

Lemma in_calls_later (A B : Type) (m : M A) (k : A -> M B) (v : SearchView) (c : Call.t) :
  In c (calls_of (k (result_of m v)) (view_after m v)) -> In c (calls_of (bind m k) v).
Proof.
  intros H. rewrite calls_bind. apply in_or_app. now right.
Qed.

Lemma in_calls_first (B : Type) (c : Call.t) (k : unit -> M B) (v : SearchView) :
  In c (calls_of (bind (call c) k) v).
Proof.
  rewrite calls_bind. apply in_or_app. left. now left.
Qed.

(** X15. A search that ends without results announces a message and shows
    that same message in the message area, followed by the links that fit:
    to search again after a cancellation, else to search again in all files
    or to open the settings, and to learn more. In a workbench without a
    folder the message area is cleared again and shows the message of the
    missing folder alone, with its one listener: the message without results
    is announced but not shown. *)
Theorem no_result_message_shown (w : World) (r : RunningSearch)
    (completed : option ISearchComplete) (v : SearchView)
    (noResults : SearchResult.isEmpty (searchResult w) = true) :
  let done := onComplete localize searchMatchComparer w r completed in
  exists message,
    In (Call.aria_status message) (calls_of done v)
    /\ (completed = None -> message = SEARCH_CANCELLED_MESSAGE localize)
    /\ (getWorkbenchState w <> EMPTY ->
        messagesElement (view_after done v)
        = {| display_none := false;
             childNodes :=
               [el ".message"
                  [el "p" (textNode message :: no_result_links localize r completed)]] |})
    /\ (getWorkbenchState w = EMPTY ->
        messagesElement (view_after done v) = without_folder_shown localize
        /\ messageDisposables (view_after done v) = [OpenFolder]).
Proof.
  intros done. subst done. unfold onComplete. rewrite noResults. cbn [negb].
  match goal with
  | |- context [Call.aria_status ?m] => exists m
  end.
  split; [|split; [|split]].
  - do 9 apply in_calls_later. apply in_calls_first.
  - intros ->. reflexivity.
  - intros Hstate.
    assert (Hs : WorkbenchState_eqb (getWorkbenchState w) EMPTY = false)
      by (destruct (getWorkbenchState w); [contradiction|reflexivity|reflexivity]).
    rewrite Hs. repeat rewrite view_bind. rewrite clearMessage_view.
    match goal with
    | |- context [set_searchWithoutFolderMessageElement false ?x] => set (v0 := x)
    end.
    clearbody v0. unfold no_result_links.
    destruct completed as [c|]; [|reflexivity].
    destruct (JS.truthy (includePatternText r)), (JS.truthy (excludePatternText r));
      reflexivity.
  - intros Hstate. rewrite Hstate. cbn [WorkbenchState_eqb when].
    unfold showSearchWithoutFolderMessage.
    repeat rewrite view_bind. rewrite clearMessage_view.
    match goal with
    | |- context [set_searchWithoutFolderMessageElement false ?x] => set (v0 := x)
    end.
    clearbody v0. split; reflexivity.
Qed.

End NoResultFacts.

(** ** The text of a selection *)

Lemma chars_app (a b : string) :
  list_ascii_of_string (a ++ b)%string = list_ascii_of_string a ++ list_ascii_of_string b.
Proof.
  induction a as [|c a IH]; simpl; [reflexivity|now rewrite IH].
Qed.

Lemma chars_length (s : string) : List.length (list_ascii_of_string s) = String.length s.
Proof.
  induction s as [|c s IH]; simpl; [reflexivity|now rewrite IH].
Qed.

Lemma chars_inj (a b : string) : list_ascii_of_string a = list_ascii_of_string b -> a = b.
Proof.
  intros H. rewrite <- (string_of_list_ascii_of_string a), H.
  apply string_of_list_ascii_of_string.
Qed.

Lemma chars_substring (n m : nat) (s : string) :
  list_ascii_of_string (String.substring n m s) = firstn m (skipn n (list_ascii_of_string s)).
Proof.
  revert n m. induction s as [|c s IH]; intros n m.
  - destruct n, m; reflexivity.
  - destruct n as [|n].
    + destruct m as [|m]; [reflexivity|]. simpl. now rewrite IH.
    + simpl. apply IH.
Qed.

(** [s.substring(start, end)] within bounds. *)
Lemma chars_JS_substring (s : string) (a b : Z) :
  0 <= a <= b -> b <= JS.length s ->
  list_ascii_of_string (JSString.substring s a (Some b))
  = firstn (Z.to_nat (b - a)) (skipn (Z.to_nat a) (list_ascii_of_string s)).
Proof.
  intros Ha Hb. unfold JSString.substring, JSString.clamp.
  rewrite chars_substring.
  replace (Z.min (Z.max a 0) (JS.length s)) with a by lia.
  replace (Z.min (Z.max b 0) (JS.length s)) with b by lia.
  replace (Z.min a b) with a by lia. replace (Z.max a b) with b by lia.
  reflexivity.
Qed.

Lemma chars_JS_substring_from (s : string) (a : Z) :
  0 <= a <= JS.length s ->
  list_ascii_of_string (JSString.substring s a None)
  = skipn (Z.to_nat a) (list_ascii_of_string s).
Proof.
  intros Ha. unfold JSString.substring, JSString.clamp.
  rewrite chars_substring.
  replace (Z.min (Z.max a 0) (JS.length s)) with a by lia.
  replace (Z.min a (JS.length s)) with a by lia.
  replace (Z.max a (JS.length s)) with (JS.length s) by lia.
  apply firstn_all2. rewrite length_skipn, chars_length. unfold JS.length. lia.
Qed.

Lemma chars_document (ls : list string) : list_ascii_of_string (document ls) = flat ls.
Proof.
  unfold document. induction ls as [|L rest IH]; [reflexivity|].
  destruct rest as [|M rest]; [reflexivity|].
  change (JS.join lineFeed (L :: M :: rest))
    with (L ++ lineFeed ++ JS.join lineFeed (M :: rest))%string.
  rewrite !chars_app, IH. reflexivity.
Qed.

Lemma flat_cons (L M : string) (rest : list string) :
  flat (L :: M :: rest) = list_ascii_of_string L ++ nl :: flat (M :: rest).
Proof. reflexivity. Qed.

Lemma firstn_within (A : Type) (n : nat) (l1 l2 : list A) :
  (n <= List.length l1)%nat -> firstn n (l1 ++ l2) = firstn n l1.
Proof.
  intros H. rewrite firstn_app. replace (n - List.length l1)%nat with 0%nat by lia.
  simpl. apply app_nil_r.
Qed.

Lemma skipn_within (A : Type) (n : nat) (l1 l2 : list A) :
  (n <= List.length l1)%nat -> skipn n (l1 ++ l2) = skipn n l1 ++ l2.
Proof.
  intros H. rewrite skipn_app. replace (n - List.length l1)%nat with 0%nat by lia.
  reflexivity.
Qed.

Lemma skipn_past (A : Type) (n : nat) (l1 l2 : list A) :
  skipn (List.length l1 + n) (l1 ++ l2) = skipn n l2.
Proof.
  rewrite skipn_app. rewrite skipn_all2 by lia.
  replace (List.length l1 + n - List.length l1)%nat with n by lia. reflexivity.
Qed.

Lemma flat_more (L : string) (rest : list string) :
  (0 < List.length rest)%nat -> flat (L :: rest) = list_ascii_of_string L ++ nl :: flat rest.
Proof.
  destruct rest; [simpl; lia|reflexivity].
Qed.

Lemma off_S (L : string) (rest : list string) (k : nat) :
  off (L :: rest) (S k) = (String.length L + 1 + off rest k)%nat.
Proof. reflexivity. Qed.

Lemma upto_flat (ls : list string) (k b : nat) :
  (k < List.length ls)%nat -> (b <= String.length (nth k ls ""))%nat ->
  firstn (off ls k + b) (flat ls) = upto k b ls.
Proof.
  revert k. induction ls as [|L rest IH]; intros k Hk Hb; [simpl in Hk; lia|].
  simpl in Hk. destruct k as [|k].
  - simpl in Hb. simpl off. simpl upto.
    destruct rest as [|M rest].
    + reflexivity.
    + rewrite flat_cons. apply firstn_within. now rewrite chars_length.
  - simpl in Hb. rewrite flat_more, off_S by lia. simpl upto.
    rewrite <- (chars_length L), <- !Nat.add_assoc, firstn_app_2.
    f_equal. simpl. f_equal. apply IH; [lia|exact Hb].
Qed.

Lemma between_flat (ls : list string) (s e a b : nat) :
  (s <= e)%nat -> (e < List.length ls)%nat ->
  (a <= String.length (nth s ls ""))%nat -> (b <= String.length (nth e ls ""))%nat ->
  (s = e -> a <= b)%nat ->
  firstn (off ls e + b - (off ls s + a)) (skipn (off ls s + a) (flat ls))
  = between s e a b ls.
Proof.
  revert s e. induction ls as [|L rest IH]; intros s e Hse He Ha Hb Hab;
    [simpl in He; lia|].
  simpl in He. destruct s as [|s], e as [|e]; try lia.
  - simpl in Ha, Hb. simpl off. simpl between. simpl Nat.add.
    destruct rest as [|M rest].
    + reflexivity.
    + rewrite flat_cons, skipn_within by now rewrite chars_length.
      apply firstn_within. rewrite length_skipn, chars_length.
      specialize (Hab eq_refl). lia.
  - simpl in Ha, Hb. rewrite flat_more, off_S by lia.
    simpl between. change (off (L :: rest) 0) with 0%nat. simpl Nat.add.
    rewrite skipn_within by now rewrite chars_length.
    replace (String.length L + 1 + off rest e + b - a)%nat
      with (List.length (skipn a (list_ascii_of_string L)) + S (off rest e + b))%nat
      by (rewrite length_skipn, chars_length; lia).
    rewrite firstn_app_2. f_equal. simpl firstn. f_equal.
    apply upto_flat; [lia|exact Hb].
  - simpl in Ha, Hb. rewrite flat_more, !off_S by lia. simpl between.
    replace (String.length L + 1 + off rest s + a)%nat
      with (List.length (list_ascii_of_string L ++ [nl]) + (off rest s + a))%nat
      by (rewrite length_app, chars_length; simpl; lia).
    replace (list_ascii_of_string L ++ nl :: flat rest)
      with ((list_ascii_of_string L ++ [nl]) ++ flat rest)
      by (now rewrite <- app_assoc).
    rewrite skipn_past.
    replace (String.length L + 1 + off rest e + b
             - (List.length (list_ascii_of_string L ++ [nl]) + (off rest s + a)))%nat
      with (off rest e + b - (off rest s + a))%nat
      by (rewrite length_app, chars_length; simpl; lia).
    apply IH; try assumption; lia.
Qed.

Lemma off_in_document (ls : list string) (e b : nat) :
  (e < List.length ls)%nat -> (b <= String.length (nth e ls ""))%nat ->
  (off ls e + b <= List.length (flat ls))%nat.
Proof.
  revert e. induction ls as [|L rest IH]; intros e He Hb; [simpl in He; lia|].
  simpl in He. destruct e as [|e].
  - simpl in *. destruct rest; [rewrite chars_length; lia|].
    rewrite length_app, chars_length. lia.
  - simpl in Hb. rewrite flat_more, off_S, length_app, chars_length by lia.
    simpl List.length. specialize (IH e ltac:(lia) Hb). lia.
Qed.

Lemma off_ordered (ls : list string) (s e a b : nat) :
  (s <= e)%nat -> (e < List.length ls)%nat ->
  (a <= String.length (nth s ls ""))%nat ->
  (s = e -> a <= b)%nat ->
  (off ls s + a <= off ls e + b)%nat.
Proof.
  revert s e. induction ls as [|L rest IH]; intros s e Hse He Ha Hab;
    [simpl in He; lia|].
  simpl in He. destruct s as [|s], e as [|e]; try lia.
  - simpl in Ha. rewrite off_S. change (off (L :: rest) 0) with 0%nat. lia.
  - simpl in Ha. rewrite !off_S.
    specialize (IH s e ltac:(lia) ltac:(lia) Ha ltac:(lia)). lia.
Qed.

Lemma skipn_nth (A : Type) (d : A) (j : nat) (ls : list A) :
  (j < List.length ls)%nat -> skipn j ls = nth j ls d :: skipn (S j) ls.
Proof.
  revert j. induction ls as [|x ls IH]; intros j H; [simpl in H; lia|].
  destruct j as [|j]; [reflexivity|]. simpl in H.
  change (skipn (S j) (x :: ls)) with (skipn j ls). rewrite IH by lia. reflexivity.
Qed.

Lemma between_skip (s e a b : nat) (ls : list string) :
  (s <= e)%nat -> between s e a b ls = between 0 (e - s) a b (skipn s ls).
Proof.
  revert e ls. induction s as [|s IH]; intros e ls H.
  - now rewrite Nat.sub_0_r.
  - destruct e as [|e]; [lia|]. destruct ls as [|L rest]; [reflexivity|].
    simpl. apply IH. lia.
Qed.

Lemma offsetAt_off (ls : list string) (k : nat) :
  fold_right (fun line acc => JS.length line + 1 + acc) 0 (firstn k ls) = Z.of_nat (off ls k).
Proof.
  revert k. induction ls as [|L rest IH]; intros k.
  - destruct k; reflexivity.
  - destruct k as [|k]; [reflexivity|].
    simpl firstn. simpl fold_right. rewrite IH, off_S. unfold JS.length. lia.
Qed.

Section SearchTextFacts.
Variable model : ITextModel.
Variable range : IRange.
Variable lines : list string.
Hypothesis model_holds : holds model lines.
Hypothesis range_within : within lines range.

Let sl := startLineNumber range.
Let el := endLineNumber range.
Let sc := startColumn range.
Let ec := endColumn range.

Lemma line_at (i : Z) :
  1 <= i <= JS.alength lines -> getLineContent model i = nth (Z.to_nat (i - 1)) lines "".
Proof.
  intros Hi. unfold JS.alength in Hi.
  rewrite <- (model_holds (Z.to_nat (i - 1))) by lia. f_equal. lia.
Qed.

Lemma selectedLines_S (n : nat) (i : Z) (acc : string) :
  selectedLines model range (S n) i acc
  = selectedLines model range n (i + 1) (acc ++ appended model range i).
Proof. reflexivity. Qed.

Lemma selectedLines_tail (k : nat) (i : Z) (acc : string) :
  sl < i -> i + Z.of_nat k = el ->
  list_ascii_of_string (selectedLines model range (S k) i acc)
  = list_ascii_of_string acc
    ++ nl :: upto k (Z.to_nat (ec - 1)) (skipn (Z.to_nat (i - 1)) lines).
Proof.
  destruct range_within as (Hl & Hel & Hsc & Hec & Hsame).
  fold sl el sc ec in Hl, Hel, Hsc, Hec, Hsame.
  revert i acc. induction k as [|k IH]; intros i acc Hi Hk.
  - assert (i = el) by lia. subst i.
    rewrite selectedLines_S. cbn [selectedLines]. unfold appended. fold sl el sc ec.
    rewrite Z.eqb_refl. replace (el =? sl) with false by (symmetry; apply Z.eqb_neq; lia).
    cbn [negb]. rewrite chars_app. f_equal. cbn [list_ascii_of_string]. fold nl. f_equal.
    unfold JS.alength in Hel.
    rewrite (skipn_nth _ "") by lia. cbn [upto].
    rewrite line_at by (unfold JS.alength; lia).
    rewrite chars_JS_substring by lia. rewrite Z.sub_0_r. reflexivity.
  - rewrite selectedLines_S. unfold appended. fold sl el sc ec.
    replace (i =? el) with false by (symmetry; apply Z.eqb_neq; lia).
    replace (i =? sl) with false by (symmetry; apply Z.eqb_neq; lia).
    cbn [negb]. rewrite IH by lia. rewrite chars_app, <- app_assoc. f_equal.
    cbn [list_ascii_of_string]. fold nl. cbn [app]. f_equal.
    unfold JS.alength in Hel.
    rewrite (skipn_nth _ "" (Z.to_nat (i - 1))) by lia. cbn [upto].
    rewrite line_at by (unfold JS.alength; lia).
    replace (Z.to_nat (i + 1 - 1)) with (S (Z.to_nat (i - 1))) by lia. reflexivity.
Qed.

Lemma JS_substring_length (s : string) (b : Z) :
  0 <= b <= JS.length s -> JS.length (JSString.substring s 0 (Some b)) = b.
Proof.
  intros H. unfold JS.length at 1.
  rewrite <- chars_length, chars_JS_substring by lia.
  rewrite length_firstn, length_skipn, chars_length. unfold JS.length in H. lia.
Qed.

Lemma selectedLines_between :
  list_ascii_of_string
    (selectedLines model range (Z.to_nat (el - sl + 1)) sl "")
  = between (Z.to_nat (sl - 1)) (Z.to_nat (el - 1)) (Z.to_nat (sc - 1)) (Z.to_nat (ec - 1))
            lines.
Proof.
  destruct range_within as (Hl & Hel & Hsc & Hec & Hsame).
  fold sl el sc ec in Hl, Hel, Hsc, Hec, Hsame.
  unfold JS.alength in Hel.
  rewrite between_skip by lia. rewrite (skipn_nth _ "") by lia.
  destruct (Z.eq_dec sl el) as [E|N].
  - replace (Z.to_nat (el - sl + 1)) with 1%nat by lia.
    replace (Z.to_nat (el - 1) - Z.to_nat (sl - 1))%nat with 0%nat by lia.
    rewrite selectedLines_S. cbn [selectedLines between]. unfold appended. fold sl el sc ec.
    rewrite Z.eqb_refl. replace (sl =? el) with true by (symmetry; apply Z.eqb_eq; exact E).
    cbn [negb String.append].
    rewrite line_at by (unfold JS.alength; lia).
    rewrite <- E in Hec. specialize (Hsame E).
    rewrite chars_JS_substring_from by (rewrite JS_substring_length; lia).
    rewrite chars_JS_substring by lia. rewrite Z.sub_0_r.
    cbn [skipn]. rewrite skipn_firstn_comm. f_equal; lia.
  - replace (Z.to_nat (el - sl + 1)) with (S (S (Z.to_nat (el - sl - 1)))) by lia.
    replace (Z.to_nat (el - 1) - Z.to_nat (sl - 1))%nat with (S (Z.to_nat (el - sl - 1)))
      by lia.
    rewrite selectedLines_S. cbn [between]. unfold appended. fold sl el sc ec.
    rewrite Z.eqb_refl. replace (sl =? el) with false by (symmetry; apply Z.eqb_neq; exact N).
    cbn [negb String.append].
    rewrite selectedLines_tail by lia.
    rewrite line_at by (unfold JS.alength; lia).
    rewrite chars_JS_substring_from by lia.
    replace (Z.to_nat (sl + 1 - 1)) with (S (Z.to_nat (sl - 1))) by lia. reflexivity.
Qed.

Lemma selectedLines_document :
  selectedLines model range (Z.to_nat (el - sl + 1)) sl ""
  = JSString.substring (document lines) (offsetAt lines sl sc) (Some (offsetAt lines el ec))
  /\ JS.length (selectedLines model range (Z.to_nat (el - sl + 1)) sl "")
     = offsetAt lines el ec - offsetAt lines sl sc.
Proof.
  assert (W := range_within).
  destruct W as (Hl & Hel & Hsc & Hec & Hsame).
  fold sl el sc ec in Hl, Hel, Hsc, Hec, Hsame.
  unfold JS.alength in Hel. unfold JS.length in Hsc, Hec.
  set (s := Z.to_nat (sl - 1)). set (e := Z.to_nat (el - 1)).
  set (a := Z.to_nat (sc - 1)). set (b := Z.to_nat (ec - 1)).
  fold s in Hsc. fold e in Hec.
  assert (Hse : (s <= e)%nat) by lia.
  assert (He : (e < List.length lines)%nat) by lia.
  assert (Ha : (a <= String.length (nth s lines ""))%nat) by lia.
  assert (Hb : (b <= String.length (nth e lines ""))%nat) by lia.
  assert (Hab : (s = e -> a <= b)%nat) by (intros; assert (sl = el) by lia; lia).
  assert (OA : offsetAt lines sl sc = Z.of_nat (off lines s + a)).
  { unfold offsetAt. fold s. rewrite offsetAt_off. lia. }
  assert (OB : offsetAt lines el ec = Z.of_nat (off lines e + b)).
  { unfold offsetAt. fold e. rewrite offsetAt_off. lia. }
  assert (B1 := off_ordered lines s e a b Hse He Ha Hab).
  assert (B2 := off_in_document lines e b He Hb).
  assert (Slice : list_ascii_of_string
                    (JSString.substring (document lines) (offsetAt lines sl sc)
                       (Some (offsetAt lines el ec)))
                  = between s e a b lines).
  { rewrite chars_JS_substring
      by (rewrite ?OA, ?OB; unfold JS.length;
          rewrite <- ?chars_length, ?chars_document; lia).
    rewrite chars_document, OA, OB, <- Nat2Z.inj_sub, !Nat2Z.id by lia.
    now apply between_flat. }
  assert (E : selectedLines model range (Z.to_nat (el - sl + 1)) sl ""
              = JSString.substring (document lines) (offsetAt lines sl sc)
                  (Some (offsetAt lines el ec))).
  { apply chars_inj. rewrite selectedLines_between, Slice. reflexivity. }
  split; [exact E|].
  rewrite E. unfold JS.length at 1. rewrite <- chars_length, Slice.
  rewrite <- (between_flat lines s e a b Hse He Ha Hb Hab).
  rewrite length_firstn, length_skipn. lia.
Qed.

End SearchTextFacts.

(** X5. While an editor is active and the focus is outside the search
    view, for a selection that is not empty in the editor read, whose model
    holds [lines]: the text [getSearchTextFromEditor] returns is the text of
    the document, its lines joined by line feeds, from the offset of the
    start of the selection to the offset of its end, and its length is the
    difference of the two offsets. *)
Theorem selection_seeds_document_slice (w : World) (e : EditorWorld)
    (allowUnselectedWord : bool) (editor : ICodeEditor) (model : ITextModel)
    (selection : Selection) (lines : list string)
    (active : activeEditor e = true)
    (outside : activeElement_in_container e = false)
    (read : editor_read e = Some editor)
    (hasModel : getModel editor = Some model)
    (selected : getSelection editor = Some selection)
    (nonEmpty : isEmpty selection = false)
    (model_holds : holds model lines)
    (range_within : within lines (selection_range selection)) :
  let range := selection_range selection in
  let from := offsetAt lines (startLineNumber range) (startColumn range) in
  let to := offsetAt lines (endLineNumber range) (endColumn range) in
  getSearchTextFromEditor w e allowUnselectedWord
  = Some (JSString.substring (document lines) from (Some to))
  /\ JS.length (JSString.substring (document lines) from (Some to)) = to - from.
Proof.
  intros range from to.
  destruct (selectedLines_document model range lines model_holds range_within) as [E L].
  fold from to in E, L. rewrite <- E. split; [|exact L].
  unfold getSearchTextFromEditor, editor_read in *.
  rewrite active, outside. cbn [negb].
  destruct (activeTextEditorWidget e) as [|ed|original modified]; [discriminate| |].
  - injection read as ->. rewrite hasModel, selected, nonEmpty. reflexivity.
  - injection read as <-.
    destruct (hasTextFocus original); rewrite hasModel, selected, nonEmpty; reflexivity.
Qed.

(** ** The memento *)

Lemma Memento_get_set (key key' : string) (x : JSValue) (o : MementoObject) :
  Memento.get key (Memento.set key' x o)
  = if String.eqb key' key then x else Memento.get key o.
Proof.
  induction o as [|[k y] o IH]; simpl.
  - destruct (String.eqb key' key); reflexivity.
  - destruct (String.eqb k key') eqn:E; simpl.
    + apply String.eqb_eq in E. subst k. destruct (String.eqb key' key); reflexivity.
    + destruct (String.eqb k key) eqn:E'; [|exact IH].
      apply String.eqb_eq in E'. subst k. now rewrite String.eqb_sym, E.
Qed.

Lemma truthy_trim_string (s : string) :
  Value.or (JString s) (JString "") = JString s.
Proof. destruct s; reflexivity. Qed.

Ltac memento :=
  repeat (rewrite Memento_get_set; cbn [String.eqb Ascii.eqb Bool.eqb andb]).

Lemma not_empty_or (x : JSValue) :
  Value.not_empty_string (Value.or x (JString "")) = Value.truthy x.
Proof.
  destruct x as [|[|]|[|c s]|a]; reflexivity.
Qed.

Lemma not_empty_string_truthy (s : string) :
  Value.not_empty_string (JString s) = JS.truthy s.
Proof. now destruct s. Qed.

Lemma is_true_boolean (b : bool) : Value.is_true (JBoolean b) = b.
Proof. now destruct b. Qed.

Lemma nonEmpty_some (history : list string) :
  history <> [] -> nonEmpty history = Some history.
Proof.
  destruct history; [congruence|reflexivity].
Qed.

(** X6. What [createSearchWidget] and [renderBody] read from the memento
    [saveState] wrote: the pattern as entered, the three flags and preserve
    case as they were, the replace box shown again exactly if it was shown,
    the replace text only if the box was shown and the empty string
    otherwise, the patterns of files to include and to exclude trimmed, and
    the use of the exclude settings. [renderBody] shows the query details
    exactly when one of the two patterns is not empty, or the exclude
    settings are off, or the memento held a truthy [query.filePatterns] or
    [query.queryDetailsExpanded] before the save. A history that is not
    empty comes back when the history service returns what was saved. *)
Theorem saveState_restores_inputs (w : World) (x : SaveWorld) (before : MementoObject)
    (history : ISearchHistoryValues) :
  let saved := fst (saveState w x before) in
  let restored := CreateSearchWidget.options saved history in
  ISearchWidgetOptions.value restored = JString (getValue w)
  /\ ISearchWidgetOptions.replaceValue restored
     = JString (if isReplaceShown x then getReplaceValue w else "")
  /\ ISearchWidgetOptions.isRegex restored = getRegex w
  /\ ISearchWidgetOptions.isCaseSensitive restored = getCaseSensitive w
  /\ ISearchWidgetOptions.isWholeWords restored = getWholeWords w
  /\ ISearchWidgetOptions.preserveCase restored = viewModel_preserveCase x
  /\ CreateSearchWidget.showReplace saved = isReplaceShown x
  /\ RenderBody.patternExclusions saved = JString (JS.trim (excludes_getValue w))
  /\ RenderBody.patternIncludes saved = JString (JS.trim (includes_getValue w))
  /\ RenderBody.useExcludesAndIgnoreFiles saved = useExcludesAndIgnoreFiles w
  /\ RenderBody.showsDetails saved
     = Value.truthy (Memento.get "query.filePatterns" before)
       || JS.truthy (JS.trim (excludes_getValue w))
       || JS.truthy (JS.trim (includes_getValue w))
       || Value.truthy (Memento.get "query.queryDetailsExpanded" before)
       || negb (useExcludesAndIgnoreFiles w)
  /\ (getSearchHistory x <> [] ->
      history_search history = nonEmpty (getSearchHistory x) ->
      ISearchWidgetOptions.searchHistory restored = JStrings (getSearchHistory x))
  /\ (getReplaceHistory x <> [] ->
      history_replace history = nonEmpty (getReplaceHistory x) ->
      ISearchWidgetOptions.replaceHistory restored = JStrings (getReplaceHistory x)).
Proof.
  intros saved restored. subst restored saved.
  unfold saveState, CreateSearchWidget.options, CreateSearchWidget.showReplace,
    RenderBody.showsDetails, RenderBody.filePatterns, RenderBody.patternExclusions,
    RenderBody.patternIncludes, RenderBody.queryDetailsExpanded,
    RenderBody.useExcludesAndIgnoreFiles.
  cbn [fst ISearchWidgetOptions.value ISearchWidgetOptions.replaceValue
       ISearchWidgetOptions.isRegex ISearchWidgetOptions.isCaseSensitive
       ISearchWidgetOptions.isWholeWords ISearchWidgetOptions.preserveCase
       ISearchWidgetOptions.searchHistory ISearchWidgetOptions.replaceHistory].
  memento.
  rewrite !truthy_trim_string, !is_true_boolean, !not_empty_or, !not_empty_string_truthy.
  repeat split; try reflexivity.
  - destruct (isReplaceShown x); [apply truthy_trim_string|reflexivity].
  - intros Hne Hh. rewrite Hh, nonEmpty_some by exact Hne. reflexivity.
  - intros Hne Hh. rewrite Hh, nonEmpty_some by exact Hne. reflexivity.
Qed.

(** ** The query details *)

Lemma showsDetails_saved (w : World) (x : SaveWorld) (before : MementoObject) :
  RenderBody.showsDetails (fst (saveState w x before))
  = Value.truthy (Memento.get "query.filePatterns" before)
    || JS.truthy (JS.trim (excludes_getValue w))
    || JS.truthy (JS.trim (includes_getValue w))
    || Value.truthy (Memento.get "query.queryDetailsExpanded" before)
    || negb (useExcludesAndIgnoreFiles w).
Proof.
  unfold saveState, RenderBody.showsDetails, RenderBody.filePatterns,
    RenderBody.patternExclusions, RenderBody.patternIncludes,
    RenderBody.queryDetailsExpanded, RenderBody.useExcludesAndIgnoreFiles.
  cbn [fst]. memento.
  now rewrite !truthy_trim_string, !not_empty_or, !not_empty_string_truthy.
Qed.

(** X7. [toggleQueryDetails] shows the details when asked to, hides them
    when asked to, and flips them when [show] is not given; after it the
    class [more], the attribute [aria-expanded] and the memento agree, and no
    other key of the memento has changed. After a [saveState], [renderBody]
    shows the details if the last toggle left them shown. Two toggles
    without [show] leave the details as they were. *)
Theorem query_details_survive_restart (moveFocus : bool) (show skipLayout reverse : option bool)
    (s : DetailsView) (w : World) (x : SaveWorld) :
  let shown := match show with None => negb (queryDetails_more s) | Some b => b end in
  let toggled := fst (toggleQueryDetails moveFocus show skipLayout reverse s) in
  queryDetails_more toggled = shown
  /\ aria_expanded toggled = Some (if shown then "true" else "false")
  /\ (forall key, key <> "query.queryDetailsExpanded" ->
        Memento.get key (viewletState toggled) = Memento.get key (viewletState s))
  /\ RenderBody.showsDetails (fst (saveState w x (viewletState toggled)))
     = shown
       || Value.truthy (Memento.get "query.filePatterns" (viewletState s))
       || JS.truthy (JS.trim (excludes_getValue w))
       || JS.truthy (JS.trim (includes_getValue w))
       || negb (useExcludesAndIgnoreFiles w)
  /\ (forall moveFocus' skipLayout' reverse',
        show = None ->
        queryDetails_more
          (fst (toggleQueryDetails moveFocus' None skipLayout' reverse' toggled))
        = queryDetails_more s).
Proof.
  intros shown toggled. subst toggled. cbn [toggleQueryDetails fst queryDetails_more
    aria_expanded viewletState]. fold shown.
  split; [reflexivity|]. split; [reflexivity|]. split; [|split].
  - intros key Hkey. rewrite Memento_get_set.
    destruct (String.eqb_spec "query.queryDetailsExpanded" key); [congruence|reflexivity].
  - rewrite showsDetails_saved. memento.
    cbn [Value.truthy].
    destruct shown, (Value.truthy (Memento.get "query.filePatterns" (viewletState s))),
      (JS.truthy (JS.trim (excludes_getValue w))),
      (JS.truthy (JS.trim (includes_getValue w))), (useExcludesAndIgnoreFiles w);
      reflexivity.
  - intros moveFocus' skipLayout' reverse' Hshow. subst shown. rewrite Hshow.
    apply negb_involutive.
Qed.

Section DetailsFacts.
Variable relativePath : URI -> URI -> option string.
Variable getWorkspaceFolder : URI -> option IWorkspaceFolder.








End DetailsFacts.

(** ** Replace all *)

Section ReplaceFacts.
Variable localize : string -> string -> list LocalizeArg -> string.

Ltac agree := eexists _, _; split; [reflexivity|]; repeat split; vm_compute; reflexivity.

(** X9. The message after a replace of all, the message that asks to
    confirm it and the message that counts the results agree in number with
    their counts: each comes from a template that names the count and the
    number of files, has [occurrences] (or [results]) exactly when the count
    is not 1 and [files] exactly when the number of files is not 1, and the
    replace messages name the replace value, and are given it, exactly when
    it is not empty. *)
Theorem count_messages_agree_in_number (count fileCount : Z) (replaceValue : string) :
  let with_value := if JS.truthy replaceValue then [str replaceValue] else [] in
  agrees localize (buildAfterReplaceAllMessage localize count fileCount replaceValue)
         "occurrence" "file" count fileCount with_value
  /\ agrees localize (buildReplaceAllConfirmationMessage localize count fileCount replaceValue)
            "occurrence" "file" count fileCount with_value
  /\ agrees localize (buildResultCountMessage localize count fileCount)
            "result" "file" count fileCount [].
Proof.
  intros with_value. subst with_value.
  unfold agrees, buildAfterReplaceAllMessage, buildReplaceAllConfirmationMessage,
    buildResultCountMessage.
  destruct (count =? 1), (fileCount =? 1), (JS.truthy replaceValue);
    cbn [andb]; (split; [|split]); agree.
Qed.

Lemma replaceAll_run_calls (w : World) (confirmed : bool) (replaced : FileCommands.Settled)
    (v : SearchView) :
  snd (replaceAll_run localize w confirmed replaced v)
  = if SearchResult.count (searchResult w) =? 0 then []
    else
      replaceAll localize w
      ++ (if confirmed then
            [ReplaceCall.searchWidget_setReplaceAllActionState false;
             ReplaceCall.searchResult_replaceAll; ReplaceCall.progressComplete]
            ++ match replaced with
               | FileCommands.Resolved => []
               | FileCommands.Rejected error => [ReplaceCall.notificationService_error error]
               end
          else []).
Proof.
  unfold replaceAll_run, replaceAll.
  destruct (SearchResult.count (searchResult w) =? 0); [reflexivity|].
  destruct confirmed; [|reflexivity]. destruct replaced; reflexivity.
Qed.

(** X10. [replaceAll] does nothing when the search result counts no
    match. Otherwise it starts a progress for the count and asks for
    confirmation with the confirmation message. [searchResult.replaceAll] is
    called exactly when there are matches and the dialog was confirmed, and
    the progress is completed in exactly those cases too. An error is
    notified exactly when the replace is rejected, with that error. When the
    replace resolves, the message area shows the message built when the
    replace was asked for; in every other case the view is as before. *)
Theorem replaceAll_replaces_only_when_confirmed (w : World) (confirmed : bool)
    (replaced : FileCommands.Settled) (v : SearchView) :
  let outcome := replaceAll_run localize w confirmed replaced v in
  let count := SearchResult.count (searchResult w) in
  (count = 0 -> outcome = (v, []))
  /\ (count <> 0 ->
      exists rest,
        snd outcome
        = ReplaceCall.progressService_withProgress 100 count
          :: ReplaceCall.dialogService_confirm
               (localize "replaceAll.confirmation.title" "Replace All" [])
               (buildReplaceAllConfirmationMessage localize count
                  (SearchResult.fileCount (searchResult w)) (getReplaceValue w))
               (localize "replaceAll.confirm.button" "&&Replace" []) "question"
          :: rest)
  /\ (In ReplaceCall.searchResult_replaceAll (snd outcome) <-> count <> 0 /\ confirmed = true)
  /\ (In ReplaceCall.progressComplete (snd outcome) <-> count <> 0 /\ confirmed = true)
  /\ (forall error, In (ReplaceCall.notificationService_error error) (snd outcome)
                    <-> count <> 0 /\ confirmed = true
                        /\ replaced = FileCommands.Rejected error)
  /\ (count <> 0 -> confirmed = true -> replaced = FileCommands.Resolved ->
      messagesElement (fst outcome)
      = {| display_none := false;
           childNodes := [el ".message" [dollar "p" (afterReplaceAllMessage localize w)]] |})
  /\ (confirmed = false \/ replaced <> FileCommands.Resolved -> fst outcome = v).
Proof.
  intros outcome count. subst outcome.
  split; [|split; [|split; [|split; [|split; [|split]]]]].
  - intros H. unfold replaceAll_run, replaceAll. fold count. now rewrite H.
  - intros H. rewrite replaceAll_run_calls. unfold replaceAll. fold count.
    destruct (Z.eqb_spec count 0); [contradiction|]. eexists. reflexivity.
  - rewrite replaceAll_run_calls. unfold replaceAll. fold count.
    destruct (Z.eqb_spec count 0) as [E|N]; [split; [intros []|tauto]|].
    destruct confirmed; simpl.
    + split; [intros _; now split|tauto].
    + split; [intros [H|[H|[]]]; discriminate|intros [_ H]; discriminate].
  - rewrite replaceAll_run_calls. unfold replaceAll. fold count.
    destruct (Z.eqb_spec count 0) as [E|N]; [split; [intros []|tauto]|].
    destruct confirmed; simpl.
    + split; [intros _; now split|tauto].
    + split; [intros [H|[H|[]]]; discriminate|intros [_ H]; discriminate].
  - intros error. rewrite replaceAll_run_calls. unfold replaceAll. fold count.
    destruct (Z.eqb_spec count 0) as [E|N]; [split; [intros []|tauto]|].
    destruct confirmed; simpl.
    + destruct replaced as [|error']; simpl.
      * split; [intros [H|[H|[H|[H|[H|[]]]]]]; discriminate|intros (_ & _ & H); discriminate].
      * split.
        -- intros [H|[H|[H|[H|[H|[H|[]]]]]]]; try discriminate.
           injection H as ->. now repeat split.
        -- intros (_ & _ & H). injection H as ->. tauto.
    + split; [intros [H|[H|[]]]; discriminate|intros (_ & H & _); discriminate].
  - intros N -> ->. unfold replaceAll_run, replaceAll. fold count.
    destruct (Z.eqb_spec count 0); [contradiction|]. reflexivity.
  - intros H. unfold replaceAll_run, replaceAll. fold count.
    destruct (count =? 0); [reflexivity|].
    destruct confirmed; [|reflexivity].
    destruct replaced; [|reflexivity]. destruct H; [discriminate|congruence].
Qed.

End ReplaceFacts.

(** ** More file commands *)

Section OpenToSideFacts.
Import OpenToSide.
Variable Schemas_untitled : string.
Variable resolveAll : list URI -> list IResolveFileResult.

Local Abbreviation fileResources := (fileResources Schemas_untitled).

Lemma opened_files (answer : URI -> IResolveFileResult) (toResolve : list URI) :
  (forall r s, stat (answer r) = Some s -> resource s = r) ->
  flat_map (fun r => match stat r with Some s => [resource s] | None => [] end)
           (filter isFile (map answer toResolve))
  = filter (fun r => isFile (answer r)) toResolve.
Proof.
  intros same. induction toResolve as [|r rest IH]; [reflexivity|].
  cbn [map filter].
  destruct (isFile (answer r)) eqn:F; [|exact IH].
  cbn [flat_map]. rewrite IH. unfold isFile in F.
  destruct (stat (answer r)) as [s|] eqn:E; [|discriminate].
  now rewrite (same r s E).
Qed.

(** X11. Open to the side, with a file service that resolves each resource
    it is asked about with that resource's own stat: nothing is called when
    nothing is selected; otherwise the untitled resources are not resolved,
    and the editors opened in the side group are the selected resources that
    resolve to a file that is not a directory, followed by the selected
    untitled resources, both in the order of the selection. *)
Theorem openToSide_opens_files_and_untitled (resources : list URI)
    (answer : URI -> IResolveFileResult)
    (resolves : resolveAll (fileResources resources) = map answer (fileResources resources))
    (same : forall r s, stat (answer r) = Some s -> resource s = r) :
  let opens r := String.eqb (scheme r) Schemas_untitled || isFile (answer r) in
  (resources = [] -> handler Schemas_untitled resolveAll resources = [])
  /\ (resources <> [] ->
      exists editors,
        handler Schemas_untitled resolveAll resources
        = [fileService_resolveAll (fileResources resources);
           editorService_openEditors editors SIDE_GROUP]
        /\ editors
           = filter (fun r => isFile (answer r)) (fileResources resources)
             ++ filter (fun r => String.eqb (scheme r) Schemas_untitled) resources
        /\ (forall r, In r editors <-> In r resources /\ opens r = true)
        /\ (List.length editors <= List.length resources)%nat).
Proof.
  intros opens. split; [intros ->; reflexivity|].
  intros Hne. unfold handler.
  replace (JS.alength resources =? 0) with false
    by (symmetry; apply Z.eqb_neq; destruct resources; [congruence|unfold JS.alength; simpl; lia]).
  cbn [negb]. fold (fileResources resources). fold isFile.
  rewrite resolves, (opened_files answer _ same).
  eexists. split; [reflexivity|]. split; [reflexivity|]. split.
  - intros r. rewrite in_app_iff, !filter_In. unfold fileResources, opens.
    rewrite filter_In.
    destruct (String.eqb (scheme r) Schemas_untitled); simpl; intuition congruence.
  - rewrite length_app. unfold fileResources.
    clear. induction resources as [|r rest IH]; [simpl; lia|].
    simpl. destruct (String.eqb (scheme r) Schemas_untitled); simpl.
    + lia.
    + destruct (isFile (answer r)); simpl; lia.
Qed.

End OpenToSideFacts.

Section SaveFacts.
Import FileCommands Save.
Variable localize : string -> string -> list LocalizeArg -> string.
Variable toErrorMessage : Error -> bool -> string.
Variable save : list IEditorIdentifier -> ISaveEditorsOptions -> Settled.

Lemma pushDirty_filter (group : IEditorGroup) (editors : list IEditorInput)
    (saveableEditors : list IEditorIdentifier) :
  pushDirty group editors saveableEditors
  = saveableEditors
    ++ map (fun editor => {| groupId := id group; editor := editor |}) (filter isDirty editors).
Proof.
  revert saveableEditors. induction editors as [|e rest IH]; intros acc; simpl.
  - now rewrite app_nil_r.
  - destruct (isDirty e); rewrite IH; [|reflexivity]. now rewrite <- app_assoc.
Qed.

Lemma pushGroups_dirtyEditors (groups : list IEditorGroup)
    (saveableEditors : list IEditorIdentifier) :
  pushGroups groups saveableEditors = saveableEditors ++ dirtyEditors groups.
Proof.
  revert saveableEditors. induction groups as [|g rest IH]; intros acc; simpl.
  - now rewrite app_nil_r.
  - now rewrite IH, pushDirty_filter, <- app_assoc.
Qed.

Lemma doSaveEditors_settles (editors : list IEditorIdentifier) (options : ISaveEditorsOptions) :
  snd (doSaveEditors localize toErrorMessage save editors options) = Resolved
  /\ fst (doSaveEditors localize toErrorMessage save editors options)
     = editorService_save editors options
       :: match save editors options with
          | Resolved => []
          | Rejected error =>
            [notificationService_error
               (localize "genericSaveError" "Failed to save '{0}': {1}"
                  [str (JS.join ", " (map (fun e => getName (editor e)) editors));
                   str (toErrorMessage error false)])]
          end.
Proof.
  unfold doSaveEditors. destruct (save editors options); split; reflexivity.
Qed.

(** X12. Save all never rejects, and asks [editorService.save], with the
    reason [EXPLICIT] only, to save exactly the dirty editors of the groups,
    each with the id of its group, in the order of the groups; when the save
    fails the error is notified, with the names of those editors. A save of
    the selected editors that fails is notified the same way. *)
Theorem saveAll_saves_the_dirty_editors (groups : list IEditorGroup) :
  let options := {| reason := Some EXPLICIT; force := None; skipSaveParticipants := None;
                    saveAs := None |} in
  let saved := dirtyEditors groups in
  snd (saveAll localize toErrorMessage save groups) = Resolved
  /\ fst (saveAll localize toErrorMessage save groups)
     = editorService_save saved options
       :: match save saved options with
          | Resolved => []
          | Rejected error =>
            [notificationService_error
               (localize "genericSaveError" "Failed to save '{0}': {1}"
                  [str (JS.join ", " (map (fun e => getName (editor e)) saved));
                   str (toErrorMessage error false)])]
          end
  /\ (forall e, In e saved
                <-> exists group, In group groups /\ groupId e = id group
                                  /\ In (editor e) (getEditors group)
                                  /\ isDirty (editor e) = true)
  /\ (forall selected error,
        save selected {| reason := Some EXPLICIT; force := Some true;
                         skipSaveParticipants := None; saveAs := None |}
        = Rejected error ->
        saveFile localize toErrorMessage save selected
        = ([editorService_save selected
              {| reason := Some EXPLICIT; force := Some true;
                 skipSaveParticipants := None; saveAs := None |};
            notificationService_error
              (localize "genericSaveError" "Failed to save '{0}': {1}"
                 [str (JS.join ", " (map (fun e => getName (editor e)) selected));
                  str (toErrorMessage error false)])],
           Resolved)).
Proof.
  intros options saved. subst saved.
  unfold saveAll, saveDirtyEditorsOfGroups. rewrite pushGroups_dirtyEditors. cbn [app].
  destruct (doSaveEditors_settles (dirtyEditors groups) options) as [S C].
  split; [exact S|]. split; [exact C|]. split.
  - intros [gid ed]. unfold dirtyEditors. rewrite in_flat_map. split.
    + intros (g & Hg & Hin). apply in_map_iff in Hin.
      destruct Hin as (e' & Heq & Hf). injection Heq as <- <-.
      apply filter_In in Hf. exists g. now repeat split.
    + intros (g & Hg & Hid & Hin & Hd). cbn in *. exists g. split; [exact Hg|].
      apply in_map_iff. exists ed. split; [now rewrite Hid|]. apply filter_In. now split.
  - intros selected error H. unfold saveFile, saveSelectedEditors, doSaveEditors.
    now rewrite H.
Qed.

End SaveFacts.

Section CompareFacts.
Import Compare.

Lemma Compare_run_app (a b : list Command) (g : Globals) :
  run (a ++ b) g
  = (fst (run b (fst (run a g))), snd (run a g) ++ snd (run b (fst (run a g)))).
Proof.
  revert g. induction a as [|c a IH]; intros g; simpl.
  - now destruct (run b g).
  - destruct (execute c g) as [g1 calls1]. rewrite IH.
    destruct (run a g1) as [g2 calls2]. simpl. now rewrite app_assoc.
Qed.

Lemma Compare_run_selected (commands : list Command) (g : Globals) :
  globalResourceToCompare (fst (run commands g))
  = fold_left (fun selected c =>
                 match c with
                 | SelectForCompare resource => resource
                 | _ => selected
                 end)
              commands (globalResourceToCompare g).
Proof.
  revert g. induction commands as [|c rest IH]; intros g; [reflexivity|].
  simpl. destruct (execute c g) as [g1 calls1] eqn:E.
  specialize (IH g1). destruct (run rest g1) as [g2 calls2]. simpl in *.
  rewrite IH. f_equal. destruct c; simpl in E; injection E as <- _; reflexivity.
Qed.

Lemma Compare_run_binds (commands : list Command) (g : Globals) :
  filter binds (snd (run commands g))
  = match resourceSelectedForCompareContext g with
    | Some _ => []
    | None =>
      if existsb (fun c => match c with SelectForCompare _ => true | _ => false end) commands
      then [ResourceSelectedForCompareContext_bindTo] else []
    end.
Proof.
  revert g. induction commands as [|c rest IH]; intros g.
  - simpl. now destruct (resourceSelectedForCompareContext g).
  - simpl. destruct (execute c g) as [g1 calls1] eqn:E.
    specialize (IH g1). destruct (run rest g1) as [g2 calls2]. simpl in *.
    rewrite filter_app, IH.
    destruct c; simpl in E; injection E as <- <-; simpl.
    + destruct (resourceSelectedForCompareContext g); reflexivity.
    + unfold compareSelected. destruct (_ =? 2); [|reflexivity].
      destruct (JS.index resources 0); [|reflexivity].
      destruct (JS.index resources 1); reflexivity.
    + unfold compareFiles. destruct (globalResourceToCompare g); [|reflexivity].
      destruct resource; reflexivity.
Qed.

Lemma compareSelected_two (resources : list URI) (leftResource rightResource : URI) :
  compareSelected resources = [editorService_openEditor leftResource rightResource]
  <-> resources = [leftResource; rightResource].
Proof.
  unfold compareSelected.
  destruct resources as [|a [|b [|c rest]]].
  - cbn. split; discriminate.
  - cbn. split; discriminate.
  - cbn. split; intros H; injection H as <- <-; reflexivity.
  - replace (JS.alength (a :: b :: c :: rest) =? 2) with false
      by (symmetry; apply Z.eqb_neq; unfold JS.alength; simpl List.length; lia).
    split; discriminate.
Qed.

(** X13. After any commands, [compareFiles] on a resource opens the
    comparison of the resource of the last [selectForCompare] with it, and
    opens nothing when no resource was selected last or none is given now.
    The context key is bound at most once. [compareSelected] opens a
    comparison exactly when two resources are selected, of the first with the
    second. *)
Theorem compareFiles_compares_with_last_selected (commands : list Command)
    (resource : option URI) :
  let g := fst (run commands loaded) in
  globalResourceToCompare g = lastSelected commands
  /\ compareFiles resource g
     = match lastSelected commands, resource with
       | Some leftResource, Some rightResource =>
         [editorService_openEditor leftResource rightResource]
       | _, _ => []
       end
  /\ (List.length (filter binds (snd (run commands loaded))) <= 1)%nat
  /\ (forall resources leftResource rightResource,
        compareSelected resources = [editorService_openEditor leftResource rightResource]
        <-> resources = [leftResource; rightResource])
  /\ (forall resources, List.length resources <> 2%nat -> compareSelected resources = []).
Proof.
  intros g. subst g.
  assert (S := Compare_run_selected commands loaded). cbn [loaded globalResourceToCompare] in S.
  fold (lastSelected commands) in S.
  split; [exact S|]. split; [unfold compareFiles; now rewrite S|]. split; [|split].
  - rewrite Compare_run_binds. cbn. destruct (existsb _ commands); simpl; lia.
  - apply compareSelected_two.
  - intros resources H. unfold compareSelected.
    destruct (Z.eqb_spec (JS.alength resources) 2) as [E|N]; [|reflexivity].
    unfold JS.alength in E. lia.
Qed.

End CompareFacts.

Section CompareWithSavedFacts.
Import FileCommands CompareWithSaved.
Variable localize : string -> string -> list LocalizeArg -> string.
Variable basename : URI -> string.
Variable canHandleResource : URI -> bool.

Local Abbreviation dispatch := (dispatch localize basename canHandleResource).
Local Abbreviation run := (run localize basename canHandleResource).

Lemma tally_remove_nth (A : Type) (f : A -> bool) (n : nat) (l : list A) (a : A) :
  nth_error l n = Some a ->
  (tally f (remove_nth n l) + (if f a then 1 else 0) = tally f l)%nat.
Proof.
  revert n. induction l as [|x l IH]; intros n H; [destruct n; discriminate|].
  destruct n as [|n]; simpl in H.
  - injection H as ->. unfold tally. simpl. destruct (f a); simpl; lia.
  - specialize (IH n H). unfold tally in *. simpl. destruct (f x); simpl; lia.
Qed.

Lemma existsb_listeners (n : nat) : existsb is_provider (repeat listener n) = false.
Proof. induction n; [reflexivity|exact IHn]. Qed.

Lemma provider_first_empty (disposables : list IDisposable) :
  provider_first disposables ->
  (JS.alength disposables =? 0) = true -> disposables = [].
Proof.
  intros _ H. apply Z.eqb_eq in H. unfold JS.alength in H.
  destruct disposables; [reflexivity|simpl in H; lia].
Qed.

Lemma provider_first_listener (disposables : list IDisposable) :
  provider_first disposables -> provider_first (disposables ++ [listener]).
Proof.
  unfold provider_first. intros [n [E|E]]; subst disposables; exists (S n).
  - left. now rewrite <- repeat_cons.
  - right. simpl. now rewrite <- repeat_cons.
Qed.

Lemma dispatch_one_provider (ev : Event) (g g' : Globals) (before calls : list ServiceCall) :
  one_provider g before -> dispatch ev g = Some (g', calls) ->
  one_provider g' (before ++ calls).
Proof.
  intros (Hshape & Hcount & Hlisten) D. unfold one_provider.
  rewrite !tally_app. destruct ev as [resource|call settled|some]; simpl in D.
  - (* Invoked *)
    unfold handler in D.
    destruct (JS.alength (providerDisposables g) =? 0) eqn:E.
    + apply (provider_first_empty _ Hshape) in E. rewrite E in *. simpl in Hcount.
      assert (S : provider_first ([] ++ [provider; registration]))
        by (exists 0%nat; now right).
      destruct resource as [uri|]; [destruct (canHandleResource uri)|];
        injection D as <- <-;
        cbn [providerDisposables awaiting]; rewrite ?tally_app;
        (split; [exact S|]); cbn; unfold tally in *; simpl in *; lia.
    + destruct resource as [uri|]; [destruct (canHandleResource uri)|];
        injection D as <- <-;
        cbn [providerDisposables awaiting]; rewrite ?tally_app;
        (split; [exact Hshape|]); cbn; unfold tally in *; simpl in *; lia.
  - (* Open_settles *)
    destruct (nth_error (awaiting g) call) as [a|] eqn:Ea; [|discriminate].
    assert (R := tally_remove_nth _ registerEditorListener call (awaiting g) a Ea).
    unfold opened in D. destruct settled as [|error].
    + destruct (registerEditorListener a) eqn:Ef; injection D as <- <-;
        cbn [providerDisposables awaiting].
      * split; [now apply provider_first_listener|].
        rewrite existsb_app. cbn. rewrite orb_false_r.
        unfold tally in *. simpl in *. lia.
      * split; [exact Hshape|]. unfold tally in *. simpl in *. lia.
    + injection D as <- <-.
      cbn [providerDisposables awaiting]. split; [exists 0%nat; now left|].
      cbn. unfold tally in *. simpl.
      destruct (existsb is_provider (providerDisposables g));
        destruct (registerEditorListener a); simpl in *; lia.
  - (* VisibleEditors_change *)
    destruct (existsb (fun d => match d with listener => true | _ => false end)
                      (providerDisposables g)).
    + unfold visibleEditorsChanged in D.
      destruct some; cbn [negb] in D; injection D as <- <-;
        cbn [providerDisposables awaiting].
      * split; [exact Hshape|]. unfold tally in *. simpl. lia.
      * split; [exists 0%nat; now left|]. cbn. unfold tally in *. simpl.
        destruct (existsb is_provider (providerDisposables g)); simpl in *; lia.
    + injection D as <- <-. split; [exact Hshape|]. unfold tally in *. simpl. lia.
Qed.

Lemma run_one_provider (events : list Event) (g g' : Globals)
    (before calls : list ServiceCall) :
  one_provider g before -> run events g = Some (g', calls) ->
  one_provider g' (before ++ calls).
Proof.
  revert g before calls. induction events as [|ev rest IH]; intros g before calls H R.
  - injection R as <- <-. now rewrite app_nil_r.
  - simpl in R. destruct (dispatch ev g) as [[g1 calls1]|] eqn:D; [|discriminate].
    destruct (CompareWithSaved.run localize basename canHandleResource rest g1)
      as [[g2 calls2]|] eqn:R2; [|discriminate].
    injection R as <- <-. rewrite app_assoc.
    apply (IH g1); [|exact R2]. now apply (dispatch_one_provider ev g).
Qed.

(** X14. In every run of compare-with-saved, with calls of the handler
    interleaved as their [await] allows: the provider has been registered
    once more than it has been disposed exactly when the provider is among
    [providerDisposables], and as often otherwise, so that two registrations
    are never alive at once; no more listeners have been registered than
    providers; and the next call of the handler registers the provider
    exactly when [providerDisposables] is empty. *)
Theorem one_content_provider_at_a_time (events : list Event) (g : Globals)
    (calls : list ServiceCall)
    (reached : run events loaded = Some (g, calls)) :
  provider_first (providerDisposables g)
  /\ tally registers calls
     = (tally disposes_provider calls
        + if existsb is_provider (providerDisposables g) then 1 else 0)%nat
  /\ (tally listens calls <= tally registers calls)%nat
  /\ (forall resource,
        tally registers (snd (handler localize basename canHandleResource resource g))
        = if JS.alength (providerDisposables g) =? 0 then 1%nat else 0%nat).
Proof.
  assert (Start : one_provider loaded []).
  { split; [exists 0%nat; now left|]. split; [reflexivity|]. cbn. lia. }
  destruct (run_one_provider events loaded g [] calls Start reached) as (S & C & L).
  cbn [app] in C, L. split; [exact S|]. split; [exact C|]. split; [lia|].
  intros resource. unfold handler.
  destruct (JS.alength (providerDisposables g) =? 0);
    (destruct resource as [uri|]; [destruct (canHandleResource uri)|]); reflexivity.
Qed.

End CompareWithSavedFacts.

(** * The example workspace, run *)

Lemma Example_comparer_total (a b : RenderableMatch) :
  0 < Example.searchMatchComparer a b -> Example.searchMatchComparer b a <= 0.
Proof.
  destruct a, b; simpl; lia.
Qed.

(** The only non-empty folder match gives its files to the top of the tree,
    [b.ts] with one match before [a.ts] with two, whose lines come in order. *)
Lemma result_tree_witness :
  map Rendered.render
      (createResultIterator Example.searchMatchComparer (fun _ => false)
         [Example.folder_other; Example.folder_work] auto)
  = [Rendered.node (File Example.file_b) [Rendered.node (Line Example.line7) []];
     Rendered.node (File Example.file_a)
       [Rendered.node (Line Example.line1) []; Rendered.node (Line Example.line3) []]]
  /\ Sorted (fun a b => Example.searchMatchComparer (File a) (File b) <= 0)
            (JS.sort (Rendered.byFile Example.searchMatchComparer)
                     [Example.file_a; Example.file_b]).
Proof.
  destruct (result_tree_derived_from_model Example.searchMatchComparer
              Example_comparer_total (fun _ => false)
              [Example.folder_other; Example.folder_work] auto)
    as (Htree & _ & Hfiles & _).
  split.
  - rewrite Htree. reflexivity.
  - exact (proj2 (Hfiles [Example.file_a; Example.file_b])).
Defined.

(** Opening [a.ts] while replacing: the selection starts where the last match
    of its array starts and is as long as that match's replace string. *)
Lemma open_witness :
  getSelectionFrom (Example.world 0 "foo" true false) (OfFile Example.file_a)
  = Some {| startLineNumber := 1; startColumn := 5; endLineNumber := 1; endColumn := 11 |}
  /\ getSelectionFrom (Example.world 0 "foo" true false) (OfMatch Example.line3)
     = Some {| startLineNumber := 3; startColumn := 1; endLineNumber := 3; endColumn := 4 |}.
Proof.
  split.
  - exact (proj1 (open_navigates_to_selection (Example.world 0 "foo" true false)
                    (OfFile Example.file_a) Example.line1 None None None (inr true)
                    new_SearchView
                    (conj eq_refl (ex_intro _ [Example.line3] eq_refl)))).
  - exact (proj1 (open_navigates_to_selection (Example.world 0 "foo" true false)
                    (OfMatch Example.line3) Example.line3 None None None (inr true)
                    new_SearchView eq_refl)).
Defined.

(** Submitting "foo": the builder is called first and nothing else builds or
    searches; the query is queued with the folder that exists. *)
Lemma submission_witness :
  exists rest,
    calls_of (onQueryChanged Example.localize (Example.world 0 "foo" true false) false false)
             new_SearchView
    = Call.queryBuilder_text
        {| pattern := "foo"; isRegExp := false; isCaseSensitive := true;
           isWordMatch := false |}
        [Example.work] (options_of (Example.world 0 "foo" true false))
      :: rest
    /\ Forall (fun c => builds_or_searches c = false) rest.
Proof.
  assert (nonEmpty : getValue (Example.world 0 "foo" true false) <> "") by discriminate.
  destruct (submission_builds_with_query_builder Example.localize
              (Example.world 0 "foo" true false) false false new_SearchView
              eq_refl nonEmpty)
    as (_ & _ & (rest & Hcalls & Hquiet & _) & _).
  exists rest. split; assumption.
Defined.

(** Submitting the empty pattern from a valid box. *)
Lemma empty_pattern_witness :
  calls_of (onQueryChanged Example.localize (Example.world 0 "" true false) false false)
           new_SearchView
  = [Call.searchResult_clear] ++ actions_updated
    ++ [Call.dom_show_resultsElement; Call.searchWidget_clear; Call.viewModel_cancelSearch]
    ++ actions_updated
    ++ [Call.aria_status "The search results have been cleared"]
  /\ messagesElement
       (view_after
          (onQueryChanged Example.localize (Example.world 0 "" true false) false false)
          new_SearchView)
     = cleared.
Proof.
  destruct (empty_pattern_starts_no_search Example.localize
              (Example.world 0 "" true false) false false new_SearchView eq_refl)
    as (_ & _ & Hcalls & Hmessages & _).
  split; assumption.
Defined.

(** C10 as stated fails when the input box is not valid: the pattern has
    length zero, and [onQueryChanged] clears no search result, cancels no
    search and leaves the message area as it was, here without the cleared
    message element. *)
Lemma empty_pattern_invalid_box_clears_nothing :
  JS.length (getValue (Example.world 0 "" false false)) = 0
  /\ ~ In Call.searchResult_clear
          (calls_of (onQueryChanged Example.localize (Example.world 0 "" false false)
                       false false) new_SearchView)
  /\ ~ In Call.viewModel_cancelSearch
          (calls_of (onQueryChanged Example.localize (Example.world 0 "" false false)
                       false false) new_SearchView)
  /\ messagesElement
       (view_after (onQueryChanged Example.localize (Example.world 0 "" false false)
                      false false) new_SearchView)
     <> cleared.
Proof.
  repeat split.
  - intros [].
  - intros [].
  - discriminate.
Qed.

(** A search that takes 2.5 s: the state is [SlowSearch], the cancel action
    is offered, and the search started 2000 ms or more before; once the
    search has resolved the state is [Idle] and the refresh action is back. *)
Lemma slow_search_witness :
  let start := rendered Example.localize (Example.world 0 "" true false) in
  (exists v clock calls,
     run Example.localize Example.searchMatchComparer Example.isPromiseCanceledError
         0 Example.slow_search start = Some (v, clock, calls)
     /\ state v = SlowSearch
     /\ lifecycle (search_started Example.slow_search) clock v
     /\ In CancelSearchAction (getActions v))
  /\ (exists v clock calls,
        run Example.localize Example.searchMatchComparer Example.isPromiseCanceledError
            0 Example.slow_search_done start = Some (v, clock, calls)
        /\ state v = Idle
        /\ lifecycle (search_started Example.slow_search_done) clock v
        /\ In RefreshAction (getActions v)).
Proof.
  intros start. split.
  - destruct (run Example.localize Example.searchMatchComparer
                Example.isPromiseCanceledError 0 Example.slow_search start)
      as [[[v clock] calls]|] eqn:E; [|vm_compute in E; discriminate].
    exists v, clock, calls.
    destruct (search_state_lifecycle Example.localize Example.searchMatchComparer
                Example.isPromiseCanceledError (Example.world 0 "" true false)
                Example.slow_search v clock calls E)
      as (Hlife & _ & _ & _ & _ & _ & Hcancel & _).
    assert (Hstate : state v = SlowSearch).
    { vm_compute in E. injection E as <- _ _. reflexivity. }
    repeat split; [exact Hstate|exact Hlife|].
    apply Hcancel. exact Hstate.
  - destruct (run Example.localize Example.searchMatchComparer
                Example.isPromiseCanceledError 0 Example.slow_search_done start)
      as [[[v clock] calls]|] eqn:E; [|vm_compute in E; discriminate].
    exists v, clock, calls.
    destruct (search_state_lifecycle Example.localize Example.searchMatchComparer
                Example.isPromiseCanceledError (Example.world 0 "" true false)
                Example.slow_search_done v clock calls E)
      as (Hlife & _ & _ & _ & _ & _ & _ & Hrefresh).
    assert (Hstate : state v = Idle).
    { vm_compute in E. injection E as <- _ _. reflexivity. }
    repeat split; [exact Hstate|exact Hlife|].
    apply Hrefresh. rewrite Hstate. discriminate.
Defined.



(** A query on [/work] and [/gone], of which the file service says that the
    first exists, keeps [/work]; a query on [/gone] alone is rejected with
    the path of [/gone]. *)
Lemma validateQuery_witness :
  validateQuery_settled Example.localize
    (Example.query_on [Example.work; Example.gone]) (inr [true; false])
  = inr (Example.query_on [Example.work])
  /\ validateQuery_settled Example.localize (Example.query_on [Example.gone]) (inr [false])
     = inl {| name := "Error"; message := "Search path not found: /gone" |}.
Proof.
  split.
  - destruct (validateQuery_keeps_existing_folders Example.localize
                (Example.query_on [Example.work; Example.gone]) new_SearchView
                (inr [true; false]))
      as (_ & _ & _ & _ & _ & Hresolves).
    apply Hresolves. right. discriminate.
  - destruct (validateQuery_keeps_existing_folders Example.localize
                (Example.query_on [Example.gone]) new_SearchView (inr [false]))
      as (_ & _ & _ & _ & Hrejects & _).
    exact (Hrejects {| folder := Example.gone |} [] eq_refl eq_refl).
Defined.

(** C9 as stated fails when the file service fails: for a query on [/work],
    about which the file service rejects, the promise of [validateQuery]
    does not resolve, and the error it rejects with is that of the file
    service, not that of a search path that was not found. *)
Lemma validateQuery_rejects_with_the_file_service :
  let query := Example.query_on [Example.work] in
  let failed := {| name := "Error"; message := "EIO: i/o error, stat '/work'" |} in
  let outcome := validateQuery_settled Example.localize query (inl failed) in
  can_settle query (inl failed) = true
  /\ (forall validated, outcome <> inr validated)
  /\ outcome = inl failed
  /\ outcome <> inl (searchPathNotFound Example.localize {| folder := Example.work |}).
Proof.
  repeat split; discriminate.
Qed.

(** A change while hidden sets the flag; the first turn to visible refreshes
    the whole tree once and clears it; the second does not refresh. *)
Lemma visibility_witness :
  let hidden :=
    view_after (onSearchResultsChanged Example.localize Example.searchMatchComparer
                  (Example.world_with false 0 "foo" true false) (Some Example.change))
               new_SearchView in
  let show := onVisibilityChanged Example.localize Example.searchMatchComparer
                (Example.world 5 "foo" true false) true in
  calls_of show hidden
  = [Call.viewletVisible_set true;
     Call.searchWidget_setReplaceAllActionState true;
     Call.hasSearchResultsKey_set true;
     Call.reLayout;
     Call.tree_setChildren None
       (createResultIterator Example.searchMatchComparer (fun _ => false)
          [Example.folder_other; Example.folder_work] auto);
     Call.searchResult_toggleHighlights true]
  /\ changedWhileHidden (view_after show hidden) = false
  /\ calls_of show (view_after show hidden)
     = [Call.viewletVisible_set true; Call.searchResult_toggleHighlights true].
Proof.
  destruct (tree_synchronized_across_visibility Example.localize
              Example.searchMatchComparer
              (Example.world_with false 0 "foo" true false) Example.change new_SearchView)
    as (_ & _ & _ & _ & Hshow).
  exact (Hshow (Example.world 5 "foo" true false) (Example.world 5 "foo" true false)
               eq_refl).
Defined.

(** Copying the paths of two files on Windows, and with nothing selected. *)
Lemma copy_path_witness :
  fst (FileCommands.copyFilePath Example.localize Example.getUriLabel true
         Example.writeText [Example.a_ts; Example.b_ts])
  = [FileCommands.clipboardService_writeText
       ("/work/a.ts" ++ String (ascii_of_nat 13) (String (ascii_of_nat 10) "/work/b.ts"))]
  /\ fst (FileCommands.copyRelativeFilePath Example.localize Example.getUriLabel true
            Example.writeText [])
     = [FileCommands.notificationService_info "Open a file first to copy its path"].
Proof.
  split.
  - exact (proj1 (copy_path_writes_labels_or_notifies Example.localize
                    Example.getUriLabel true Example.writeText
                    [Example.a_ts; Example.b_ts])).
  - exact (proj2 (copy_path_writes_labels_or_notifies Example.localize
                    Example.getUriLabel true Example.writeText [])).
Defined.

(** Reverting with an untitled editor among the selected ones, the revert
    failing. *)
Lemma revertFile_witness :
  FileCommands.revertFile Example.localize Example.toErrorMessage Example.revert
    [Example.untitled_1; Example.editor_a; Example.editor_b]
  = ([FileCommands.editorService_revert [Example.editor_a; Example.editor_b] true;
      FileCommands.notificationService_error
        "Failed to revert 'a.ts, b.ts': disk is gone"],
     FileCommands.Resolved).
Proof.
  destruct (revertFile_reverts_titled_editors Example.localize Example.toErrorMessage
              Example.revert [Example.untitled_1; Example.editor_a; Example.editor_b])
    as (Hsettled & _ & Hcalls).
  apply injective_projections; [exact Hcalls|exact Hsettled].
Defined.

(** * More of the example workspace, run *)

(** Of two submissions, "foo" and then "bar", the second is validated first:
    the search for "bar" starts before the search for "foo". *)
Lemma searches_order_witness :
  exists v clock calls,
    run Example.localize Example.searchMatchComparer Example.isPromiseCanceledError
        0 Example.two_searches (rendered Example.localize (Example.world 0 "" true false))
    = Some (v, clock, calls)
    /\ map (fun query => pattern (contentPattern query)) (searches calls) = ["bar"; "foo"]
    /\ currentSearchQ v = []
    /\ validating v = [].
Proof.
  destruct (run Example.localize Example.searchMatchComparer Example.isPromiseCanceledError
              0 Example.two_searches
              (rendered Example.localize (Example.world 0 "" true false)))
    as [[[v clock] calls]|] eqn:E; [|vm_compute in E; discriminate].
  exists v, clock, calls. split; [reflexivity|].
  destruct (searches_start_in_validation_order Example.localize Example.searchMatchComparer
              Example.isPromiseCanceledError (Example.world 0 "" true false)
              Example.two_searches v clock calls E) as [Hq Hv].
  assert (Hempty : currentSearchQ v = []).
  { vm_compute in E. injection E as <- _ _. reflexivity. }
  rewrite Hempty, app_nil_r in Hq. rewrite Hq, Hv.
  split; [reflexivity|]. split; [exact Hempty|reflexivity].
Defined.

(** After them the second search runs: two progress indications started, one
    completed; two intervals set, none cleared yet. *)
Lemma balance_witness :
  exists v clock calls,
    run Example.localize Example.searchMatchComparer Example.isPromiseCanceledError
        0 Example.two_searches (rendered Example.localize (Example.world 0 "" true false))
    = Some (v, clock, calls)
    /\ tally starts_progress calls = 2%nat
    /\ tally completes_progress calls = 1%nat
    /\ tally sets_interval calls = 2%nat
    /\ tally clears_interval calls = 0%nat.
Proof.
  destruct (run Example.localize Example.searchMatchComparer Example.isPromiseCanceledError
              0 Example.two_searches
              (rendered Example.localize (Example.world 0 "" true false)))
    as [[[v clock] calls]|] eqn:E; [|vm_compute in E; discriminate].
  exists v, clock, calls. split; [reflexivity|].
  destruct (search_progress_and_intervals_balance Example.localize
              Example.searchMatchComparer Example.isPromiseCanceledError
              (Example.world 0 "" true false)
              Example.two_searches v clock calls E) as [Hp Hi].
  assert (Hc : tally completes_progress calls = 1%nat
               /\ tally clears_interval calls = 0%nat
               /\ running v <> None /\ List.length (uiRefreshHandles v) = 2%nat).
  { vm_compute in E. injection E as <- _ <-. repeat split. discriminate. }
  destruct Hc as (Hc & Hk & Hr & Hh).
  rewrite Hp, Hi, Hc, Hk, Hh. destruct (running v); [|congruence].
  repeat split.
Defined.

(** A cancelled search that found nothing: the next search hides the
    cancelled message although the search runs as the user types. *)
Lemma cancelled_witness :
  let cancelled :=
    view_after (onComplete Example.localize Example.searchMatchComparer
                  (Example.nothing_found 900) Example.searching None) new_SearchView in
  searchOnType (Example.world 901 "foo" true false) = true
  /\ textContent (hd (textNode "") (childNodes (messagesElement cancelled)))
     = "Search was canceled before any results could be found - Search again"
  /\ display_none
       (messagesElement
          (view_after
             (doSearch Example.localize (Example.world 901 "foo" true false)
                (queued (awaited (Example.world 901 "foo" true false)
                                 (Example.query_on [Example.work]) false false)
                        (Example.query_on [Example.work])))
             cancelled))
     = true.
Proof.
  intros cancelled.
  assert (inWorkspace : getWorkbenchState (Example.nothing_found 900) <> EMPTY)
    by discriminate.
  destruct (cancelled_message_hidden_by_next_search Example.localize
              Example.searchMatchComparer Example.isPromiseCanceledError
              (Example.nothing_found 900) Example.searching new_SearchView
              eq_refl inWorkspace) as (Hshown & _ & _ & Hnext).
  fold cancelled in Hshown.
  split; [reflexivity|]. split.
  - rewrite Hshown. reflexivity.
  - rewrite (Hnext _ _ cancelled Hshown). reflexivity.
Defined.

(** The selection from line 1, column 5 to line 2, column 8. *)
Lemma selection_witness :
  getSearchTextFromEditor (Example.world 0 "" true false) Example.editing true
  = Some ("foo = 1;" ++ lineFeed ++ "let bar")%string.
Proof.
  assert (model_holds : holds (Example.model_of Example.source_lines) Example.source_lines).
  { intros j Hj. unfold Example.model_of. cbn [getLineContent]. f_equal. lia. }
  assert (range_within : within Example.source_lines (selection_range Example.selected)).
  { unfold within. simpl. unfold JS.alength, JS.length. simpl. lia. }
  destruct (selection_seeds_document_slice (Example.world 0 "" true false) Example.editing
              true _ _ Example.selected Example.source_lines
              eq_refl eq_refl eq_refl eq_refl eq_refl eq_refl model_holds range_within)
    as [Htext _].
  rewrite Htext. reflexivity.
Defined.


(** Opening an untitled document, a file, a directory and a missing file to
    the side. *)
Lemma openToSide_witness :
  OpenToSide.handler "untitled" Example.resolveAll
    [Example.untitled_doc; Example.a_ts; Example.src_dir; Example.gone]
  = [OpenToSide.fileService_resolveAll [Example.a_ts; Example.src_dir; Example.gone];
     OpenToSide.editorService_openEditors [Example.a_ts; Example.untitled_doc] SIDE_GROUP].
Proof.
  assert (same : forall r s, OpenToSide.stat (Example.resolved r) = Some s ->
                             OpenToSide.resource s = r).
  { intros r s H. simpl in H. injection H as <-. reflexivity. }
  assert (selected : [Example.untitled_doc; Example.a_ts; Example.src_dir; Example.gone]
                     <> []) by discriminate.
  destruct (openToSide_opens_files_and_untitled "untitled" Example.resolveAll
              [Example.untitled_doc; Example.a_ts; Example.src_dir; Example.gone]
              Example.resolved eq_refl same) as [_ H].
  destruct (H selected) as (editors & Hcalls & Heditors & _).
  rewrite Hcalls, Heditors. reflexivity.
Defined.

(** Two overlapping calls of compare with saved leave a listener and no
    provider in [providerDisposables]; the next call registers none. *)
Lemma provider_witness :
  exists g calls,
    CompareWithSaved.run Example.localize Example.basename (fun _ => true)
      Example.overlapping CompareWithSaved.loaded = Some (g, calls)
    /\ CompareWithSaved.providerDisposables g = [CompareWithSaved.listener]
    /\ tally registers calls = 1%nat
    /\ tally disposes_provider calls = 1%nat
    /\ tally registers
         (snd (CompareWithSaved.handler Example.localize Example.basename (fun _ => true)
                 (Some Example.a_ts) g))
       = 0%nat.
Proof.
  destruct (CompareWithSaved.run Example.localize Example.basename (fun _ => true)
              Example.overlapping CompareWithSaved.loaded) as [[g calls]|] eqn:E;
    [|vm_compute in E; discriminate].
  exists g, calls. split; [reflexivity|].
  destruct (one_content_provider_at_a_time Example.localize Example.basename
              (fun _ => true) Example.overlapping g calls E) as (_ & Hcount & _ & Hnext).
  assert (Hg : CompareWithSaved.providerDisposables g = [CompareWithSaved.listener]
               /\ tally disposes_provider calls = 1%nat).
  { vm_compute in E. injection E as <- <-. split; reflexivity. }
  destruct Hg as [Hg Hd]. split; [exact Hg|].
  rewrite Hnext, Hcount, Hd, Hg. repeat split.
Defined.

(** A search in a workspace that found nothing outside the excluded files:
    the announced message is shown, with the links to search in all files
    and to learn more. *)
Lemma no_result_witness :
  let done :=
    onComplete Example.localize Example.searchMatchComparer
      (Example.nothing_found 900) Example.searching (Some {| limitHit := false |}) in
  exists message,
    In (Call.aria_status message) (calls_of done new_SearchView)
    /\ map textContent (childNodes (messagesElement (view_after done new_SearchView)))
       = [(message ++ "Search again in all files - Learn More")%string].
Proof.
  intros done.
  assert (inWorkspace : getWorkbenchState (Example.nothing_found 900) <> EMPTY)
    by discriminate.
  destruct (no_result_message_shown Example.localize Example.searchMatchComparer
              (Example.nothing_found 900) Example.searching
              (Some {| limitHit := false |}) new_SearchView eq_refl)
    as (message & Hsaid & _ & Hshown & _).
  exists message. split; [exact Hsaid|].
  fold done in Hshown. rewrite (Hshown inWorkspace). cbn.
  assert (append_empty : forall s : string, (s ++ "")%string = s)
    by (induction s as [|c s IH]; simpl; congruence).
  rewrite append_empty. reflexivity.
Defined.
